(** * Payment reconciliation backend: a shallow embedding of the Express handlers

    The four payment handlers of the backend ([POST /api/payment/session],
    [POST /api/payment/webhook], [GET /api/payment/status] and
    [POST /api/payment/fulfill]) together with the helper
    [fetchKashierSession] are embedded as programs of a small state and
    exception monad.  The state holds the Firestore collection ["payments"]
    and the trace of outbound calls of one request; the answers of the
    outside world (the payment provider, the Apps Script endpoint, Firestore
    availability, the clock, the process environment) are read from a record
    of oracles, so every theorem quantifies over them.

    The registration endpoint ([POST /api/register]), the health endpoint
    and the webhook of the second payment file (which knows no lookup by
    order) are embedded in the same monad.  Besides the theorems about the
    single handlers, the development proves the order of the outbound calls
    of every endpoint, that no payment request removes or re-keys a stored
    payment, and how the endpoints compose: a record one request stores is
    the record a later request finds. *)

From Stdlib Require Import ZArith List String Ascii Bool Lia DecimalString.
Import ListNotations.
Open Scope string_scope.
Open Scope Z_scope.

Set Warnings "-register-all".

(* ================================================================== *)
(** ** JavaScript values *)
(* ================================================================== *)

Module JS.

(** A JS number.  Finite numbers are kept as decimals [m * 10^e]: every
    binary64 value and every numeric literal is one.  [-0] is identified
    with [0] (the handlers never tell them apart). *)
Inductive Num : Type :=
| NaN
| Inf (neg : bool)
| Dec (m e : Z).

(** Values that travel through the handlers: JSON data, [undefined], and the
    Firestore [Timestamp] objects found in stored documents. *)
Inductive JVal : Type :=
| JUndefined
| JNull
| JBool (b : bool)
| JNum (n : Num)
| JStr (s : string)
| JArr (l : list JVal)
| JObj (fields : list (string * JVal))
| JTime (t : Z).

Definition Obj := list (string * JVal).

(** *** Numbers *)

Fixpoint strip_zeros (fuel : nat) (m e : Z) : Z * Z :=
  match fuel with
  | O => (m, e)
  | S fuel' =>
      if (m =? 0) then (0, 0)
      else if (m mod 10 =? 0) then strip_zeros fuel' (m / 10) (e + 1)
      else (m, e)
  end.

(** Canonical form of a decimal: no trailing zero in the mantissa. *)
Definition num_norm (n : Num) : Num :=
  match n with
  | Dec m e =>
      let (m', e') := strip_zeros (S (Z.to_nat (Z.log2 (Z.abs m)))) m e in
      Dec m' e'
  | _ => n
  end.

Definition raw_eqb (a b : Num) : bool :=
  match a, b with
  | NaN, NaN => true
  | Inf x, Inf y => Bool.eqb x y
  | Dec m e, Dec m' e' => (m =? m') && (e =? e')
  | _, _ => false
  end.

(** [a === b] on numbers: [NaN] differs from itself. *)
Definition num_strict_eqb (a b : Num) : bool :=
  match a, b with
  | NaN, _ | _, NaN => false
  | _, _ => raw_eqb (num_norm a) (num_norm b)
  end.

(** [n <= 0]; every comparison with [NaN] is false. *)
Definition num_le0 (n : Num) : bool :=
  match n with
  | NaN => false
  | Inf neg => neg
  | Dec m _ => m <=? 0
  end.

(** [n > 0]. *)
Definition num_gt0 (n : Num) : bool :=
  match n with
  | NaN => false
  | Inf neg => negb neg
  | Dec m _ => 0 <? m
  end.

Definition string_of_nat_dec (n : nat) : string :=
  NilZero.string_of_uint (Nat.to_uint n).

Definition string_of_N_dec (n : N) : string :=
  NilZero.string_of_uint (N.to_uint n).

Definition string_of_Z_dec (z : Z) : string :=
  if z <? 0 then "-" ++ string_of_N_dec (Z.to_N (- z))
  else string_of_N_dec (Z.to_N z).

Fixpoint zeros (n : nat) : string :=
  match n with O => "" | S n' => String "0" (zeros n') end.

Fixpoint str_take (n : nat) (s : string) : string :=
  match n, s with
  | S n', String c s' => String c (str_take n' s')
  | _, _ => ""
  end.

Fixpoint str_drop (n : nat) (s : string) : string :=
  match n, s with
  | S n', String _ s' => str_drop n' s'
  | _, _ => s
  end.

(** [Number::toString] (radix 10) of a positive canonical decimal with digit
    string [ds] (of length [k]) and value [0.ds * 10^n]. *)
Definition format_digits (ds : string) (n : Z) : string :=
  let k := Z.of_nat (String.length ds) in
  if (k <=? n) && (n <=? 21) then ds ++ zeros (Z.to_nat (n - k))
  else if (0 <? n) && (n <=? 21) then
    str_take (Z.to_nat n) ds ++ "." ++ str_drop (Z.to_nat n) ds
  else if (-6 <? n) && (n <=? 0) then "0." ++ zeros (Z.to_nat (- n)) ++ ds
  else
    let ex := n - 1 in
    let exs := (if ex <? 0 then "e-" else "e+") ++ string_of_Z_dec (Z.abs ex) in
    if k =? 1 then ds ++ exs
    else str_take 1 ds ++ "." ++ str_drop 1 ds ++ exs.

Definition num_to_string (n : Num) : string :=
  match num_norm n with
  | NaN => "NaN"
  | Inf true => "-Infinity"
  | Inf false => "Infinity"
  | Dec m e =>
      if m =? 0 then "0"
      else
        let ds := string_of_N_dec (Z.to_N (Z.abs m)) in
        let body := format_digits ds (Z.of_nat (String.length ds) + e) in
        if m <? 0 then "-" ++ body else body
  end.

(** *** Truthiness and the short-circuit operators *)

Definition truthy (v : JVal) : bool :=
  match v with
  | JUndefined | JNull => false
  | JBool b => b
  | JNum NaN => false
  | JNum (Inf _) => true
  | JNum (Dec m _) => negb (m =? 0)
  | JStr s => negb (String.eqb s "")
  | JArr _ | JObj _ | JTime _ => true
  end.

(** [a || b] *)
Definition js_or (a b : JVal) : JVal := if truthy a then a else b.
(** [a && b] *)
Definition js_and (a b : JVal) : JVal := if truthy a then b else a.

Definition nullish (v : JVal) : bool :=
  match v with JUndefined | JNull => true | _ => false end.

(** *** Objects as ordered lists of own properties *)

Fixpoint assoc (k : string) (o : Obj) : option JVal :=
  match o with
  | [] => None
  | (k', v) :: o' => if String.eqb k k' then Some v else assoc k o'
  end.

Fixpoint obj_set (k : string) (v : JVal) (o : Obj) : Obj :=
  match o with
  | [] => [(k, v)]
  | (k', v') :: o' =>
      if String.eqb k k' then (k, v) :: o' else (k', v') :: obj_set k v o'
  end.

(** [Object.assign(target, src)] for a plain object source. *)
Definition obj_merge (target src : Obj) : Obj :=
  fold_left (fun acc kv => obj_set (fst kv) (snd kv) acc) src target.

(** [v.k] for a property name [k] that is not a built-in of the primitive
    wrappers or of arrays (none of the names read by the handlers is):
    the own property of an object, [undefined] otherwise.  Reading a
    property of [null] or [undefined] throws; that check is [member] of the
    handler monad, used wherever the base may be nullish. *)
Definition prop (v : JVal) (k : string) : JVal :=
  match v with
  | JObj o => match assoc k o with Some x => x | None => JUndefined end
  | _ => JUndefined
  end.

(** *** [String(v)] *)

Fixpoint js_String (v : JVal) : string :=
  match v with
  | JUndefined => "undefined"
  | JNull => "null"
  | JBool true => "true"
  | JBool false => "false"
  | JNum n => num_to_string n
  | JStr s => s
  | JArr l =>
      (fix join (first : bool) (l : list JVal) : string :=
         match l with
         | [] => ""
         | x :: l' =>
             (if first then "" else ",") ++
             (if nullish x then "" else js_String x) ++ join false l'
         end) true l
  | JObj _ | JTime _ => "[object Object]"
  end.

Definition upper_ascii (c : ascii) : ascii :=
  let n := nat_of_ascii c in
  if (Nat.leb 97 n && Nat.leb n 122)%bool then ascii_of_nat (n - 32) else c.

(** *** Text

    A string holds Unicode text as its UTF-8 bytes. *)

Definition byte (c : ascii) : Z := Z.of_nat (nat_of_ascii c).
Definition ascii_of_Z (z : Z) : ascii := ascii_of_nat (Z.to_nat z).

(** The UTF-8 bytes of a code point. *)
Definition utf8 (cp : Z) : list ascii :=
  if cp <? 128 then [ascii_of_Z cp]
  else if cp <? 2048
  then [ascii_of_Z (192 + cp / 64); ascii_of_Z (128 + cp mod 64)]
  else if cp <? 65536
  then [ ascii_of_Z (224 + cp / 4096); ascii_of_Z (128 + cp / 64 mod 64);
         ascii_of_Z (128 + cp mod 64) ]
  else [ ascii_of_Z (240 + cp / 262144); ascii_of_Z (128 + cp / 4096 mod 64);
         ascii_of_Z (128 + cp / 64 mod 64); ascii_of_Z (128 + cp mod 64) ].

(** A continuation byte. *)
Definition is_cont (b : Z) : bool := (128 <=? b) && (b <=? 191).

(** The upper-case mappings of the code points outside ASCII (Unicode 14:
    UnicodeData and the unconditional mappings of SpecialCasing).  An entry
    [(first, last, step, delta)] maps the code points [first],
    [first + step], ..., [last] to themselves plus [delta]. *)
Definition upper_simple : list (Z * Z * Z * Z) :=
  [
    (181, 181, 1, 743); (224, 246, 1, -32); (248, 254, 1, -32);
    (255, 255, 1, 121); (257, 303, 2, -1); (305, 305, 1, -232);
    (307, 311, 2, -1); (314, 328, 2, -1); (331, 375, 2, -1);
    (378, 382, 2, -1); (383, 383, 1, -300); (384, 384, 1, 195);
    (387, 389, 2, -1); (392, 392, 1, -1); (396, 396, 1, -1);
    (402, 402, 1, -1); (405, 405, 1, 97); (409, 409, 1, -1);
    (410, 410, 1, 163); (414, 414, 1, 130); (417, 421, 2, -1);
    (424, 424, 1, -1); (429, 429, 1, -1); (432, 432, 1, -1);
    (436, 438, 2, -1); (441, 441, 1, -1); (445, 445, 1, -1);
    (447, 447, 1, 56); (453, 453, 1, -1); (454, 454, 1, -2);
    (456, 456, 1, -1); (457, 457, 1, -2); (459, 459, 1, -1);
    (460, 460, 1, -2); (462, 476, 2, -1); (477, 477, 1, -79);
    (479, 495, 2, -1); (498, 498, 1, -1); (499, 499, 1, -2);
    (501, 501, 1, -1); (505, 543, 2, -1); (547, 563, 2, -1);
    (572, 572, 1, -1); (575, 576, 1, 10815); (578, 578, 1, -1);
    (583, 591, 2, -1); (592, 592, 1, 10783); (593, 593, 1, 10780);
    (594, 594, 1, 10782); (595, 595, 1, -210); (596, 596, 1, -206);
    (598, 599, 1, -205); (601, 601, 1, -202); (603, 603, 1, -203);
    (604, 604, 1, 42319); (608, 608, 1, -205); (609, 609, 1, 42315);
    (611, 611, 1, -207); (613, 613, 1, 42280); (614, 614, 1, 42308);
    (616, 616, 1, -209); (617, 617, 1, -211); (618, 618, 1, 42308);
    (619, 619, 1, 10743); (620, 620, 1, 42305); (623, 623, 1, -211);
    (625, 625, 1, 10749); (626, 626, 1, -213); (629, 629, 1, -214);
    (637, 637, 1, 10727); (640, 640, 1, -218); (642, 642, 1, 42307);
    (643, 643, 1, -218); (647, 647, 1, 42282); (648, 648, 1, -218);
    (649, 649, 1, -69); (650, 651, 1, -217); (652, 652, 1, -71);
    (658, 658, 1, -219); (669, 669, 1, 42261); (670, 670, 1, 42258);
    (837, 837, 1, 84); (881, 883, 2, -1); (887, 887, 1, -1);
    (891, 893, 1, 130); (940, 940, 1, -38); (941, 943, 1, -37);
    (945, 961, 1, -32); (962, 962, 1, -31); (963, 971, 1, -32);
    (972, 972, 1, -64); (973, 974, 1, -63); (976, 976, 1, -62);
    (977, 977, 1, -57); (981, 981, 1, -47); (982, 982, 1, -54);
    (983, 983, 1, -8); (985, 1007, 2, -1); (1008, 1008, 1, -86);
    (1009, 1009, 1, -80); (1010, 1010, 1, 7); (1011, 1011, 1, -116);
    (1013, 1013, 1, -96); (1016, 1016, 1, -1); (1019, 1019, 1, -1);
    (1072, 1103, 1, -32); (1104, 1119, 1, -80); (1121, 1153, 2, -1);
    (1163, 1215, 2, -1); (1218, 1230, 2, -1); (1231, 1231, 1, -15);
    (1233, 1327, 2, -1); (1377, 1414, 1, -48); (4304, 4346, 1, 3008);
    (4349, 4351, 1, 3008); (5112, 5117, 1, -8); (7296, 7296, 1, -6254);
    (7297, 7297, 1, -6253); (7298, 7298, 1, -6244); (7299, 7300, 1, -6242);
    (7301, 7301, 1, -6243); (7302, 7302, 1, -6236); (7303, 7303, 1, -6181);
    (7304, 7304, 1, 35266); (7545, 7545, 1, 35332); (7549, 7549, 1, 3814);
    (7566, 7566, 1, 35384); (7681, 7829, 2, -1); (7835, 7835, 1, -59);
    (7841, 7935, 2, -1); (7936, 7943, 1, 8); (7952, 7957, 1, 8);
    (7968, 7975, 1, 8); (7984, 7991, 1, 8); (8000, 8005, 1, 8);
    (8017, 8023, 2, 8); (8032, 8039, 1, 8); (8048, 8049, 1, 74);
    (8050, 8053, 1, 86); (8054, 8055, 1, 100); (8056, 8057, 1, 128);
    (8058, 8059, 1, 112); (8060, 8061, 1, 126); (8112, 8113, 1, 8);
    (8126, 8126, 1, -7205); (8144, 8145, 1, 8); (8160, 8161, 1, 8);
    (8165, 8165, 1, 7); (8526, 8526, 1, -28); (8560, 8575, 1, -16);
    (8580, 8580, 1, -1); (9424, 9449, 1, -26); (11312, 11359, 1, -48);
    (11361, 11361, 1, -1); (11365, 11365, 1, -10795);
    (11366, 11366, 1, -10792); (11368, 11372, 2, -1); (11379, 11379, 1, -1);
    (11382, 11382, 1, -1); (11393, 11491, 2, -1); (11500, 11502, 2, -1);
    (11507, 11507, 1, -1); (11520, 11557, 1, -7264); (11559, 11559, 1, -7264);
    (11565, 11565, 1, -7264); (42561, 42605, 2, -1); (42625, 42651, 2, -1);
    (42787, 42799, 2, -1); (42803, 42863, 2, -1); (42874, 42876, 2, -1);
    (42879, 42887, 2, -1); (42892, 42892, 1, -1); (42897, 42899, 2, -1);
    (42900, 42900, 1, 48); (42903, 42921, 2, -1); (42933, 42947, 2, -1);
    (42952, 42954, 2, -1); (42961, 42961, 1, -1); (42967, 42969, 2, -1);
    (42998, 42998, 1, -1); (43859, 43859, 1, -928); (43888, 43967, 1, -38864);
    (65345, 65370, 1, -32); (66600, 66639, 1, -40); (66776, 66811, 1, -40);
    (66967, 66977, 1, -39); (66979, 66993, 1, -39); (66995, 67001, 1, -39);
    (67003, 67004, 1, -39); (68800, 68850, 1, -64); (71872, 71903, 1, -32);
    (93792, 93823, 1, -32); (125218, 125251, 1, -34)
  ].

(** The code points whose upper case is more than one code point. *)
Definition upper_special : list (Z * list Z) :=
  [
    (223, [83; 83]); (329, [700; 78]); (496, [74; 780]);
    (912, [921; 776; 769]); (944, [933; 776; 769]); (1415, [1333; 1362]);
    (7830, [72; 817]); (7831, [84; 776]); (7832, [87; 778]);
    (7833, [89; 778]); (7834, [65; 702]); (8016, [933; 787]);
    (8018, [933; 787; 768]); (8020, [933; 787; 769]); (8022, [933; 787; 834]);
    (8064, [7944; 921]); (8065, [7945; 921]); (8066, [7946; 921]);
    (8067, [7947; 921]); (8068, [7948; 921]); (8069, [7949; 921]);
    (8070, [7950; 921]); (8071, [7951; 921]); (8072, [7944; 921]);
    (8073, [7945; 921]); (8074, [7946; 921]); (8075, [7947; 921]);
    (8076, [7948; 921]); (8077, [7949; 921]); (8078, [7950; 921]);
    (8079, [7951; 921]); (8080, [7976; 921]); (8081, [7977; 921]);
    (8082, [7978; 921]); (8083, [7979; 921]); (8084, [7980; 921]);
    (8085, [7981; 921]); (8086, [7982; 921]); (8087, [7983; 921]);
    (8088, [7976; 921]); (8089, [7977; 921]); (8090, [7978; 921]);
    (8091, [7979; 921]); (8092, [7980; 921]); (8093, [7981; 921]);
    (8094, [7982; 921]); (8095, [7983; 921]); (8096, [8040; 921]);
    (8097, [8041; 921]); (8098, [8042; 921]); (8099, [8043; 921]);
    (8100, [8044; 921]); (8101, [8045; 921]); (8102, [8046; 921]);
    (8103, [8047; 921]); (8104, [8040; 921]); (8105, [8041; 921]);
    (8106, [8042; 921]); (8107, [8043; 921]); (8108, [8044; 921]);
    (8109, [8045; 921]); (8110, [8046; 921]); (8111, [8047; 921]);
    (8114, [8122; 921]); (8115, [913; 921]); (8116, [902; 921]);
    (8118, [913; 834]); (8119, [913; 834; 921]); (8124, [913; 921]);
    (8130, [8138; 921]); (8131, [919; 921]); (8132, [905; 921]);
    (8134, [919; 834]); (8135, [919; 834; 921]); (8140, [919; 921]);
    (8146, [921; 776; 768]); (8147, [921; 776; 769]); (8150, [921; 834]);
    (8151, [921; 776; 834]); (8162, [933; 776; 768]); (8163, [933; 776; 769]);
    (8164, [929; 787]); (8166, [933; 834]); (8167, [933; 776; 834]);
    (8178, [8186; 921]); (8179, [937; 921]); (8180, [911; 921]);
    (8182, [937; 834]); (8183, [937; 834; 921]); (8188, [937; 921]);
    (64256, [70; 70]); (64257, [70; 73]); (64258, [70; 76]);
    (64259, [70; 70; 73]); (64260, [70; 70; 76]); (64261, [83; 84]);
    (64262, [83; 84]); (64275, [1348; 1350]); (64276, [1348; 1333]);
    (64277, [1348; 1339]); (64278, [1358; 1350]); (64279, [1348; 1341])
  ].

(** The upper case of a code point outside ASCII. *)
Definition upper_cp (cp : Z) : list Z :=
  match find (fun x => fst x =? cp) upper_special with
  | Some (_, l) => l
  | None =>
      match find (fun r => let '(f, l, s, _) := r in
                           (f <=? cp) && (cp <=? l) && ((cp - f) mod s =? 0))
                 upper_simple with
      | Some (_, _, _, d) => [cp + d]
      | None => [cp]
      end
  end.

(** The upper case of text, code point by code point; bytes that do not
    start a code point are kept. *)
Fixpoint upper_bytes (l : list ascii) : list ascii :=
  match l with
  | [] => []
  | c1 :: r1 =>
      let b1 := byte c1 in
      if b1 <? 128 then upper_ascii c1 :: upper_bytes r1
      else
        match r1 with
        | c2 :: r2 =>
            let b2 := byte c2 in
            if (194 <=? b1) && (b1 <=? 223) && is_cont b2
            then (flat_map utf8 (upper_cp ((b1 - 192) * 64 + (b2 - 128)))
                  ++ upper_bytes r2)%list
            else
              match r2 with
              | c3 :: r3 =>
                  let b3 := byte c3 in
                  if (224 <=? b1) && (b1 <=? 239) && is_cont b2 && is_cont b3
                  then (flat_map utf8
                          (upper_cp ((b1 - 224) * 4096 + (b2 - 128) * 64
                                     + (b3 - 128)))
                        ++ upper_bytes r3)%list
                  else
                    match r3 with
                    | c4 :: r4 =>
                        let b4 := byte c4 in
                        if (240 <=? b1) && (b1 <=? 244) && is_cont b2
                           && is_cont b3 && is_cont b4
                        then (flat_map utf8
                                (upper_cp ((b1 - 240) * 262144
                                           + (b2 - 128) * 4096
                                           + (b3 - 128) * 64 + (b4 - 128)))
                              ++ upper_bytes r4)%list
                        else c1 :: upper_bytes r1
                    | [] => c1 :: upper_bytes r1
                    end
              | [] => c1 :: upper_bytes r1
              end
        | [] => [c1]
        end
  end.

(** [s.toUpperCase()]: the Unicode default case conversion. *)
Definition toUpperCase (s : string) : string :=
  string_of_list_ascii (upper_bytes (list_ascii_of_string s)).

(** *** [Number(v)] *)

(** [StrWhiteSpaceChar], the characters [Number] strips from both ends of
    a string: the white space TAB, VT, FF, SP, NBSP (U+00A0), ZWNBSP
    (U+FEFF) and the other space separators (U+1680, U+2000 to U+200A,
    U+202F, U+205F, U+3000), and the line terminators LF, CR, LS (U+2028)
    and PS (U+2029); by their UTF-8 bytes. *)
Definition is_ws (c : ascii) : bool :=
  let n := nat_of_ascii c in
  ((Nat.leb 9 n && Nat.leb n 13) || Nat.eqb n 32)%bool.

Definition is_ws2 (b1 b2 : Z) : bool := (b1 =? 194) && (b2 =? 160).

Definition is_ws3 (b1 b2 b3 : Z) : bool :=
  ((b1 =? 225) && (b2 =? 154) && (b3 =? 128)) ||
  ((b1 =? 226) && (b2 =? 128) &&
   (((128 <=? b3) && (b3 <=? 138)) || (b3 =? 168) || (b3 =? 169)
    || (b3 =? 175))) ||
  ((b1 =? 226) && (b2 =? 129) && (b3 =? 159)) ||
  ((b1 =? 227) && (b2 =? 128) && (b3 =? 128)) ||
  ((b1 =? 239) && (b2 =? 187) && (b3 =? 191)).

Fixpoint drop_ws (l : list ascii) : list ascii :=
  match l with
  | c1 :: r1 =>
      if is_ws c1 then drop_ws r1
      else
        match r1 with
        | c2 :: r2 =>
            if is_ws2 (byte c1) (byte c2) then drop_ws r2
            else
              match r2 with
              | c3 :: r3 =>
                  if is_ws3 (byte c1) (byte c2) (byte c3) then drop_ws r3
                  else l
              | [] => l
              end
        | [] => l
        end
  | [] => []
  end.

(** The same from the end of the text, on the bytes in reverse. *)
Fixpoint drop_ws_end (l : list ascii) : list ascii :=
  match l with
  | c1 :: r1 =>
      if is_ws c1 then drop_ws_end r1
      else
        match r1 with
        | c2 :: r2 =>
            if is_ws2 (byte c2) (byte c1) then drop_ws_end r2
            else
              match r2 with
              | c3 :: r3 =>
                  if is_ws3 (byte c3) (byte c2) (byte c1) then drop_ws_end r3
                  else l
              | [] => l
              end
        | [] => l
        end
  | [] => []
  end.

Definition trim (l : list ascii) : list ascii :=
  rev (drop_ws_end (rev (drop_ws l))).

Definition digit_of (c : ascii) : option Z :=
  let n := Z.of_nat (nat_of_ascii c) in
  if (48 <=? n) && (n <=? 57) then Some (n - 48)
  else if (97 <=? n) && (n <=? 102) then Some (n - 87)
  else if (65 <=? n) && (n <=? 70) then Some (n - 55)
  else None.

(** Reads the longest prefix of digits of the base: the value accumulated
    on [acc], the count of digits read, the rest of the input. *)
Fixpoint read_digits (base : Z) (l : list ascii) (acc cnt : Z)
  : Z * Z * list ascii :=
  match l with
  | c :: l' =>
      match digit_of c with
      | Some d =>
          if d <? base then read_digits base l' (acc * base + d) (cnt + 1)
          else (acc, cnt, l)
      | None => (acc, cnt, l)
      end
  | [] => (acc, cnt, l)
  end.

Definition is_char (c : ascii) (s : string) : bool :=
  String.eqb (String c EmptyString) s.

(** [StrUnsignedDecimalLiteral] other than [Infinity]: mantissa and
    decimal exponent. *)
Definition parse_unsigned (l : list ascii) : option (Z * Z) :=
  let '(i, ni, r1) := read_digits 10 l 0 0 in
  let '(f, nf, r2) :=
    match r1 with
    | c :: r => if is_char c "." then read_digits 10 r i 0 else (i, 0, r1)
    | [] => (i, 0, r1)
    end in
  if ni + nf =? 0 then None
  else
    match r2 with
    | [] => Some (f, - nf)
    | c :: r3 =>
        if is_char c "e" || is_char c "E" then
          let '(sgn, r4) :=
            match r3 with
            | d :: r =>
                if is_char d "+" then (1, r)
                else if is_char d "-" then (-1, r) else (1, r3)
            | [] => (1, r3)
            end in
          let '(x, nx, r5) := read_digits 10 r4 0 0 in
          if nx =? 0 then None
          else match r5 with [] => Some (f, sgn * x - nf) | _ => None end
        else None
    end.

(** Largest magnitude that does not round to [Infinity] is below
    [2^1024 - 2^970]; magnitudes up to [2^-1075] round to zero. *)
Definition overflow_bound : Z := 2 ^ 1024 - 2 ^ 970.

Definition round_range (m e : Z) : Num :=
  if m =? 0 then Dec 0 0
  else
    let nd := Z.of_nat (String.length (string_of_N_dec (Z.to_N m))) in
    let mag := nd + e in
    if 310 <? mag then Inf false
    else if mag <? -330 then Dec 0 0
    else if 0 <=? e then
      (if overflow_bound <=? m * 10 ^ e then Inf false else Dec m e)
    else if m * 2 ^ 1075 <=? 10 ^ (- e) then Dec 0 0
    else if overflow_bound * 10 ^ (- e) <=? m then Inf false
    else Dec m e.

Definition num_neg (n : Num) : Num :=
  match n with
  | NaN => NaN
  | Inf b => Inf (negb b)
  | Dec m e => Dec (- m) e
  end.

Definition parse_radix (base : Z) (l : list ascii) : Num :=
  let '(v, n, rest) := read_digits base l 0 0 in
  match rest with
  | [] => if n =? 0 then NaN else round_range v 0
  | _ => NaN
  end.

Definition parse_decimal (l : list ascii) : Num :=
  if String.eqb (string_of_list_ascii l) "Infinity" then Inf false
  else match parse_unsigned l with
       | Some (m, e) => round_range m e
       | None => NaN
       end.

Definition parse_signed (l : list ascii) : Num :=
  match l with
  | c :: r =>
      if is_char c "+" then parse_decimal r
      else if is_char c "-" then num_neg (parse_decimal r)
      else parse_decimal l
  | [] => NaN
  end.

(** [StringToNumber]: the [StringNumericLiteral] grammar, white space
    trimmed (the ASCII white space and line terminators). *)
Definition string_to_number (s : string) : Num :=
  match trim (list_ascii_of_string s) with
  | [] => Dec 0 0
  | c :: r =>
      match r with
      | x :: r' =>
          if is_char c "0" && (is_char x "x" || is_char x "X")
          then parse_radix 16 r'
          else if is_char c "0" && (is_char x "o" || is_char x "O")
          then parse_radix 8 r'
          else if is_char c "0" && (is_char x "b" || is_char x "B")
          then parse_radix 2 r'
          else parse_signed (c :: r)
      | [] => parse_signed (c :: r)
      end
  end.

(** [Number(v)]: arrays and objects go through [ToPrimitive], which is
    their [String]. *)
Definition js_Number (v : JVal) : Num :=
  match v with
  | JUndefined => NaN
  | JNull => Dec 0 0
  | JBool true => Dec 1 0
  | JBool false => Dec 0 0
  | JNum n => n
  | JStr s => string_to_number s
  | JArr _ | JObj _ => string_to_number (js_String v)
  | JTime _ => NaN
  end.

(** *** Equalities *)

(** [a === b].  Objects and arrays are equal only to themselves as
    references; the handlers compare a value read back from the store with a
    value parsed from a provider response, which are never the same
    reference. *)
Definition strict_eqb (a b : JVal) : bool :=
  match a, b with
  | JUndefined, JUndefined => true
  | JNull, JNull => true
  | JBool x, JBool y => Bool.eqb x y
  | JNum x, JNum y => num_strict_eqb x y
  | JStr x, JStr y => String.eqb x y
  | _, _ => false
  end.

(** Equality of the Firestore [==] filter: by type and value, deep on
    arrays and maps (maps regardless of key order); [undefined] is not a
    Firestore value. *)
Fixpoint fs_eqb (a b : JVal) {struct a} : bool :=
  match a, b with
  | JNull, JNull => true
  | JBool x, JBool y => Bool.eqb x y
  | JNum x, JNum y => raw_eqb (num_norm x) (num_norm y)
  | JStr x, JStr y => String.eqb x y
  | JTime x, JTime y => x =? y
  | JArr la, JArr lb =>
      (fix go (la lb : list JVal) : bool :=
         match la, lb with
         | [], [] => true
         | x :: la', y :: lb' => fs_eqb x y && go la' lb'
         | _, _ => false
         end) la lb
  | JObj fa, JObj fb =>
      Nat.eqb (List.length fa) (List.length fb) &&
      (fix go (fa : Obj) : bool :=
         match fa with
         | [] => true
         | (k, v) :: fa' =>
             match assoc k fb with
             | Some w => fs_eqb v w
             | None => false
             end && go fa'
         end) fa
  | _, _ => false
  end.

(** A value Firestore accepts in a write: no [undefined] anywhere. *)
Fixpoint fs_valid (v : JVal) : bool :=
  match v with
  | JUndefined => false
  | JArr l =>
      (fix go (l : list JVal) : bool :=
         match l with [] => true | x :: l' => fs_valid x && go l' end) l
  | JObj o =>
      (fix go (o : Obj) : bool :=
         match o with [] => true | (_, x) :: o' => fs_valid x && go o' end) o
  | _ => true
  end.

(** [successStates.includes(v)]: SameValueZero against string constants. *)
Definition includes (l : list string) (v : JVal) : bool :=
  match v with
  | JStr s => existsb (String.eqb s) l
  | _ => false
  end.

End JS.

Import JS.

(* ================================================================== *)
(** ** The outside world and the handler monad *)
(* ================================================================== *)

(** What [fetch] resolves to: the HTTP status, the body as [resp.json()]
    parses it ([None]: not JSON, the call throws) and as [resp.text()]. *)
Record HttpResp : Type := mkResp {
  http_status : nat;
  http_json : option JVal;
  http_text : string
}.

(** [resp.ok] *)
Definition resp_ok (r : HttpResp) : bool :=
  (Nat.leb 200 (http_status r) && Nat.leb (http_status r) 299)%bool.

(** The oracles of one request.  A fetch oracle answers [None] when the
    call rejects (network failure).  [fs_fails n] tells whether the [n]-th
    Firestore call of the request rejects; [add_pos] is the rank the
    auto-generated id of a new document takes in the collection's order.
    The request headers (built from [KASHIER_SECRET] and [KASHIER_API_KEY])
    are constants of the process and are not recorded. *)
Record Env : Type := mkEnv {
  KASHIER_MODE : JVal;
  KASHIER_MERCHANT_ID : JVal;
  SERVER_BASE : JVal;
  APPSCRIPT_URL : JVal;
  APPSCRIPT_TOKEN : JVal;
  db_defined : bool;
  fs_fails : nat -> bool;
  add_pos : nat;
  server_time : Z;
  now_order : Z;
  now_expire : Z;
  kashier_get : string -> option HttpResp;
  kashier_post : string -> JVal -> option HttpResp;
  appscript_post : JVal -> JVal -> option HttpResp
}.

(** Outbound calls of a request, in the order they are made. *)
Inductive Event : Type :=
| EvQuery (path : list string) (v : JVal)
| EvAdd (doc : Obj)
| EvUpdate (idx : nat) (fields : Obj)
| EvKashierGet (url : string)
| EvKashierPost (url : string) (payload : JVal)
| EvAppsScript (url : JVal) (payload : JVal).

Definition is_store_write (e : Event) : bool :=
  match e with EvAdd _ | EvUpdate _ _ => true | _ => false end.

Definition is_provider_call (e : Event) : bool :=
  match e with EvKashierGet _ | EvKashierPost _ _ => true | _ => false end.

Definition is_dispatch (e : Event) : bool :=
  match e with EvAppsScript _ _ => true | _ => false end.

(** The state a handler threads: the collection ["payments"] in query
    order, the trace so far, and the count of Firestore calls made. *)
Record St : Type := mkSt {
  docs : list Obj;
  log : list Event;
  fs_calls : nat
}.

(** A computation returns a value or throws; what is thrown is kept as
    its [String(err)]. *)
Inductive Res (A : Type) : Type :=
| Ok (a : A)
| Throw (err : string).
Arguments Ok {A} a.
Arguments Throw {A} err.

Definition M (A : Type) : Type := St -> Res A * St.

Definition ret {A} (a : A) : M A := fun st => (Ok a, st).

Definition throw {A} (err : string) : M A := fun st => (Throw err, st).

Definition bind {A B} (m : M A) (k : A -> M B) : M B :=
  fun st =>
    match m st with
    | (Ok a, st') => k a st'
    | (Throw e, st') => (Throw e, st')
    end.

(** [try { m } catch (err) { h err }] *)
Definition try_catch {A} (m : M A) (h : string -> M A) : M A :=
  fun st =>
    match m st with
    | (Ok a, st') => (Ok a, st')
    | (Throw e, st') => h e st'
    end.

Declare Scope handler_scope.
Delimit Scope handler_scope with handler.
Notation "x <- m ;; k" := (bind m (fun x => k))
  (at level 61, m at next level, right associativity) : handler_scope.
Notation "m ;;; k" := (bind m (fun _ => k))
  (at level 61, right associativity) : handler_scope.
Open Scope handler_scope.

Definition emit (e : Event) : M unit :=
  fun st => (Ok tt, mkSt (docs st) (log st ++ [e])%list (fs_calls st)).

(** [v.k] where [v] may be [null] or [undefined]. *)
Definition member (v : JVal) (k : string) : M JVal :=
  if nullish v
  then throw ("TypeError: Cannot read properties of " ++ js_String v)
  else ret (prop v k).

(** *** The collection ["payments"] *)

(** The field of a document at a (dotted) field path. *)
Fixpoint field_at (path : list string) (v : JVal) : option JVal :=
  match path with
  | [] => Some v
  | k :: path' =>
      match v with
      | JObj o =>
          match assoc k o with
          | Some x => field_at path' x
          | None => None
          end
      | _ => None
      end
  end.

Definition doc_matches (path : list string) (v : JVal) (d : Obj) : bool :=
  match field_at path (JObj d) with
  | Some x => fs_eqb x v
  | None => false
  end.

(** First document, in the collection's order, that passes the filter. *)
Fixpoint find_from (i : nat) (p : Obj -> bool) (l : list Obj)
  : option (nat * Obj) :=
  match l with
  | [] => None
  | d :: l' => if p d then Some (i, d) else find_from (S i) p l'
  end.

Definition find_doc (path : list string) (v : JVal) (l : list Obj)
  : option (nat * Obj) :=
  find_from 0 (doc_matches path v) l.

Fixpoint list_insert_at {A} (n : nat) (x : A) (l : list A) : list A :=
  match n, l with
  | S n', y :: l' => y :: list_insert_at n' x l'
  | _, _ => x :: l
  end.

Fixpoint list_update_at {A} (n : nat) (f : A -> A) (l : list A) : list A :=
  match n, l with
  | O, y :: l' => f y :: l'
  | S n', y :: l' => y :: list_update_at n' f l'
  | _, [] => []
  end.

(** *** Responses and small helpers of the handlers *)

Inductive Body : Type :=
| BJson (v : JVal)
| BText (s : string).

Record Response : Type := mkResponse {
  code : nat;
  body : Body
}.

(** [res.status(c).json({...})] *)
Definition json (c : nat) (fields : Obj) : Response :=
  mkResponse c (BJson (JObj fields)).

(** [res.status(c).send("...")] *)
Definition text (c : nat) (s : string) : Response :=
  mkResponse c (BText s).

(** A destructuring default: [x = d] takes [d] when the property is
    [undefined]. *)
Definition default_to (v d : JVal) : JVal :=
  match v with JUndefined => d | _ => v end.

Fixpoint index_fields (i : nat) (l : list JVal) : Obj :=
  match l with
  | [] => []
  | x :: l' => (string_of_nat_dec i, x) :: index_fields (S i) l'
  end.

(** Own enumerable properties, as [Object.assign] copies them (a string
    gives its characters, indexed). *)
Definition own_props (v : JVal) : Obj :=
  match v with
  | JObj o => o
  | JArr l => index_fields 0 l
  | JStr s =>
      index_fields 0
        (map (fun c => JStr (String c EmptyString)) (list_ascii_of_string s))
  | _ => []
  end.

Definition pad (width : nat) (z : Z) : string :=
  let ds := string_of_Z_dec z in
  zeros (width - String.length ds) ++ ds.

(** [new Date(ms).toISOString()] for a time value in range. *)
Definition toISOString (ms : Z) : string :=
  let days := ms / 86400000 in
  let rem := ms mod 86400000 in
  let z := days + 719468 in
  let era := z / 146097 in
  let doe := z mod 146097 in
  let yoe := (doe - doe / 1460 + doe / 36524 - doe / 146096) / 365 in
  let doy := doe - (365 * yoe + yoe / 4 - yoe / 100) in
  let mp := (5 * doy + 2) / 153 in
  let d := doy - (153 * mp + 2) / 5 + 1 in
  let m := if mp <? 10 then mp + 3 else mp - 9 in
  let y := yoe + era * 400 + (if m <=? 2 then 1 else 0) in
  let ys :=
    if (0 <=? y) && (y <=? 9999) then pad 4 y
    else (if y <? 0 then "-" else "+") ++ pad 6 (Z.abs y) in
  ys ++ "-" ++ pad 2 m ++ "-" ++ pad 2 d ++ "T" ++
  pad 2 (rem / 3600000) ++ ":" ++ pad 2 (rem / 60000 mod 60) ++ ":" ++
  pad 2 (rem / 1000 mod 60) ++ "." ++ pad 3 (rem mod 1000) ++ "Z".

Definition successStates : list string := ["PAID"; "CAPTURED"; "AUTHORIZED"].

Section Handlers.

Variable w : Env.

(** A call on [db.collection("payments")]: a [TypeError] when [db] was
    never initialised, else the call is made and may reject. *)
Definition fs_call {A} (ev : Event) (op : list Obj -> Res A * list Obj)
  : M A :=
  fun st =>
    if negb (db_defined w)
    then (Throw "TypeError: Cannot read properties of undefined", st)
    else
      let lg := (log st ++ [ev])%list in
      let n := fs_calls st in
      if fs_fails w n then (Throw "Error: firestore", mkSt (docs st) lg (S n))
      else
        match op (docs st) with
        | (r, ds) => (r, mkSt ds lg (S n))
        end.

(** [.where(path, "==", v).limit(1).get()]: the snapshot is empty
    ([None]) or holds [docs[0]] with its position as reference. *)
Definition query (path : list string) (v : JVal) : M (option (nat * Obj)) :=
  fs_call (EvQuery path v)
    (fun ds =>
       if fs_valid v then (Ok (find_doc path v ds), ds)
       else (Throw "Error: invalid query value", ds)).

(** [.add(doc)] *)
Definition add (doc : Obj) : M unit :=
  fs_call (EvAdd doc)
    (fun ds =>
       if fs_valid (JObj doc) then (Ok tt, list_insert_at (add_pos w) doc ds)
       else (Throw "Error: undefined is not a Firestore value", ds)).

(** [ref.update(fields)] on the document at position [idx]. *)
Definition update (idx : nat) (fields : Obj) : M unit :=
  fs_call (EvUpdate idx fields)
    (fun ds =>
       if fs_valid (JObj fields)
       then (Ok tt, list_update_at idx (fun d => obj_merge d fields) ds)
       else (Throw "Error: undefined is not a Firestore value", ds)).

(** [admin.firestore.FieldValue.serverTimestamp()], as stored. *)
Definition serverTimestamp : JVal := JTime (server_time w).

(** *** HTTP *)

(** [await fetch(...)]: the call is recorded, then resolves to the world's
    answer or rejects. *)
Definition fetch_with (ev : Event) (answer : option HttpResp) : M HttpResp :=
  emit ev ;;;
  match answer with
  | Some r => ret r
  | None => throw "FetchError: request failed"
  end.

(** [await resp.json()] *)
Definition resp_json (r : HttpResp) : M JVal :=
  match http_json r with
  | Some v => ret v
  | None => throw "SyntaxError: invalid json response body"
  end.

(* ================================================================== *)
(** ** The handlers *)
(* ================================================================== *)

(** The URL [fetchKashierSession] gets, by the mode of the process. *)
Definition kashier_session_url (sessionId : JVal) : string :=
  let base :=
    if strict_eqb (KASHIER_MODE w) (JStr "live")
    then "https://api.kashier.io"
    else "https://test-api.kashier.io" in
  base ++ "/v3/payment/sessions/" ++ js_String sessionId ++ "/payment".

(** Helper: verify session via Kashier GET API.  The thrown message is
    kept without the interpolated status and body: every caller discards
    it. *)
Definition fetchKashierSession (sessionId : JVal) : M JVal :=
  let url := kashier_session_url sessionId in
  resp <- fetch_with (EvKashierGet url) (kashier_get w url) ;;
  data <- resp_json resp ;;
  if negb (resp_ok resp) then throw "Error: Kashier verify failed"
  else ret data.

(** The session payload sent to the provider. *)
Definition session_payload (b : JVal) : JVal :=
  let amount := prop b "amount" in
  let currency := default_to (prop b "currency") (JStr "EGP") in
  let order :=
    default_to (prop b "order")
      (JStr ("order-" ++ string_of_Z_dec (now_order w))) in
  let merchantRedirect := prop b "merchantRedirect" in
  let description := prop b "description" in
  let customerEmail := prop b "customerEmail" in
  let customerReference := prop b "customerReference" in
  let metaData := prop b "metaData" in
  let age := prop b "age" in
  JObj
    [ ("expireAt", JStr (toISOString (now_expire w + 1000 * 60 * 60)));
      ("maxFailureAttempts", JNum (Dec 3 0));
      ("paymentType", JStr "credit");
      ("amount", JStr (js_String amount));
      ("currency", currency);
      ("order", order);
      ("merchantRedirect", merchantRedirect);
      ("display", JStr "en");
      ("type", JStr "one-time");
      ("allowedMethods", JStr "card,wallet");
      ("merchantId", KASHIER_MERCHANT_ID w);
      ("failureRedirect", JBool false);
      ("defaultMethod", JStr "card");
      ("description",
        js_or description (JStr ("Payment for " ++ js_String order)));
      ("customer",
        JObj [ ("email", js_or customerEmail (JStr ""));
               ("reference", js_or customerReference (JStr "")) ]);
      ("retrieveSavedCard", JBool false);
      ("saveCard", JStr "optional");
      ("serverWebhook",
        JStr (js_String (SERVER_BASE w) ++ "/api/payment/webhook"));
      ("metaData",
        JObj (obj_merge (obj_merge [] (own_props (js_or metaData (JObj []))))
                        (if truthy age then [("age", age)] else []))) ].

(** The document written after a successful provider response. *)
Definition session_record (b payload data d_id : JVal) : Obj :=
  let sessionId :=
    js_or (js_or (js_or d_id (prop data "sessionId"))
                 (js_and (prop data "data") (prop (prop data "data") "_id")))
          JNull in
  [ ("sessionId", sessionId);
    ("merchantOrderId", prop payload "order");
    ("status", js_or (prop data "status") (JStr "CREATED"));
    ("createdAt", serverTimestamp);
    ("amount", prop payload "amount");
    ("currency", prop payload "currency");
    ("order", prop payload "order");
    ("age", js_or (prop b "age") JNull);
    ("user", js_or (prop b "user") JNull);
    ("response", data) ].

Definition session_endpoint : string :=
  if strict_eqb (KASHIER_MODE w) (JStr "live")
  then "https://api.kashier.io/v3/payment/sessions"
  else "https://test-api.kashier.io/v3/payment/sessions".

(** POST /api/payment/session *)
Definition session_handler (req_body : JVal) : M Response :=
  try_catch
    (let b := js_or req_body (JObj []) in
     let amount := prop b "amount" in
     let merchantRedirect := prop b "merchantRedirect" in
     if negb (truthy amount) || negb (truthy merchantRedirect)
     then ret (json 400 [("error", JStr "missing amount or merchantRedirect")])
     else if num_le0 (js_Number amount)
     then ret (json 400 [("error", JStr "invalid amount")])
     else
       let payload := session_payload b in
       let endpoint := session_endpoint in
       resp <- fetch_with (EvKashierPost endpoint payload)
                          (kashier_post w endpoint payload) ;;
       data <- resp_json resp ;;
       if negb (resp_ok resp) then ret (json 502 [("error", data)])
       else
         try_catch
           (d_id <- member data "_id" ;;
            add (session_record b payload data d_id))
           (fun _ => ret tt) ;;;
         sessionUrl <- member data "sessionUrl" ;;
         ret (json 200 [ ("success", JBool true);
                         ("sessionUrl", sessionUrl);
                         ("raw", data) ]))
    (fun err => ret (json 500 [("error", JStr err)])).

(** The correlation keys read from a notification. *)
Definition direct_sessionId (evt : JVal) : JVal :=
  js_or (js_or (js_or (prop evt "sessionId") (prop evt "_id"))
               (js_and (prop evt "data") (prop (prop evt "data") "sessionId")))
        JNull.

Definition evt_merchantOrderId (evt : JVal) : JVal :=
  js_or (js_or (js_or (js_or (prop evt "merchantOrderId")
                             (js_and (prop evt "data")
                                     (prop (prop evt "data") "merchantOrderId")))
                      (prop evt "order"))
               (js_and (prop evt "data") (prop (prop evt "data") "order")))
        JNull.

Definition evt_kashierOrderId (evt : JVal) : JVal :=
  js_or (js_or (js_or (prop evt "kashierOrderId")
                      (js_and (prop evt "data")
                              (prop (prop evt "data") "kashierOrderId")))
               (prop evt "orderReference"))
        JNull.

(** A lookup of the webhook: the found document's [sessionId || null], the
    current [sessionId] when the snapshot is empty or the lookup throws. *)
Definition lookup_sessionId (path : list string) (key sessionId : JVal)
  : M JVal :=
  try_catch
    (snap <- query path key ;;
     match snap with
     | Some (_, d) => ret (js_or (prop (JObj d) "sessionId") JNull)
     | None => ret sessionId
     end)
    (fun _ => ret sessionId).

(** The webhook's resolution of [sessionId], up to the final check. *)
Definition webhook_resolve (evt : JVal) : M JVal :=
  let sessionId := direct_sessionId evt in
  if negb (truthy sessionId) then
    let merchantOrderId := evt_merchantOrderId evt in
    sessionId1 <-
      (if truthy merchantOrderId && db_defined w
       then lookup_sessionId ["merchantOrderId"] merchantOrderId sessionId
       else ret sessionId) ;;
    if negb (truthy sessionId1) then
      let kashierOrderId := evt_kashierOrderId evt in
      if truthy kashierOrderId
      then lookup_sessionId ["response"; "_id"] kashierOrderId sessionId1
      else ret sessionId1
    else ret sessionId1
  else ret sessionId.

(** The webhook after a successful verification call. *)
Definition webhook_reconcile (sessionId verification : JVal) : M Response :=
  vdata <- member verification "data" ;;
  let payment := js_or vdata verification in
  status <- member payment "status" ;;
  let orderId :=
    js_or (js_or (prop payment "merchantOrderId") (prop payment "order"))
          JNull in
  snapshot <- query ["sessionId"] sessionId ;;
  match snapshot with
  | Some (idx, d) =>
      let prev := prop (JObj d) "status" in
      (if negb (strict_eqb prev status)
       then update idx [ ("status", status);
                         ("verifiedAt", serverTimestamp);
                         ("verification", payment) ]
       else ret tt) ;;;
      ret (text 200 "OK")
  | None =>
      add [ ("sessionId", sessionId);
            ("orderId", orderId);
            ("status", status);
            ("verification", payment);
            ("createdAt", serverTimestamp) ] ;;;
      ret (text 200 "OK")
  end.

(** The webhook from the final check of the resolution on. *)
Definition webhook_verify (sessionId : JVal) : M Response :=
  if negb (truthy sessionId) then ret (text 400 "missing sessionId")
  else
    verification <-
      try_catch (v <- fetchKashierSession sessionId ;; ret (Some v))
                (fun _ => ret None) ;;
    match verification with
    | None => ret (text 500 "verification failed")
    | Some v => webhook_reconcile sessionId v
    end.

(** POST /api/payment/webhook *)
Definition webhook_handler (req_body : JVal) : M Response :=
  try_catch
    (let evt := js_or req_body (JObj []) in
     sessionId <- webhook_resolve evt ;;
     webhook_verify sessionId)
    (fun err => ret (json 500 [("error", JStr err)])).

(** The lookup that opens both the status and the fulfillment handler:
    by [merchantOrderId] when given, then by [sessionId] when given and
    nothing was found; the first document of the snapshot, if any. *)
Definition find_payment (merchantOrderId sessionId : JVal)
  : M (option (nat * Obj)) :=
  snap <-
    (if truthy merchantOrderId
     then query ["merchantOrderId"] (JStr (js_String merchantOrderId))
     else ret None) ;;
  match snap with
  | None =>
      if truthy sessionId
      then query ["sessionId"] (JStr (js_String sessionId))
      else ret None
  | Some _ => ret snap
  end.

(** [(v).toUpperCase()]: a method of strings only. *)
Definition call_toUpperCase (v : JVal) : M string :=
  match v with
  | JStr s => ret (toUpperCase s)
  | _ => throw "TypeError: toUpperCase is not a function"
  end.

(** The status handler on a located document. *)
Definition status_found (idx : nat) (d : Obj) (sessionId : JVal)
  : M Response :=
  let data := JObj d in
  up <- call_toUpperCase (js_or (prop data "status") (JStr "")) ;;
  if includes successStates (JStr up)
  then ret (json 200 [ ("status", prop data "status");
                       ("verified", JBool true);
                       ("payment", data) ])
  else
    let sid := js_or (prop data "sessionId") sessionId in
    if truthy sid then
      try_catch
        (verification <- fetchKashierSession sid ;;
         vdata <- member verification "data" ;;
         let payment := js_or vdata verification in
         status <- member payment "status" ;;
         update idx [ ("status", status);
                      ("verification", payment);
                      ("verifiedAt", serverTimestamp) ] ;;;
         ret (json 200 [ ("status", status);
                         ("verified", JBool (includes successStates status));
                         ("payment", payment) ]))
        (fun _ => ret (json 500 [("error", JStr "verification failed")]))
    else
      ret (json 200 [ ("status", js_or (prop data "status") JNull);
                      ("verified", JBool false);
                      ("payment", data) ]).

(** The status handler when no document was found but a [sessionId] was
    given: verify and create. *)
Definition status_create (sessionId : JVal) : M Response :=
  try_catch
    (verification <- fetchKashierSession (JStr (js_String sessionId)) ;;
     vdata <- member verification "data" ;;
     let payment := js_or vdata verification in
     status <- member payment "status" ;;
     add [ ("sessionId", sessionId);
           ("merchantOrderId",
             js_or (js_or (prop payment "merchantOrderId")
                          (prop payment "order")) JNull);
           ("status", status);
           ("verification", payment);
           ("createdAt", serverTimestamp) ] ;;;
     ret (json 200 [ ("status", status);
                     ("verified", JBool (includes successStates status));
                     ("payment", payment) ]))
    (fun _ => ret (json 500 [("error", JStr "verification failed")])).

(** GET /api/payment/status?merchantOrderId=... or ?sessionId=... *)
Definition status_handler (req_query : JVal) : M Response :=
  try_catch
    (let q := js_or req_query (JObj []) in
     let merchantOrderId := prop q "merchantOrderId" in
     let sessionId := prop q "sessionId" in
     if negb (truthy merchantOrderId) && negb (truthy sessionId)
     then ret (json 400 [("error", JStr "missing merchantOrderId or sessionId")])
     else
       docSnap <- find_payment merchantOrderId sessionId ;;
       match docSnap with
       | Some (idx, d) => status_found idx d sessionId
       | None =>
           if truthy sessionId then status_create sessionId
           else ret (json 404 [("error", JStr "not found")])
       end)
    (fun err => ret (json 500 [("error", JStr err)])).

(** The Apps Script payload of a receipt. *)
Definition receipt_payload (data user email : JVal) : JVal :=
  let base :=
    [ ("name", js_or (prop user "name") (JStr ""));
      ("email", email);
      ("phone", js_or (prop user "phone") (JStr ""));
      ("age", js_or (js_or (prop user "age") (prop data "age")) JNull);
      ("program_id", js_or (prop data "order") (JStr ""));
      ("program_title",
        js_or (prop (prop data "metaData") "packageId") (JStr ""));
      ("program_name",
        js_or (prop (prop data "metaData") "packageId") (JStr ""));
      ("group_link",
        js_or (prop (prop data "metaData") "group_link") (JStr "")) ] in
  JObj (if truthy (APPSCRIPT_TOKEN w)
        then obj_set "token" (APPSCRIPT_TOKEN w) base
        else base).

(** The fulfillment of a located document that has no receipt yet. *)
Definition fulfill_send (idx : nat) (data sessionId : JVal) : M Response :=
  let sid := js_or (prop data "sessionId") sessionId in
  verification <-
    try_catch (v <- fetchKashierSession sid ;; ret (Some v))
              (fun _ => ret None) ;;
  match verification with
  | None => ret (json 500 [("error", JStr "verification failed")])
  | Some v =>
      vdata <- member v "data" ;;
      let payment := js_or vdata v in
      status <- member payment "status" ;;
      let verified_fields :=
        [ ("status", status);
          ("verification", payment);
          ("verifiedAt", serverTimestamp) ] in
      if negb (includes successStates status) then
        update idx verified_fields ;;;
        ret (json 400 [ ("error", JStr "payment not successful");
                        ("status", status) ])
      else
        let user := js_or (prop data "user") (JObj []) in
        let email :=
          js_or (js_or (js_and user (prop user "email"))
                       (prop (prop (prop data "response") "customer") "email"))
                JNull in
        if negb (truthy email) then
          update idx verified_fields ;;;
          ret (json 200 [ ("ok", JBool true);
                          ("message", JStr "no email to send");
                          ("status", status) ])
        else
          let appsPayload := receipt_payload data user email in
          try_catch
            (resp <- fetch_with (EvAppsScript (APPSCRIPT_URL w) appsPayload)
                                (appscript_post w (APPSCRIPT_URL w) appsPayload) ;;
             let txt := http_text resp in
             update idx (verified_fields ++
                         [ ("receiptSent", JBool (resp_ok resp));
                           ("receiptResponse", JStr txt) ])%list ;;;
             ret (json 200 [ ("ok", JBool true);
                             ("status", status);
                             ("receiptSent", JBool (resp_ok resp));
                             ("receiptResponse", JStr txt) ]))
            (fun _ =>
               update idx verified_fields ;;;
               ret (json 500 [("error", JStr "apps script send failed")]))
  end.

(** POST /api/payment/fulfill  { merchantOrderId || sessionId } *)
Definition fulfill_handler (req_body : JVal) : M Response :=
  try_catch
    (let b := js_or req_body (JObj []) in
     let merchantOrderId := prop b "merchantOrderId" in
     let sessionId := prop b "sessionId" in
     if negb (truthy merchantOrderId) && negb (truthy sessionId)
     then ret (json 400 [("error", JStr "missing merchantOrderId or sessionId")])
     else
       snap <- find_payment merchantOrderId sessionId ;;
       match snap with
       | None => ret (json 404 [("error", JStr "payment record not found")])
       | Some (idx, d) =>
           let data := JObj d in
           if truthy (prop data "receiptSent")
           then ret (json 200 [ ("ok", JBool true);
                                ("message", JStr "receipt already sent");
                                ("status", prop data "status") ])
           else fulfill_send idx data sessionId
       end)
    (fun err => ret (json 500 [("error", JStr err)])).

End Handlers.

(** A handler run on a collection: the response, the collection after the
    request and the trace of outbound calls.  Every handler catches what it
    throws, so the second case is never taken. *)
Definition run (h : M Response) (ds : list Obj)
  : Response * list Obj * list Event :=
  match h (mkSt ds [] 0) with
  | (Ok r, st) => (r, docs st, log st)
  | (Throw e, st) => (json 500 [("error", JStr e)], docs st, log st)
  end.

Definition response_of (r : Response * list Obj * list Event) : Response :=
  fst (fst r).
Definition docs_of (r : Response * list Obj * list Event) : list Obj :=
  snd (fst r).
Definition trace_of (r : Response * list Obj * list Event) : list Event :=
  snd r.


(* ================================================================== *)
(** ** Observations on a run *)
(* ================================================================== *)

(** *** The outside world *)

(** Firestore is reachable and answers every call of the request. *)
Definition firestore_up (w : Env) : Prop :=
  db_defined w = true /\ forall n, fs_fails w n = false.

(** What [fetchKashierSession] yields for a session: the oracle's answer
    seen through the helper itself. *)
Definition verify_outcome (w : Env) (sessionId : JVal) : Res JVal :=
  fst (fetchKashierSession w sessionId (mkSt [] [] 0)).

(** [verification.data || verification] and its [status], for a
    verification that is not [null]. *)
Definition payment_of (verification : JVal) : JVal :=
  js_or (prop verification "data") verification.
Definition status_of (verification : JVal) : JVal :=
  prop (payment_of verification) "status".

(** Values for which [===] is equality of values: everything JSON can
    carry except arrays and objects. *)
Definition json_scalar (v : JVal) : Prop :=
  match v with
  | JUndefined | JNull | JBool _ | JStr _ => True
  | JNum NaN => False
  | JNum _ => True
  | JArr _ | JObj _ | JTime _ => False
  end.

(** A value is JSON data, or [undefined]. *)
Definition json_or_undefined (v : JVal) : Prop :=
  fs_valid v = true \/ v = JUndefined.

(** *** Traces *)

Definition is_query (e : Event) : bool :=
  match e with EvQuery _ _ => true | _ => false end.

(** The status a store write carries. *)
Definition written_status (e : Event) : JVal :=
  match e with
  | EvAdd doc => prop (JObj doc) "status"
  | EvUpdate _ fields => prop (JObj fields) "status"
  | _ => JUndefined
  end.

Definition count_dispatch (evs : list Event) : nat :=
  List.length (filter is_dispatch evs).

(** *** Requests *)

(** The identifiers of a status query and of a fulfillment body. *)
Definition query_merchantOrderId (q : JVal) : JVal :=
  prop (js_or q (JObj [])) "merchantOrderId".
Definition query_sessionId (q : JVal) : JVal :=
  prop (js_or q (JObj [])) "sessionId".
Definition body_merchantOrderId (b : JVal) : JVal :=
  prop (js_or b (JObj [])) "merchantOrderId".
Definition body_sessionId (b : JVal) : JVal :=
  prop (js_or b (JObj [])) "sessionId".

(** The pure reading of [find_payment]. *)
Definition locate (merchantOrderId sessionId : JVal) (ds : list Obj)
  : option (nat * Obj) :=
  match (if truthy merchantOrderId
         then find_doc ["merchantOrderId"] (JStr (js_String merchantOrderId)) ds
         else None) with
  | Some x => Some x
  | None =>
      if truthy sessionId
      then find_doc ["sessionId"] (JStr (js_String sessionId)) ds
      else None
  end.

(** Two notification bodies that differ at most in their self-reported
    status: the same properties at top level except [status] (and [data]),
    and the same properties of [data] except [data.status]. *)
Definition differ_only_in_status (b b' : JVal) : Prop :=
  (forall k, k <> "status" -> k <> "data" -> prop b' k = prop b k) /\
  truthy (prop b' "data") = truthy (prop b "data") /\
  (forall k, k <> "status" ->
             prop (prop b' "data") k = prop (prop b "data") k).

(** *** Documents and answers *)

(** Documents that agree on the fields the lookups filter on. *)
Definition same_keys (d d' : Obj) : Prop :=
  assoc "sessionId" d = assoc "sessionId" d' /\
  assoc "merchantOrderId" d = assoc "merchantOrderId" d' /\
  assoc "response" d = assoc "response" d'.

(** The field paths the lookups filter on. *)
Definition correlation_path (path : list string) : Prop :=
  path = ["sessionId"] \/ path = ["merchantOrderId"] \/
  path = ["response"; "_id"].

(** The fields the webhook writes on a status change. *)
Definition verified_fields (w : Env) (v : JVal) : Obj :=
  [ ("status", status_of v);
    ("verifiedAt", serverTimestamp w);
    ("verification", payment_of v) ].

(** The document the webhook creates when none has the session. *)
Definition webhook_record (w : Env) (sessionId v : JVal) : Obj :=
  [ ("sessionId", sessionId);
    ("orderId",
      js_or (js_or (prop (payment_of v) "merchantOrderId")
                   (prop (payment_of v) "order")) JNull);
    ("status", status_of v);
    ("verification", payment_of v);
    ("createdAt", serverTimestamp w) ].

(** The minimal document of the status handler's verify-and-create. *)
Definition created_record (w : Env) (sessionId v : JVal) : Obj :=
  [ ("sessionId", sessionId);
    ("merchantOrderId",
      js_or (js_or (prop (payment_of v) "merchantOrderId")
                   (prop (payment_of v) "order")) JNull);
    ("status", status_of v);
    ("verification", payment_of v);
    ("createdAt", serverTimestamp w) ].

(** [data.user || {}] and the address a receipt goes to. *)
Definition receipt_user (data : JVal) : JVal :=
  js_or (prop data "user") (JObj []).
Definition receipt_email (data : JVal) : JVal :=
  js_or (js_or (js_and (receipt_user data) (prop (receipt_user data) "email"))
               (prop (prop (prop data "response") "customer") "email"))
        JNull.

(** The fields the fulfillment writes after a verification, and after a
    dispatch that was answered. *)
Definition fulfill_verified_fields (w : Env) (v : JVal) : Obj :=
  [ ("status", status_of v);
    ("verification", payment_of v);
    ("verifiedAt", serverTimestamp w) ].
Definition receipt_fields (w : Env) (v : JVal) (resp : HttpResp) : Obj :=
  (fulfill_verified_fields w v ++
   [ ("receiptSent", JBool (resp_ok resp));
     ("receiptResponse", JStr (http_text resp)) ])%list.

(** The answer of a successful session creation. *)
Definition session_ok_response (data : JVal) : Response :=
  json 200 [ ("success", JBool true);
             ("sessionUrl", prop data "sessionUrl");
             ("raw", data) ].

(** *** The correlation fallback, read off the handler

    What [webhook_resolve] computes when Firestore answers, as a function
    of the notification and the collection: the handler's own three
    extractions, each followed by its lookup; the first match wins. *)

Fixpoint first_match (l : list (option JVal)) : option JVal :=
  match l with
  | [] => None
  | Some s :: _ => Some s
  | None :: l' => first_match l'
  end.

(** The [sessionId] of a found record, when it has one. *)
Definition session_of_found (r : option (nat * Obj)) : option JVal :=
  match r with
  | Some (_, d) =>
      if truthy (prop (JObj d) "sessionId")
      then Some (prop (JObj d) "sessionId") else None
  | None => None
  end.

(** (1) the identifier carried by the body *)
Definition by_direct (evt : JVal) : option JVal :=
  if truthy (direct_sessionId evt) then Some (direct_sessionId evt) else None.

(** (2) the record with the body's [merchantOrderId] *)
Definition by_merchantOrderId (evt : JVal) (ds : list Obj) : option JVal :=
  if truthy (evt_merchantOrderId evt)
  then session_of_found (find_doc ["merchantOrderId"] (evt_merchantOrderId evt) ds)
  else None.

(** (3) the record whose stored provider response has the body's order
    reference as [_id] *)
Definition by_order_reference (evt : JVal) (ds : list Obj) : option JVal :=
  if truthy (evt_kashierOrderId evt)
  then session_of_found (find_doc ["response"; "_id"] (evt_kashierOrderId evt) ds)
  else None.

Definition resolve_spec (evt : JVal) (ds : list Obj) : option JVal :=
  first_match [ by_direct evt;
                by_merchantOrderId evt ds;
                by_order_reference evt ds ].

(** The store queries of a resolution that stops at the first match. *)
Definition resolution_queries (evt : JVal) (ds : list Obj) : list Event :=
  match by_direct evt with
  | Some _ => []
  | None =>
      (if truthy (evt_merchantOrderId evt)
       then [EvQuery ["merchantOrderId"] (evt_merchantOrderId evt)] else []) ++
      match by_merchantOrderId evt ds with
      | Some _ => []
      | None =>
          if truthy (evt_kashierOrderId evt)
          then [EvQuery ["response"; "_id"] (evt_kashierOrderId evt)] else []
      end
  end%list.

(** *** The correlation fallback as the specification words it

    An ordered list of resolution strategies, each from the notification
    body and the collection to an optional session identifier; the first
    match wins.  The strategies read the body by the names of its fields,
    not through the handler's extractions: a field is present when its
    value is truthy. *)












(** *** Properties of handler programs *)

(** The state after a Firestore call was issued. *)
Definition after_call (st : St) (ev : Event) : St :=
  mkSt (docs st) (log st ++ [ev])%list (S (fs_calls st)).

(** The state after an HTTP call was issued. *)
Definition after_fetch (st : St) (ev : Event) : St :=
  mkSt (docs st) (log st ++ [ev])%list (fs_calls st).

(** A run's outcome read off the final result of the handler body. *)
Definition finish (x : Res Response * St) : Response * list Obj * list Event :=
  match x with
  | (Ok r, st) => (r, docs st, log st)
  | (Throw e, st) => (json 500 [("error", JStr e)], docs st, log st)
  end.

(** [m] only issues calls that satisfy [P]. *)
Definition emits {A} (P : Event -> Prop) (m : M A) : Prop :=
  forall st r st',
    m st = (r, st') ->
    exists evs, log st' = (log st ++ evs)%list /\ Forall P evs.

(** [m] leaves the collection as it is. *)
Definition keeps_docs {A} (m : M A) : Prop :=
  forall st r st', m st = (r, st') -> docs st' = docs st.

(** [m] does not look at the trace, nor (when Firestore answers every
    call) at the count of calls: run from any trace and count, it does what it
    does from the empty ones. *)
Definition framed {A} (m : M A) : Prop :=
  forall ds lg n,
    m (mkSt ds lg n) =
    (fst (m (mkSt ds [] 0)),
     mkSt (docs (snd (m (mkSt ds [] 0))))
          (lg ++ log (snd (m (mkSt ds [] 0))))%list
          (n + fs_calls (snd (m (mkSt ds [] 0))))%nat).

(** Every answer of [m] has its status code in [l]. *)
Definition codes_in (l : list nat) (m : M Response) : Prop :=
  forall st r st', m st = (Ok r, st') -> In (code r) l.

(** *** Sample worlds, documents and requests *)

(** A world whose HTTP oracles give fixed answers; Firestore answers every
    call when [db] is set. *)
Definition sample_world (get post apps : option HttpResp) (db : bool) : Env :=
  mkEnv JUndefined (JStr "MID-1") (JStr "https://api.example")
        (JStr "https://script.example/exec") JUndefined
        db (fun _ => false) 0 1700000003000 1700000000000 1700000000001
        (fun _ => get) (fun _ _ => post) (fun _ _ => apps).

(** A verification answer that reports the payment as paid. *)
Definition paid_verification : JVal :=
  JObj [ ("message", JStr "ok");
         ("data", JObj [ ("status", JStr "PAID");
                         ("merchantOrderId", JStr "order-1") ]) ].

(** A world where Firestore answers and nothing else does. *)
Definition store_only_world : Env := sample_world None None None true.

(** A world where the gateway reports every session as paid and the Apps
    Script endpoint accepts every receipt. *)
Definition paid_world : Env :=
  sample_world (Some (mkResp 200 (Some paid_verification) "")) None
               (Some (mkResp 200 None "sent")) true.

(** A stored payment with a customer address, not yet verified. *)
Definition sample_payment : Obj :=
  [ ("sessionId", JStr "s1");
    ("merchantOrderId", JStr "order-1");
    ("status", JStr "CREATED");
    ("user", JObj [("name", JStr "Ada"); ("email", JStr "ada@example.org")]) ].

(** A stored payment that is settled, and one whose receipt went out. *)
Definition paid_payment : Obj :=
  [ ("sessionId", JStr "s2");
    ("merchantOrderId", JStr "order-2");
    ("status", JStr "PAID") ].
Definition receipted_payment : Obj :=
  [ ("sessionId", JStr "s3");
    ("merchantOrderId", JStr "order-3");
    ("status", JStr "PAID");
    ("receiptSent", JBool true) ].

(** The session-creation request of the specification's scenario, and the
    one the validation lets through although its amount is not a number. *)
Definition sample_session_body : JVal :=
  JObj [ ("amount", JNum (Dec 100 0));
         ("currency", JStr "EGP");
         ("merchantRedirect", JStr "https://x/r") ].
Definition nan_amount_body : JVal :=
  JObj [ ("amount", JStr "abc"); ("merchantRedirect", JStr "https://x/r") ].

(** Provider answers to a session creation: one that reports no status,
    one that reports its own. *)
Definition created_session_data : JVal :=
  JObj [ ("_id", JStr "s1");
         ("sessionUrl", JStr "https://pay.example/s1") ].

(** Two notifications for the session s1 that claim different statuses. *)
Definition notification_failed : JVal :=
  JObj [ ("sessionId", JStr "s1"); ("status", JStr "FAILED") ].
Definition notification_paid : JVal :=
  JObj [ ("sessionId", JStr "s1"); ("status", JStr "PAID") ].

Definition sample_fulfill_body : JVal :=
  JObj [ ("merchantOrderId", JStr "order-1") ].

(* ================================================================== *)
(** ** The registration and health endpoints, the direct-only webhook *)
(* ================================================================== *)

(** *** [res.send] of Express 4 *)

(** The binary64 nearest to an integer of magnitude 2^53 or more (ties to
    even). *)
Definition nearest_binary64 (t : Z) : Z :=
  let a := Z.abs t in
  let k := Z.log2 a - 52 in
  let q := a / 2 ^ k in
  let r := a mod 2 ^ k in
  let q' :=
    if 2 * r <? 2 ^ k then q
    else if 2 * r =? 2 ^ k then (if Z.even q then q else q + 1)
    else q + 1 in
  Z.sgn t * (q' * 2 ^ k).

(** [n | 0] (ToInt32), as Node reads a status code before it checks it. *)
Definition to_int32 (n : Num) : Z :=
  match n with
  | NaN | Inf _ => 0
  | Dec m e =>
      let t := if 0 <=? e then m * 10 ^ e else Z.quot m (10 ^ (- e)) in
      let t := if Z.abs t <? 2 ^ 53 then t else nearest_binary64 t in
      let u := t mod 2 ^ 32 in
      if u <? 2 ^ 31 then u else u - 2 ^ 32
  end.

(** The integer a number is, when it is one. *)
Definition integer_of (n : Num) : option Z :=
  match n with
  | Dec m e =>
      if 0 <=? e then Some (m * 10 ^ e)
      else if m mod 10 ^ (- e) =? 0 then Some (m / 10 ^ (- e))
      else None
  | _ => None
  end.

(** The reason phrases Express looks a numeric argument up in (the
    [statuses] package, version 2). *)
Definition status_messages : list (Z * string) :=
  [ (100, "Continue"); (101, "Switching Protocols"); (102, "Processing");
    (103, "Early Hints"); (200, "OK"); (201, "Created"); (202, "Accepted");
    (203, "Non-Authoritative Information"); (204, "No Content");
    (205, "Reset Content"); (206, "Partial Content"); (207, "Multi-Status");
    (208, "Already Reported"); (226, "IM Used"); (300, "Multiple Choices");
    (301, "Moved Permanently"); (302, "Found"); (303, "See Other");
    (304, "Not Modified"); (305, "Use Proxy"); (307, "Temporary Redirect");
    (308, "Permanent Redirect"); (400, "Bad Request"); (401, "Unauthorized");
    (402, "Payment Required"); (403, "Forbidden"); (404, "Not Found");
    (405, "Method Not Allowed"); (406, "Not Acceptable");
    (407, "Proxy Authentication Required"); (408, "Request Timeout");
    (409, "Conflict"); (410, "Gone"); (411, "Length Required");
    (412, "Precondition Failed"); (413, "Payload Too Large");
    (414, "URI Too Long"); (415, "Unsupported Media Type");
    (416, "Range Not Satisfiable"); (417, "Expectation Failed");
    (418, "I'm a Teapot"); (421, "Misdirected Request");
    (422, "Unprocessable Entity"); (423, "Locked");
    (424, "Failed Dependency"); (425, "Too Early"); (426, "Upgrade Required");
    (428, "Precondition Required"); (429, "Too Many Requests");
    (431, "Request Header Fields Too Large");
    (451, "Unavailable For Legal Reasons"); (500, "Internal Server Error");
    (501, "Not Implemented"); (502, "Bad Gateway");
    (503, "Service Unavailable"); (504, "Gateway Timeout");
    (505, "HTTP Version Not Supported"); (506, "Variant Also Negotiates");
    (507, "Insufficient Storage"); (508, "Loop Detected");
    (509, "Bandwidth Limit Exceeded"); (510, "Not Extended");
    (511, "Network Authentication Required") ].

Definition status_message (n : Num) : string :=
  match integer_of n with
  | Some c =>
      match find (fun x => fst x =? c) status_messages with
      | Some (_, m) => m
      | None => ""
      end
  | None => ""
  end.

(** The status a numeric argument of [res.send] ends as, when Node accepts
    it: Node reads it as an int32 and throws a [RangeError] when that is
    outside 100 to 999. *)
Definition numeric_status (n : Num) : option nat :=
  let status := to_int32 n in
  if (status <? 100) || (999 <? status) then None
  else Some (Z.to_nat status).

(** [res.status(c).send(v)].  A string goes out as text; an object, an
    array or a boolean as JSON; [null] and [undefined] as an empty body.  A
    number as the only argument is taken as the status: Express sets
    [statusCode] to it and sends the reason phrase it knows for it (none
    for 204, 205 and 304), and Node checks the status when the head is
    written. *)
Definition sent (c : nat) (v : JVal) : Res Response :=
  match v with
  | JStr s => Ok (text c s)
  | JNum n =>
      match numeric_status n with
      | None =>
          Throw ("RangeError [ERR_HTTP_INVALID_STATUS_CODE]: Invalid status code: "
                 ++ num_to_string n)
      | Some status =>
          Ok (text status
                   (if (status =? 204)%nat || (status =? 205)%nat ||
                       (status =? 304)%nat
                    then "" else status_message n))
      end
  | JNull | JUndefined => Ok (text c "")
  | _ => Ok (mkResponse c (BJson v))
  end.

Definition send (c : nat) (v : JVal) : M Response :=
  fun st => (sent c v, st).

Section Registration.

Variable w : Env.

(** [.add(doc)] with the reference of the new document: its position in
    the collection's order. *)
Definition add_ref (doc : Obj) : M nat :=
  fs_call w (EvAdd doc)
    (fun ds =>
       if fs_valid (JObj doc)
       then (Ok (Nat.min (add_pos w) (List.length ds)),
             list_insert_at (add_pos w) doc ds)
       else (Throw "Error: undefined is not a Firestore value", ds)).

(** The registration as first written to ["workshop_registrations"]. *)
Definition registration_record (b : JVal) : Obj :=
  [ ("workshopId", js_or (prop b "workshopId") JNull);
    ("name", js_or (prop b "name") JNull);
    ("email", js_or (prop b "email") JNull);
    ("phone", js_or (prop b "phone") JNull);
    ("age", js_or (prop b "age") JNull);
    ("governorate", js_or (prop b "governorate") JNull);
    ("createdAt", serverTimestamp w);
    ("email_requested", JBool true);
    ("email_sent", JBool false) ].

(** The registration as forwarded to the Apps Script endpoint. *)
Definition registration_payload (req_body b : JVal) : JVal :=
  let base :=
    [ ("name", js_or (prop b "name") (JStr ""));
      ("email", js_or (prop b "email") (JStr ""));
      ("phone", js_or (prop b "phone") (JStr ""));
      ("age", js_or (prop b "age") (JStr ""));
      ("governorate", js_or (prop b "governorate") (JStr ""));
      ("program_id", js_or (prop b "workshopId") (JStr ""));
      ("program_title",
        js_or (js_and req_body (prop req_body "program_title")) (JStr ""));
      ("program_name",
        js_or (js_and req_body (prop req_body "program_title")) (JStr ""));
      ("group_link",
        js_or (js_and req_body (prop req_body "group_link")) (JStr "")) ] in
  JObj (if truthy (APPSCRIPT_TOKEN w)
        then obj_set "token" (APPSCRIPT_TOKEN w) base
        else base).

(** [if (docRef) await docRef.update(fields)] *)
Definition update_saved (docRef : option nat) (fields : Obj) : M unit :=
  match docRef with
  | Some i => update w i fields
  | None => ret tt
  end.

(** [parsed && parsed.error] for the parsed body of the Apps Script
    answer ([null] when the body is not JSON). *)
Definition reported_error (resp : HttpResp) : JVal :=
  let parsed := match http_json resp with Some v => v | None => JNull end in
  js_and parsed (prop parsed "error").

(** POST /api/register.  In a run of this handler the collection of the
    state is ["workshop_registrations"]. *)
Definition register_handler (req_body : JVal) : M Response :=
  try_catch
    (let b := js_or req_body (JObj []) in
     let name := prop b "name" in
     let email := prop b "email" in
     if negb (truthy email) || negb (truthy name)
     then ret (text 400 "missing required fields")
     else
       docRef <-
         try_catch (i <- add_ref (registration_record b) ;; ret (Some i))
                   (fun _ => ret None) ;;
       if negb (truthy (APPSCRIPT_URL w)) then
         update_saved docRef
           [ ("email_error", JStr "APPSCRIPT_URL not set");
             ("email_requested", JBool false) ] ;;;
         ret (text 500 "server misconfiguration: APPSCRIPT_URL not set")
       else
         let payload := registration_payload req_body b in
         resp <-
           try_catch
             (fetch_with (EvAppsScript (APPSCRIPT_URL w) payload)
                         (appscript_post w (APPSCRIPT_URL w) payload))
             (fun err =>
                update_saved docRef
                  [ ("email_sent", JBool false);
                    ("email_error", JStr err);
                    ("email_requested", JBool false) ] ;;;
                throw err) ;;
         let txt := http_text resp in
         if negb (resp_ok resp) || truthy (reported_error resp) then
           let errMsg :=
             if truthy (reported_error resp)
             then prop (match http_json resp with Some v => v | None => JNull end)
                       "error"
             else JStr txt in
           update_saved docRef
             [ ("email_sent", JBool false);
               ("email_response", JStr txt);
               ("email_requested", JBool false) ] ;;;
           send 502 (js_or errMsg (JStr "apps script error"))
         else
           match docRef with
           | Some i =>
               try_catch
                 (update w i [ ("email_sent", JBool true);
                               ("email_response", JStr txt);
                               ("emailedAt", serverTimestamp w);
                               ("email_requested", JBool false) ])
                 (fun _ => ret tt)
           | None => ret tt
           end ;;;
           ret (json 200 [("success", JBool true); ("data", JStr txt)]))
    (fun err => ret (text 500 err)).

(** GET /health *)
Definition health_handler : Response :=
  json 200 [ ("ok", JBool true);
             ("appsScriptConfigured", JBool (truthy (APPSCRIPT_URL w))) ].

(** POST /api/payment/webhook as the second payment file has it: the
    session is the one the body carries, there is no lookup by order. *)
Definition webhook_handler_direct (req_body : JVal) : M Response :=
  try_catch
    (let evt := js_or req_body (JObj []) in
     let sessionId :=
       js_or (js_or (prop evt "sessionId") (prop evt "_id"))
             (js_and (prop evt "data") (prop (prop evt "data") "sessionId")) in
     webhook_verify w sessionId)
    (fun err => ret (json 500 [("error", JStr err)])).

End Registration.

(** *** Further observations *)

(** This world with [db] never initialised. *)
Definition without_db (w : Env) : Env :=
  mkEnv (KASHIER_MODE w) (KASHIER_MERCHANT_ID w) (SERVER_BASE w)
        (APPSCRIPT_URL w) (APPSCRIPT_TOKEN w) false (fs_fails w) (add_pos w)
        (server_time w) (now_order w) (now_expire w)
        (kashier_get w) (kashier_post w) (appscript_post w).

(** The gateway verifies no session: every call of [fetchKashierSession]
    throws (no answer, an answer that is not JSON, or a status outside
    2xx). *)
Definition verification_fails (w : Env) : Prop :=
  forall s, exists e, verify_outcome w s = Throw e.

(** The parties an outbound call goes to. *)
Inductive Kind : Type :=
| KQuery | KWrite | KVerify | KCreate | KDispatch.

Definition kind (e : Event) : Kind :=
  match e with
  | EvQuery _ _ => KQuery
  | EvAdd _ | EvUpdate _ _ => KWrite
  | EvKashierGet _ => KVerify
  | EvKashierPost _ _ => KCreate
  | EvAppsScript _ _ => KDispatch
  end.

Definition Kind_eqb (a b : Kind) : bool :=
  match a, b with
  | KQuery, KQuery | KWrite, KWrite | KVerify, KVerify
  | KCreate, KCreate | KDispatch, KDispatch => true
  | _, _ => false
  end.

(** Sets of sequences of calls: one call, an optional part, one part after
    another, one part or another. *)
Definition one (k : Kind) : list (list Kind) := [[k]].
Definition opt (l : list (list Kind)) : list (list Kind) := [] :: l.
Definition seq (l1 l2 : list (list Kind)) : list (list Kind) :=
  flat_map (fun x => map (fun y => (x ++ y)%list) l2) l1.
Definition alt (l1 l2 : list (list Kind)) : list (list Kind) :=
  (l1 ++ l2)%list.

(** Every run of [m] issues a sequence of calls in [ok] when it returns,
    in [thrown] when it throws. *)
Definition follows {A} (ok thrown : list (list Kind)) (m : M A) : Prop :=
  forall st r st',
    m st = (r, st') ->
    exists evs,
      log st' = (log st ++ evs)%list /\
      In (map kind evs) (match r with Ok _ => ok | Throw _ => thrown end).

(** [h] answers every request, from every state: it returns a response,
    lets no exception escape, and the calls it made are a sequence of
    [l]. *)
Definition answers_within (l : list (list Kind)) (h : M Response) : Prop :=
  forall st,
    exists resp st' evs,
      h st = (Ok resp, st') /\
      log st' = (log st ++ evs)%list /\
      In (map kind evs) l.

Definition count_kind (k : Kind) (l : list Kind) : nat :=
  List.length (filter (Kind_eqb k) l).

(** In a sequence of calls, every store write comes after a call of kind
    [k]. *)
Fixpoint writes_after (k : Kind) (seen : bool) (l : list Kind) : bool :=
  match l with
  | [] => true
  | x :: l' =>
      (if Kind_eqb x KWrite then seen else true) &&
      writes_after k (seen || Kind_eqb x k) l'
  end.

(** The order of calls of each handler. *)
Definition session_protocol : list (list Kind) :=
  opt (seq (one KCreate) (opt (one KWrite))).
Definition webhook_protocol : list (list Kind) :=
  seq (opt (one KQuery))
      (seq (opt (one KQuery))
           (opt (seq (one KVerify)
                     (opt (seq (one KQuery) (opt (one KWrite))))))).
Definition status_protocol : list (list Kind) :=
  seq (opt (one KQuery))
      (seq (opt (one KQuery))
           (opt (seq (one KVerify) (opt (one KWrite))))).
Definition fulfill_protocol : list (list Kind) :=
  seq (opt (one KQuery))
      (seq (opt (one KQuery))
           (opt (seq (one KVerify)
                     (alt (opt (one KWrite))
                          (seq (one KDispatch)
                               (opt (seq (one KWrite) (opt (one KWrite))))))))).
Definition register_protocol : list (list Kind) :=
  seq (opt (one KWrite))
      (alt (opt (one KWrite))
           (seq (one KDispatch) (opt (one KWrite)))).

(** Every document of [ds] is still there in [ds'], with the fields the
    lookups filter on unchanged; none was removed. *)
Definition preserved (ds ds' : list Obj) : Prop :=
  (List.length ds <= List.length ds')%nat /\
  forall d, In d ds -> exists d', In d' ds' /\ same_keys d d'.

Definition preserving {A} (m : M A) : Prop :=
  forall st r st', m st = (r, st') -> preserved (docs st) (docs st').

(** The position [list_insert_at] puts a new element at. *)
Definition insert_pos {A} (n : nat) (l : list A) : nat :=
  Nat.min n (List.length l).

(** The fields the registration handler writes on its saved document. *)
Definition unconfigured_fields : Obj :=
  [ ("email_error", JStr "APPSCRIPT_URL not set");
    ("email_requested", JBool false) ].
Definition unreachable_fields (err : string) : Obj :=
  [ ("email_sent", JBool false);
    ("email_error", JStr err);
    ("email_requested", JBool false) ].
Definition rejected_fields (resp : HttpResp) : Obj :=
  [ ("email_sent", JBool false);
    ("email_response", JStr (http_text resp));
    ("email_requested", JBool false) ].
Definition emailed_fields (w : Env) (resp : HttpResp) : Obj :=
  [ ("email_sent", JBool true);
    ("email_response", JStr (http_text resp));
    ("emailedAt", serverTimestamp w);
    ("email_requested", JBool false) ].

(** A registration request is valid when it names a person and an
    address. *)
Definition registration_valid (b : JVal) : bool :=
  truthy (prop (js_or b (JObj [])) "email") &&
  truthy (prop (js_or b (JObj [])) "name").

(** A run that left the collection as it was and neither wrote to the
    store nor dispatched anything. *)
Definition without_effect (ds : list Obj)
    (r : Response * list Obj * list Event) : Prop :=
  docs_of r = ds /\
  Forall (fun e => is_store_write e = false /\ is_dispatch e = false)
         (trace_of r).

Fixpoint kinds_eqb (l1 l2 : list Kind) : bool :=
  match l1, l2 with
  | [], [] => true
  | x :: l1', y :: l2' => Kind_eqb x y && kinds_eqb l1' l2'
  | _, _ => false
  end.

(** Every sequence of [l] is one of [l']. *)
Definition covered (l l' : list (list Kind)) : bool :=
  forallb (fun x => existsb (kinds_eqb x) l') l.

(** The kinds of the calls of a run, in order. *)
Definition calls_of (r : Response * list Obj * list Event) : list Kind :=
  map kind (trace_of r).

(** In a trace, nothing is written to the store before a call of kind [k]
    went out. *)
Definition write_follows (k : Kind) (evs : list Event) : Prop :=
  forall pre e post,
    evs = (pre ++ e :: post)%list -> is_store_write e = true ->
    exists e', In e' pre /\ kind e' = k.

(** The bounds of a sequence of calls: gateway calls, dispatches, store
    writes. *)
Definition within (verify create dispatch write : nat) (l : list Kind)
  : bool :=
  Nat.leb (count_kind KVerify l) verify &&
  Nat.leb (count_kind KCreate l) create &&
  Nat.leb (count_kind KDispatch l) dispatch &&
  Nat.leb (count_kind KWrite l) write.

(** What the registration handler sends with 502: the error the Apps
    Script body reports, else the body as text, else a fixed message. *)
Definition rejection_message (resp : HttpResp) : JVal :=
  js_or (if truthy (reported_error resp)
         then prop (match http_json resp with Some v => v | None => JNull end)
                   "error"
         else JStr (http_text resp))
        (JStr "apps script error").

(** The answer to a registration in terms of the request, the
    configuration and the Apps Script answer alone. *)
Definition register_answer (w : Env) (b : JVal) : Response :=
  if negb (registration_valid b) then text 400 "missing required fields"
  else if negb (truthy (APPSCRIPT_URL w))
  then text 500 "server misconfiguration: APPSCRIPT_URL not set"
  else
    match appscript_post w (APPSCRIPT_URL w)
            (registration_payload w b (js_or b (JObj []))) with
    | None => text 500 "FetchError: request failed"
    | Some resp =>
        if negb (resp_ok resp) || truthy (reported_error resp)
        then match sent 502 (rejection_message resp) with
             | Ok r => r
             | Throw err => text 500 err
             end
        else json 200 [("success", JBool true); ("data", JStr (http_text resp))]
    end.

(** The outcome of the forwarding as noted on the saved registration. *)
Definition register_marks (w : Env) (b : JVal) : Obj :=
  if negb (truthy (APPSCRIPT_URL w)) then unconfigured_fields
  else
    match appscript_post w (APPSCRIPT_URL w)
            (registration_payload w b (js_or b (JObj []))) with
    | None => unreachable_fields "FetchError: request failed"
    | Some resp =>
        if negb (resp_ok resp) || truthy (reported_error resp)
        then rejected_fields resp
        else emailed_fields w resp
    end.

(** What [GET /health] reports about the Apps Script configuration. *)
Definition health_flag (w : Env) : JVal :=
  match body (health_handler w) with
  | BJson v => prop v "appsScriptConfigured"
  | BText _ => JUndefined
  end.

(** The Apps Script endpoint is configured and accepted the registration
    of [b]. *)
Definition forwarded (w : Env) (b : JVal) : bool :=
  truthy (APPSCRIPT_URL w) &&
  match appscript_post w (APPSCRIPT_URL w)
          (registration_payload w b (js_or b (JObj []))) with
  | Some resp => negb (negb (resp_ok resp) || truthy (reported_error resp))
  | None => false
  end.

(** The number that the Apps Script answer reports as its error, when
    the registration of [b] is forwarded and rejected with one. *)
Definition numeric_rejection (w : Env) (b : JVal) : option Num :=
  if registration_valid b && truthy (APPSCRIPT_URL w)
  then
    match appscript_post w (APPSCRIPT_URL w)
            (registration_payload w b (js_or b (JObj []))) with
    | Some resp =>
        if negb (resp_ok resp) || truthy (reported_error resp)
        then match rejection_message resp with
             | JNum n => Some n
             | _ => None
             end
        else None
    | None => None
    end
  else None.


(** *** Further sample data *)


Definition sample_registration : JVal :=
  JObj [ ("workshopId", JStr "ws-1");
         ("name", JStr "Ada");
         ("email", JStr "ada@example.org") ].

(** A world with no Apps Script endpoint configured. *)
Definition unconfigured_world : Env :=
  mkEnv JUndefined (JStr "MID-1") (JStr "https://api.example")
        JUndefined JUndefined
        true (fun _ => false) 0 1700000003000 1700000000000 1700000000001
        (fun _ => None) (fun _ _ => None) (fun _ _ => None).

(** A verification answer that reports the payment as failed. *)
Definition failed_verification : JVal :=
  JObj [ ("message", JStr "ok");
         ("data", JObj [ ("status", JStr "FAILED");
                         ("merchantOrderId", JStr "order-1") ]) ].

(** A world where the gateway reports every session as failed. *)
Definition failed_world : Env :=
  sample_world (Some (mkResp 200 (Some failed_verification) "")) None
               (Some (mkResp 200 None "sent")) true.

(** A stored payment without any address to send a receipt to. *)
Definition anonymous_payment : Obj :=
  [ ("sessionId", JStr "s4");
    ("merchantOrderId", JStr "order-4");
    ("status", JStr "CREATED") ].

(** A stored payment settled under a lower-case status, and one stored
    under a numeric order. *)
Definition lowercase_payment : Obj :=
  [ ("sessionId", JStr "s5");
    ("merchantOrderId", JStr "order-5");
    ("status", JStr "paid") ].
Definition numbered_payment : Obj :=
  [ ("sessionId", JStr "s7");
    ("merchantOrderId", JNum (Dec 123 0));
    ("status", JStr "CREATED") ].

Definition creating_world : Env :=
  sample_world (Some (mkResp 200 (Some paid_verification) ""))
               (Some (mkResp 200 (Some created_session_data) "")) None true.

(** A world whose Apps Script endpoint reports an error in a 200 answer. *)
Definition rejecting_world : Env :=
  sample_world None None
    (Some (mkResp 200 (Some (JObj [("error", JStr "quota exceeded")]))
                  "{error: quota exceeded}"))
    true.

(** A stored payment whose status is "paid" written with a dotless i
    (U+0131), and an amount that is "-5" after a no-break space (U+00A0). *)
Definition dotless_paid : string :=
  "pa" ++ string_of_list_ascii (utf8 305) ++ "d".
Definition dotless_payment : Obj :=
  [ ("sessionId", JStr "s7");
    ("merchantOrderId", JStr "order-7");
    ("status", JStr dotless_paid) ].
Definition padded_negative : string :=
  string_of_list_ascii (utf8 160) ++ "-5".

(** Worlds whose Apps Script endpoint reports a number as its error: one
    that is a status code, one that is none. *)
Definition numeric_error_world : Env :=
  sample_world None None
    (Some (mkResp 200 (Some (JObj [("error", JNum (Dec 404 0))]))
                  "{error: 404}"))
    true.
Definition unusable_error_world : Env :=
  sample_world None None
    (Some (mkResp 200 (Some (JObj [("error", JNum (Dec 7 0))]))
                  "{error: 7}"))
    true.

(* ================================================================== *)
(** ** Reasoning about handler programs *)
(* ================================================================== *)

(** *** The JavaScript layer on sample values *)

Example number_of_strings :
  map (fun s => js_Number (JStr s))
      ["100"; " 12.5 "; "-3"; ""; "abc"; "1e3"; "0x10"; ".5"; "5."; "12px";
       "Infinity"; "1e-400"; "1e400"] =
  [Dec 100 0; Dec 125 (-1); Dec (-3) 0; Dec 0 0; NaN; Dec 1 3; Dec 16 0;
   Dec 5 (-1); Dec 5 0; NaN; Inf false; Dec 0 0; Inf false].
Proof. vm_compute. reflexivity. Qed.

Example number_of_values :
  map js_Number
      [JUndefined; JNull; JBool true; JArr []; JArr [JNum (Dec 5 0)];
       JArr [JNum (Dec 1 0); JNum (Dec 2 0)]; JObj []] =
  [NaN; Dec 0 0; Dec 1 0; Dec 0 0; Dec 5 0; NaN; NaN].
Proof. vm_compute. reflexivity. Qed.

Example string_of_values :
  map js_String
      [JNum (Dec 100 0); JNum (Dec 125 (-1)); JNum (Dec 1 21);
       JNum (Dec 15 (-7)); JNum (Dec (-1200) 0); JNum NaN; JNull;
       JArr [JNum (Dec 1 0); JNull; JStr "a"]; JObj [("a", JNull)]] =
  ["100"; "12.5"; "1e+21"; "0.0000015"; "-1200"; "NaN"; "null"; "1,,a";
   "[object Object]"].
Proof. vm_compute. reflexivity. Qed.

Example nan_is_neither :
  num_le0 NaN = false /\ num_gt0 NaN = false /\ truthy (JNum NaN) = false /\
  strict_eqb (JNum NaN) (JNum NaN) = false.
Proof. repeat split. Qed.

Example iso_strings :
  map toISOString [0; 1700000000000; 951782400000; -1] =
  ["1970-01-01T00:00:00.000Z"; "2023-11-14T22:13:20.000Z";
   "2000-02-29T00:00:00.000Z"; "1969-12-31T23:59:59.999Z"].
Proof. vm_compute. reflexivity. Qed.

(** The scenarios of the specification: a created session, a webhook for
    the session "abc" verified as PAID, a status query for an unknown
    order. *)
Example scenario_create_session :
  let w := sample_world None
             (Some (mkResp 200 (Some created_session_data) "")) None true in
  let r := run (session_handler w sample_session_body) [] in
  response_of r = session_ok_response created_session_data /\
  map (fun d => prop (JObj d) "status") (docs_of r) = [JStr "CREATED"].
Proof. split; vm_compute; reflexivity. Qed.

Example scenario_webhook_paid :
  let stored := [("sessionId", JStr "abc"); ("status", JStr "CREATED")] in
  let r := run (webhook_handler paid_world (JObj [("sessionId", JStr "abc")]))
               [stored] in
  response_of r = text 200 "OK" /\
  map (fun d => prop (JObj d) "status") (docs_of r) = [JStr "PAID"].
Proof. split; vm_compute; reflexivity. Qed.

Example scenario_status_unknown :
  let q := JObj [("merchantOrderId", JStr "order-404")] in
  code (response_of (run (status_handler store_only_world q) [sample_payment]))
  = 404%nat.
Proof. vm_compute. reflexivity. Qed.

(** *** Programs *)

Lemma emits_ret {A} P (a : A) : emits P (ret a).
Proof.
  intros st r st' H. inversion H; subst.
  exists []. rewrite app_nil_r. split; [reflexivity|constructor].
Qed.

Lemma emits_throw {A} P e : emits P (@throw A e).
Proof.
  intros st r st' H. inversion H; subst.
  exists []. rewrite app_nil_r. split; [reflexivity|constructor].
Qed.

Lemma emits_bind {A B} P (m : M A) (k : A -> M B) :
  emits P m ->
  (forall a, (exists st st', m st = (Ok a, st')) -> emits P (k a)) ->
  emits P (bind m k).
Proof.
  intros Hm Hk st r st' H. unfold bind in H.
  destruct (m st) as [[a|e] st1] eqn:E.
  - destruct (Hm _ _ _ E) as [e1 [L1 A1]].
    assert (Hex : exists st st', m st = (Ok a, st')) by eauto.
    destruct (Hk a Hex _ _ _ H) as [e2 [L2 A2]].
    exists (e1 ++ e2)%list. split.
    + rewrite L2, L1, app_assoc. reflexivity.
    + apply Forall_app. split; assumption.
  - inversion H; subst. exact (Hm _ _ _ E).
Qed.

Lemma emits_try_catch {A} P (m : M A) (h : string -> M A) :
  emits P m -> (forall e, emits P (h e)) -> emits P (try_catch m h).
Proof.
  intros Hm Hh st r st' H. unfold try_catch in H.
  destruct (m st) as [[a|e] st1] eqn:E.
  - inversion H; subst. exact (Hm _ _ _ E).
  - destruct (Hm _ _ _ E) as [e1 [L1 A1]].
    destruct (Hh e _ _ _ H) as [e2 [L2 A2]].
    exists (e1 ++ e2)%list. split.
    + rewrite L2, L1, app_assoc. reflexivity.
    + apply Forall_app. split; assumption.
Qed.

Lemma emits_emit P ev : P ev -> emits P (emit ev).
Proof.
  intros HP st r st' H. inversion H; subst. simpl.
  exists [ev]. split; [reflexivity|]. constructor; [assumption|constructor].
Qed.

Lemma emits_fs_call {A} w P ev (op : list Obj -> Res A * list Obj) :
  P ev -> emits P (fs_call w ev op).
Proof.
  intros HP st r st' H. unfold fs_call in H.
  destruct (negb (db_defined w)).
  - inversion H; subst. exists []. rewrite app_nil_r.
    split; [reflexivity|constructor].
  - exists [ev]. split; [|constructor; [assumption|constructor]].
    destruct (fs_fails w (fs_calls st)); [|destruct (op (docs st))];
      inversion H; subst; reflexivity.
Qed.

Lemma emits_member P v k : emits P (member v k).
Proof.
  unfold member. destruct (nullish v); [apply emits_throw|apply emits_ret].
Qed.

Lemma emits_weaken {A} (P Q : Event -> Prop) (m : M A) :
  (forall e, P e -> Q e) -> emits P m -> emits Q m.
Proof.
  intros HPQ Hm st r st' H. destruct (Hm _ _ _ H) as [evs [L F]].
  exists evs. split; [assumption|].
  eapply Forall_impl; [|exact F]. exact HPQ.
Qed.

Lemma keeps_ret {A} (a : A) : keeps_docs (ret a).
Proof. intros st r st' H. inversion H; reflexivity. Qed.

Lemma keeps_throw {A} e : keeps_docs (@throw A e).
Proof. intros st r st' H. inversion H; reflexivity. Qed.

Lemma keeps_bind {A B} (m : M A) (k : A -> M B) :
  keeps_docs m -> (forall a, keeps_docs (k a)) -> keeps_docs (bind m k).
Proof.
  intros Hm Hk st r st' H. unfold bind in H.
  destruct (m st) as [[a|e] st1] eqn:E.
  - rewrite (Hk a _ _ _ H). exact (Hm _ _ _ E).
  - inversion H; subst. exact (Hm _ _ _ E).
Qed.

Lemma keeps_try_catch {A} (m : M A) (h : string -> M A) :
  keeps_docs m -> (forall e, keeps_docs (h e)) -> keeps_docs (try_catch m h).
Proof.
  intros Hm Hh st r st' H. unfold try_catch in H.
  destruct (m st) as [[a|e] st1] eqn:E.
  - inversion H; subst. exact (Hm _ _ _ E).
  - rewrite (Hh e _ _ _ H). exact (Hm _ _ _ E).
Qed.

Lemma keeps_emit ev : keeps_docs (emit ev).
Proof. intros st r st' H. inversion H; reflexivity. Qed.

Lemma keeps_member v k : keeps_docs (member v k).
Proof.
  unfold member. destruct (nullish v); [apply keeps_throw|apply keeps_ret].
Qed.

(** What the Firestore calls evaluate to. *)
Lemma query_eq w path v st :
  query w path v st =
  if negb (db_defined w)
  then (Throw "TypeError: Cannot read properties of undefined", st)
  else if fs_fails w (fs_calls st)
  then (Throw "Error: firestore", after_call st (EvQuery path v))
  else if fs_valid v
  then (Ok (find_doc path v (docs st)), after_call st (EvQuery path v))
  else (Throw "Error: invalid query value", after_call st (EvQuery path v)).
Proof.
  unfold query, fs_call, after_call.
  destruct (negb (db_defined w)); [reflexivity|].
  destruct (fs_fails w (fs_calls st)); [reflexivity|].
  destruct (fs_valid v); reflexivity.
Qed.

Lemma update_eq w idx fields st :
  update w idx fields st =
  if negb (db_defined w)
  then (Throw "TypeError: Cannot read properties of undefined", st)
  else if fs_fails w (fs_calls st)
  then (Throw "Error: firestore", after_call st (EvUpdate idx fields))
  else if fs_valid (JObj fields)
  then (Ok tt,
        mkSt (list_update_at idx (fun d => obj_merge d fields) (docs st))
             (log st ++ [EvUpdate idx fields])%list (S (fs_calls st)))
  else (Throw "Error: undefined is not a Firestore value",
        after_call st (EvUpdate idx fields)).
Proof.
  unfold update, fs_call, after_call.
  destruct (negb (db_defined w)); [reflexivity|].
  destruct (fs_fails w (fs_calls st)); [reflexivity|].
  destruct (fs_valid (JObj fields)); reflexivity.
Qed.

Lemma add_eq w doc st :
  add w doc st =
  if negb (db_defined w)
  then (Throw "TypeError: Cannot read properties of undefined", st)
  else if fs_fails w (fs_calls st)
  then (Throw "Error: firestore", after_call st (EvAdd doc))
  else if fs_valid (JObj doc)
  then (Ok tt,
        mkSt (list_insert_at (add_pos w) doc (docs st))
             (log st ++ [EvAdd doc])%list (S (fs_calls st)))
  else (Throw "Error: undefined is not a Firestore value",
        after_call st (EvAdd doc)).
Proof.
  unfold add, fs_call, after_call.
  destruct (negb (db_defined w)); [reflexivity|].
  destruct (fs_fails w (fs_calls st)); [reflexivity|].
  destruct (fs_valid (JObj doc)); reflexivity.
Qed.

Lemma keeps_query w path v : keeps_docs (query w path v).
Proof.
  intros st r st' H. rewrite query_eq in H.
  destruct (negb (db_defined w)); [inversion H; reflexivity|].
  destruct (fs_fails w (fs_calls st)); [inversion H; reflexivity|].
  destruct (fs_valid v); inversion H; reflexivity.
Qed.

Lemma emits_query w P path v :
  P (EvQuery path v) -> emits P (query w path v).
Proof. intros HP. unfold query. apply emits_fs_call. exact HP. Qed.

Lemma emits_update w P idx fields :
  P (EvUpdate idx fields) -> emits P (update w idx fields).
Proof. intros HP. unfold update. apply emits_fs_call. exact HP. Qed.

Lemma emits_add w P doc : P (EvAdd doc) -> emits P (add w doc).
Proof. intros HP. unfold add. apply emits_fs_call. exact HP. Qed.

(** The helper makes one GET and its result does not depend on the
    state. *)
Lemma fetchKashierSession_eq w s st :
  fetchKashierSession w s st =
  (verify_outcome w s,
   after_fetch st (EvKashierGet (kashier_session_url w s))).
Proof.
  unfold verify_outcome, fetchKashierSession, fetch_with, resp_json, bind,
    emit, after_fetch, ret, throw. simpl.
  destruct (kashier_get w (kashier_session_url w s)) as [r|]; [|reflexivity].
  destruct (http_json r); [|reflexivity].
  destruct (resp_ok r); reflexivity.
Qed.

Lemma emits_fetchKashierSession w P s :
  P (EvKashierGet (kashier_session_url w s)) ->
  emits P (fetchKashierSession w s).
Proof.
  intros HP st r st' H. rewrite fetchKashierSession_eq in H.
  inversion H; subst. simpl. exists [EvKashierGet (kashier_session_url w s)].
  split; [reflexivity|]. constructor; [assumption|constructor].
Qed.

Lemma keeps_fetchKashierSession w s : keeps_docs (fetchKashierSession w s).
Proof.
  intros st r st' H. rewrite fetchKashierSession_eq in H.
  inversion H; reflexivity.
Qed.

Lemma bind_eq {A B} (m : M A) (k : A -> M B) st :
  bind m k st =
  match m st with
  | (Ok a, st') => k a st'
  | (Throw e, st') => (Throw e, st')
  end.
Proof. reflexivity. Qed.

Lemma try_catch_eq {A} (m : M A) (h : string -> M A) st :
  try_catch m h st =
  match m st with
  | (Ok a, st') => (Ok a, st')
  | (Throw e, st') => h e st'
  end.
Proof. reflexivity. Qed.

Lemma ret_eq {A} (a : A) st : ret a st = (Ok a, st).
Proof. reflexivity. Qed.

Lemma throw_eq {A} e st : @throw A e st = (Throw e, st).
Proof. reflexivity. Qed.

Lemma emit_eq ev st : emit ev st = (Ok tt, after_fetch st ev).
Proof. reflexivity. Qed.

(** One step of a handler program applied to a state. *)
Ltac step :=
  first [ rewrite bind_eq | rewrite try_catch_eq | rewrite ret_eq
        | rewrite throw_eq | rewrite emit_eq ];
  cbv beta iota.

Lemma member_ok v k st :
  nullish v = false -> member v k st = (Ok (prop v k), st).
Proof. intros H. unfold member. rewrite H. reflexivity. Qed.

Lemma payment_not_nullish v :
  nullish v = false -> nullish (payment_of v) = false.
Proof.
  intros H. unfold payment_of, js_or.
  destruct (truthy (prop v "data")) eqn:E; [|assumption].
  destruct (prop v "data") as [| | | | | | |]; try discriminate; reflexivity.
Qed.

(** *** Traces of a run *)

Lemma run_emits P h ds :
  emits P h -> Forall P (trace_of (run h ds)).
Proof.
  intros Hh. unfold run, trace_of.
  destruct (h (mkSt ds [] 0)) as [[r|e] st] eqn:E;
    destruct (Hh _ _ _ E) as [evs [L F]]; simpl in *; rewrite L; exact F.
Qed.

Lemma run_keeps h ds : keeps_docs h -> docs_of (run h ds) = ds.
Proof.
  intros Hh. unfold run, docs_of.
  destruct (h (mkSt ds [] 0)) as [[r|e] st] eqn:E;
    simpl; exact (Hh _ _ _ E).
Qed.

(** *** Objects and the collection under an update *)

Lemma assoc_obj_set k k' v o :
  assoc k (obj_set k' v o) = if String.eqb k k' then Some v else assoc k o.
Proof.
  induction o as [|[k0 v0] o IH]; simpl.
  - destruct (String.eqb k k'); reflexivity.
  - destruct (String.eqb k' k0) eqn:E0; simpl.
    + apply String.eqb_eq in E0. subst k0.
      destruct (String.eqb k k'); reflexivity.
    + destruct (String.eqb k k0) eqn:E1.
      * apply String.eqb_eq in E1. subst k0.
        rewrite String.eqb_sym, E0. reflexivity.
      * exact IH.
Qed.

Lemma assoc_obj_merge_other k d fields :
  assoc k fields = None -> assoc k (obj_merge d fields) = assoc k d.
Proof.
  unfold obj_merge. revert d.
  induction fields as [|[k0 v0] fields IH]; simpl; intros d H; [reflexivity|].
  destruct (String.eqb k k0) eqn:E; [discriminate|].
  rewrite (IH _ H), assoc_obj_set, E. reflexivity.
Qed.

Lemma prop_obj_merge_other k d fields :
  assoc k fields = None ->
  prop (JObj (obj_merge d fields)) k = prop (JObj d) k.
Proof.
  intros H. unfold prop. rewrite (assoc_obj_merge_other k d fields H).
  reflexivity.
Qed.

Lemma doc_matches_same_keys path v d d' :
  correlation_path path -> same_keys d d' ->
  doc_matches path v d = doc_matches path v d'.
Proof.
  intros [Hp|[Hp|Hp]] [H1 [H2 H3]]; subst path; unfold doc_matches; simpl.
  - rewrite H1. reflexivity.
  - rewrite H2. reflexivity.
  - rewrite H3. reflexivity.
Qed.

Lemma find_from_update i p k f l :
  (forall d, p (f d) = p d) ->
  find_from i p (list_update_at k f l) =
  match find_from i p l with
  | Some (j, d) => Some (j, if Nat.eqb j (i + k) then f d else d)
  | None => None
  end.
Proof.
  intros Hp. revert i k.
  induction l as [|d l IH]; intros i k; [destruct k; reflexivity|].
  destruct k as [|k]; simpl.
  - rewrite Hp. destruct (p d).
    + rewrite Nat.add_0_r, Nat.eqb_refl. reflexivity.
    + assert (Hlater : forall m l0, match find_from (S (i + m)) p l0 with
                              | Some (j, d0) =>
                                  Nat.eqb j i = false
                              | None => True
                              end).
      { intros m l0. revert m. induction l0 as [|d0 l0 IHl]; intros m; simpl.
        - exact I.
        - destruct (p d0).
          + apply Nat.eqb_neq. lia.
          + specialize (IHl (S m)). rewrite Nat.add_succ_r in IHl.
            exact IHl. }
      specialize (Hlater O l). rewrite Nat.add_0_r in *.
      destruct (find_from (S i) p l) as [[j d0]|]; [|reflexivity].
      rewrite Hlater. reflexivity.
  - destruct (p d) eqn:Epd.
    + replace (Nat.eqb i (i + S k)) with false; [reflexivity|].
      symmetry. apply Nat.eqb_neq. lia.
    + rewrite IH. destruct (find_from (S i) p l) as [[j d0]|]; [|reflexivity].
      replace (S i + k)%nat with (i + S k)%nat by lia. reflexivity.
Qed.

Lemma find_doc_update path v idx f ds :
  (forall d, doc_matches path v (f d) = doc_matches path v d) ->
  find_doc path v (list_update_at idx f ds) =
  match find_doc path v ds with
  | Some (j, d) => Some (j, if Nat.eqb j idx then f d else d)
  | None => None
  end.
Proof.
  intros H. unfold find_doc. rewrite find_from_update by exact H.
  reflexivity.
Qed.

(** *** The lookup of the status and fulfillment handlers *)

Lemma keeps_find_payment w moid sid : keeps_docs (find_payment w moid sid).
Proof.
  unfold find_payment. apply keeps_bind.
  - destruct (truthy moid); [apply keeps_query|apply keeps_ret].
  - intros [p|]; [apply keeps_ret|].
    destruct (truthy sid); [apply keeps_query|apply keeps_ret].
Qed.

Lemma emits_find_payment w moid sid :
  emits (fun e => is_query e = true) (find_payment w moid sid).
Proof.
  unfold find_payment. apply emits_bind.
  - destruct (truthy moid); [apply emits_query; reflexivity|apply emits_ret].
  - intros [p|] _; [apply emits_ret|].
    destruct (truthy sid); [apply emits_query; reflexivity|apply emits_ret].
Qed.

(** Whatever the lookup returns is what [locate] reads in the
    collection. *)
Lemma find_payment_ok w moid sid st x st' :
  find_payment w moid sid st = (Ok x, st') -> x = locate moid sid (docs st).
Proof.
  unfold find_payment, locate, bind, ret.
  destruct (truthy moid).
  - rewrite query_eq.
    destruct (negb (db_defined w)) eqn:Edb; [discriminate|].
    destruct (fs_fails w (fs_calls st)); [discriminate|].
    simpl fs_valid. cbv iota.
    destruct (find_doc ["merchantOrderId"] (JStr (js_String moid)) (docs st))
      as [p|]; [intros H; inversion H; reflexivity|].
    destruct (truthy sid); [|intros H; inversion H; reflexivity].
    rewrite query_eq, Edb. simpl fs_calls.
    destruct (fs_fails w (S (fs_calls st))); [discriminate|].
    simpl. intros H; inversion H; reflexivity.
  - destruct (truthy sid); [|intros H; inversion H; reflexivity].
    rewrite query_eq.
    destruct (negb (db_defined w)); [discriminate|].
    destruct (fs_fails w (fs_calls st)); [discriminate|].
    simpl. intros H; inversion H; reflexivity.
Qed.

Lemma find_payment_up w moid sid st :
  firestore_up w ->
  exists st', find_payment w moid sid st = (Ok (locate moid sid (docs st)), st').
Proof.
  intros [Hdb Hfs]. unfold find_payment, locate, bind, ret.
  destruct (truthy moid).
  - rewrite query_eq, Hdb, Hfs. simpl.
    destruct (find_doc ["merchantOrderId"] (JStr (js_String moid)) (docs st))
      as [p|]; [eexists; reflexivity|].
    destruct (truthy sid); [|eexists; reflexivity].
    rewrite query_eq, Hdb, Hfs. simpl. eexists; reflexivity.
  - destruct (truthy sid); [|eexists; reflexivity].
    rewrite query_eq, Hdb, Hfs. simpl. eexists; reflexivity.
Qed.

Lemma find_payment_none w moid sid st :
  truthy moid = false -> truthy sid = false ->
  find_payment w moid sid st = (Ok None, st).
Proof.
  intros Hm Hs. unfold find_payment, bind. rewrite Hm. simpl.
  rewrite Hs. reflexivity.
Qed.

Lemma find_payment_gate w moid sid st p st' :
  find_payment w moid sid st = (Ok (Some p), st') ->
  negb (truthy moid) && negb (truthy sid) = false.
Proof.
  intros H.
  destruct (truthy moid) eqn:Em; [reflexivity|].
  destruct (truthy sid) eqn:Es; [reflexivity|].
  rewrite (find_payment_none w _ _ _ Em Es) in H. discriminate.
Qed.

Lemma toUpperCase_success s :
  In s successStates -> toUpperCase s = s.
Proof.
  simpl. intros [H|[H|[H|[]]]]; subst; reflexivity.
Qed.

Lemma includes_success s :
  In s successStates -> includes successStates (JStr s) = true.
Proof.
  simpl. intros [H|[H|[H|[]]]]; subst; reflexivity.
Qed.

Lemma truthy_success s :
  In s successStates -> truthy (JStr s) = true.
Proof.
  simpl. intros [H|[H|[H|[]]]]; subst; reflexivity.
Qed.

Lemma queries_are_harmless evs :
  Forall (fun e => is_query e = true) evs ->
  Forall (fun e => is_provider_call e = false /\ is_store_write e = false /\
                   is_dispatch e = false) evs.
Proof.
  apply Forall_impl. intros [] H; try discriminate; repeat split.
Qed.

(* ================================================================== *)
(** ** GET /api/payment/status: settled payments *)
(* ================================================================== *)

(** C9: a status query whose lookup locates a document with a stored status
    among PAID, CAPTURED, AUTHORIZED answers 200 with that stored status and
    [verified: true]; it leaves the collection as it was and its trace holds
    lookups only: no call to the gateway and no store write. *)
Theorem status_settled_short_circuit w q ds idx d s st' :
  find_payment w (query_merchantOrderId q) (query_sessionId q)
               (mkSt ds [] 0) = (Ok (Some (idx, d)), st') ->
  prop (JObj d) "status" = JStr s ->
  In s successStates ->
  let r := run (status_handler w q) ds in
  response_of r = json 200 [ ("status", JStr s);
                             ("verified", JBool true);
                             ("payment", JObj d) ] /\
  docs_of r = ds /\
  Forall (fun e => is_provider_call e = false /\ is_store_write e = false /\
                   is_dispatch e = false)
         (trace_of r).
Proof.
  intros Hfind Hst Hin r.
  pose proof (find_payment_gate _ _ _ _ _ _ Hfind) as Hgate.
  pose proof (keeps_find_payment _ _ _ _ _ _ Hfind) as Hd.
  destruct (emits_find_payment _ _ _ _ _ _ Hfind) as [evs [Hl Hq]].
  simpl in Hd, Hl.
  assert (Hrun : r = (json 200 [ ("status", JStr s);
                                 ("verified", JBool true);
                                 ("payment", JObj d) ], ds, evs)).
  { unfold r, run, status_handler, try_catch, bind.
    fold (query_merchantOrderId q). fold (query_sessionId q).
    rewrite Hgate, Hfind. unfold status_found, bind. rewrite Hst.
    unfold js_or. rewrite (truthy_success _ Hin). simpl call_toUpperCase.
    unfold ret at 1. rewrite (toUpperCase_success _ Hin).
    rewrite (includes_success _ Hin). unfold ret.
    rewrite Hd, Hl. reflexivity. }
  rewrite Hrun. unfold response_of, docs_of, trace_of. simpl.
  repeat split. apply queries_are_harmless. exact Hq.
Qed.

(* ================================================================== *)
(** ** POST /api/payment/fulfill: the receipt guard *)
(* ================================================================== *)

Lemma count_dispatch_queries evs :
  Forall (fun e => is_query e = true) evs -> count_dispatch evs = O.
Proof.
  unfold count_dispatch. induction 1 as [|e evs He _ IH]; [reflexivity|].
  simpl. destruct e; try discriminate; exact IH.
Qed.

(** Whatever the world does, fulfilling a request that points at a
    document with a receipt only reads the collection. *)
Lemma fulfill_guard_reads_only w b ds idx d :
  locate (body_merchantOrderId b) (body_sessionId b) ds = Some (idx, d) ->
  truthy (prop (JObj d) "receiptSent") = true ->
  let r := run (fulfill_handler w b) ds in
  docs_of r = ds /\ Forall (fun e => is_query e = true) (trace_of r).
Proof.
  intros Hloc Hsent r. unfold r, run, fulfill_handler, try_catch, bind.
  fold (body_merchantOrderId b). fold (body_sessionId b).
  destruct (negb (truthy (body_merchantOrderId b)) &&
            negb (truthy (body_sessionId b))).
  - simpl. split; [reflexivity|constructor].
  - destruct (find_payment w (body_merchantOrderId b) (body_sessionId b)
                (mkSt ds [] 0)) as [[x|e] st1] eqn:Hf.
    + pose proof (find_payment_ok _ _ _ _ _ _ Hf) as Hx. simpl in Hx.
      rewrite Hloc in Hx. subst x. rewrite Hsent.
      pose proof (keeps_find_payment _ _ _ _ _ _ Hf) as Hd.
      destruct (emits_find_payment _ _ _ _ _ _ Hf) as [evs [Hl Hq]].
      simpl in *. unfold docs_of, trace_of. simpl. rewrite Hd, Hl.
      split; [reflexivity|assumption].
    + pose proof (keeps_find_payment _ _ _ _ _ _ Hf) as Hd.
      destruct (emits_find_payment _ _ _ _ _ _ Hf) as [evs [Hl Hq]].
      simpl in *. unfold docs_of, trace_of. simpl. rewrite Hd, Hl.
      split; [reflexivity|assumption].
Qed.

(** C5: a fulfillment request whose lookup resolves to a document with a
    truthy [receiptSent] answers 200 "receipt already sent"; the collection
    is unchanged and the trace holds lookups only (no dispatch, no call to
    the gateway, no store write).  A second fulfillment of the same request,
    in any state of the world, again only reads: the two calls together
    dispatch nothing beyond the receipt already sent. *)
Theorem fulfill_receipt_sent_idempotent w w2 b ds idx d st' :
  find_payment w (body_merchantOrderId b) (body_sessionId b)
               (mkSt ds [] 0) = (Ok (Some (idx, d)), st') ->
  truthy (prop (JObj d) "receiptSent") = true ->
  let r1 := run (fulfill_handler w b) ds in
  let r2 := run (fulfill_handler w2 b) (docs_of r1) in
  response_of r1 = json 200 [ ("ok", JBool true);
                              ("message", JStr "receipt already sent");
                              ("status", prop (JObj d) "status") ] /\
  docs_of r1 = ds /\
  Forall (fun e => is_provider_call e = false /\ is_store_write e = false /\
                   is_dispatch e = false) (trace_of r1) /\
  docs_of r2 = ds /\
  Forall (fun e => is_provider_call e = false /\ is_store_write e = false /\
                   is_dispatch e = false) (trace_of r2) /\
  (count_dispatch (trace_of r1) + count_dispatch (trace_of r2) = 0)%nat.
Proof.
  intros Hfind Hsent r1 r2.
  pose proof (find_payment_ok _ _ _ _ _ _ Hfind) as Hloc. simpl in Hloc.
  symmetry in Hloc.
  destruct (fulfill_guard_reads_only w b ds idx d Hloc Hsent) as [Hd1 Hq1].
  fold r1 in Hd1, Hq1.
  assert (Hresp : response_of r1 =
                  json 200 [ ("ok", JBool true);
                             ("message", JStr "receipt already sent");
                             ("status", prop (JObj d) "status") ]).
  { unfold r1, run, fulfill_handler, try_catch, bind.
    fold (body_merchantOrderId b). fold (body_sessionId b).
    rewrite (find_payment_gate _ _ _ _ _ _ Hfind), Hfind, Hsent.
    reflexivity. }
  assert (H2 : docs_of r2 = ds /\
               Forall (fun e => is_query e = true) (trace_of r2)).
  { unfold r2. rewrite Hd1.
    exact (fulfill_guard_reads_only w2 b ds idx d Hloc Hsent). }
  destruct H2 as [Hd2 Hq2].
  repeat split; try assumption.
  - apply queries_are_harmless; assumption.
  - apply queries_are_harmless; assumption.
  - rewrite (count_dispatch_queries _ Hq1), (count_dispatch_queries _ Hq2).
    reflexivity.
Qed.

(* ================================================================== *)
(** ** POST /api/payment/webhook: the stages of a run *)
(* ================================================================== *)

Lemma lookup_sessionId_eq w path key cur st :
  lookup_sessionId w path key cur st =
  if negb (db_defined w) then (Ok cur, st)
  else if fs_fails w (fs_calls st)
  then (Ok cur, after_call st (EvQuery path key))
  else if fs_valid key
  then (Ok (match find_doc path key (docs st) with
            | Some (_, d) => js_or (prop (JObj d) "sessionId") JNull
            | None => cur
            end), after_call st (EvQuery path key))
  else (Ok cur, after_call st (EvQuery path key)).
Proof.
  unfold lookup_sessionId, try_catch, bind. rewrite query_eq.
  destruct (negb (db_defined w)); [reflexivity|].
  destruct (fs_fails w (fs_calls st)); [reflexivity|].
  destruct (fs_valid key); [|reflexivity].
  destruct (find_doc path key (docs st)) as [[i d]|]; reflexivity.
Qed.

Lemma lookup_sessionId_total w path key cur st :
  exists s st', lookup_sessionId w path key cur st = (Ok s, st').
Proof.
  rewrite lookup_sessionId_eq.
  destruct (negb (db_defined w)); [eauto|].
  destruct (fs_fails w (fs_calls st)); [eauto|].
  destruct (fs_valid key); eauto.
Qed.

Lemma keeps_lookup_sessionId w path key cur :
  keeps_docs (lookup_sessionId w path key cur).
Proof.
  unfold lookup_sessionId. apply keeps_try_catch.
  - apply keeps_bind; [apply keeps_query|].
    intros [[i d]|]; apply keeps_ret.
  - intros e. apply keeps_ret.
Qed.

Lemma emits_lookup_sessionId w path key cur :
  emits (fun e => is_query e = true) (lookup_sessionId w path key cur).
Proof.
  unfold lookup_sessionId. apply emits_try_catch.
  - apply emits_bind; [apply emits_query; reflexivity|].
    intros [[i d]|] _; apply emits_ret.
  - intros e. apply emits_ret.
Qed.

Lemma keeps_webhook_resolve w evt : keeps_docs (webhook_resolve w evt).
Proof.
  unfold webhook_resolve.
  destruct (negb (truthy (direct_sessionId evt))); [|apply keeps_ret].
  apply keeps_bind.
  - destruct (truthy (evt_merchantOrderId evt) && db_defined w);
      [apply keeps_lookup_sessionId|apply keeps_ret].
  - intros s1. destruct (negb (truthy s1)); [|apply keeps_ret].
    destruct (truthy (evt_kashierOrderId evt));
      [apply keeps_lookup_sessionId|apply keeps_ret].
Qed.

Lemma emits_webhook_resolve w evt :
  emits (fun e => is_query e = true) (webhook_resolve w evt).
Proof.
  unfold webhook_resolve.
  destruct (negb (truthy (direct_sessionId evt))); [|apply emits_ret].
  apply emits_bind.
  - destruct (truthy (evt_merchantOrderId evt) && db_defined w);
      [apply emits_lookup_sessionId|apply emits_ret].
  - intros s1 _. destruct (negb (truthy s1)); [|apply emits_ret].
    destruct (truthy (evt_kashierOrderId evt));
      [apply emits_lookup_sessionId|apply emits_ret].
Qed.

(** The resolution never throws: failures of its lookups are caught. *)
Lemma webhook_resolve_total w evt st :
  exists s st', webhook_resolve w evt st = (Ok s, st').
Proof.
  unfold webhook_resolve, bind.
  destruct (negb (truthy (direct_sessionId evt))); [|unfold ret; eauto].
  destruct (truthy (evt_merchantOrderId evt) && db_defined w).
  - destruct (lookup_sessionId_total w ["merchantOrderId"]
                (evt_merchantOrderId evt) (direct_sessionId evt) st)
      as [s1 [st1 H1]].
    rewrite H1. destruct (negb (truthy s1)); [|unfold ret; eauto].
    destruct (truthy (evt_kashierOrderId evt)); [|unfold ret; eauto].
    apply lookup_sessionId_total.
  - unfold ret at 1.
    destruct (negb (truthy (direct_sessionId evt))); [|unfold ret; eauto].
    destruct (truthy (evt_kashierOrderId evt)); [|unfold ret; eauto].
    apply lookup_sessionId_total.
Qed.

Lemma webhook_verify_eq w s st :
  truthy s = true ->
  webhook_verify w s st =
  match verify_outcome w s with
  | Throw _ =>
      (Ok (text 500 "verification failed"),
       after_fetch st (EvKashierGet (kashier_session_url w s)))
  | Ok v =>
      webhook_reconcile w s v
        (after_fetch st (EvKashierGet (kashier_session_url w s)))
  end.
Proof.
  intros Hs. unfold webhook_verify. rewrite Hs. cbn [negb].
  unfold try_catch, bind. rewrite fetchKashierSession_eq.
  destruct (verify_outcome w s); reflexivity.
Qed.

(** The shape of every webhook run: a resolution that only reads, then
    either the 400 answer, or one verification call followed, when it
    succeeds, by the reconciliation. *)
Lemma webhook_run_stages w b ds :
  exists s st1,
    webhook_resolve w (js_or b (JObj [])) (mkSt ds [] 0) = (Ok s, st1) /\
    docs st1 = ds /\
    Forall (fun e => is_query e = true) (log st1) /\
    run (webhook_handler w b) ds =
    if negb (truthy s) then (text 400 "missing sessionId", ds, log st1)
    else
      match verify_outcome w s with
      | Throw _ =>
          (text 500 "verification failed", ds,
           (log st1 ++ [EvKashierGet (kashier_session_url w s)])%list)
      | Ok v =>
          finish (webhook_reconcile w s v
                    (after_fetch st1 (EvKashierGet (kashier_session_url w s))))
      end.
Proof.
  destruct (webhook_resolve_total w (js_or b (JObj [])) (mkSt ds [] 0))
    as [s [st1 Hr]].
  exists s, st1.
  pose proof (keeps_webhook_resolve _ _ _ _ _ Hr) as Hd.
  destruct (emits_webhook_resolve _ _ _ _ _ Hr) as [evs [Hl Hq]].
  simpl in Hd, Hl. rewrite Hl.
  split; [exact Hr|]. split; [exact Hd|]. split; [exact Hq|].
  unfold run, webhook_handler, try_catch, bind. rewrite Hr.
  destruct (truthy s) eqn:Hs; cbn [negb].
  - rewrite webhook_verify_eq by exact Hs.
    destruct (verify_outcome w s) as [v|e].
    + unfold finish.
      destruct (webhook_reconcile w s v
                  (after_fetch st1 (EvKashierGet (kashier_session_url w s))))
        as [[r|e] st2]; reflexivity.
    + unfold after_fetch. simpl. rewrite Hd, Hl. reflexivity.
  - unfold webhook_verify. rewrite Hs. simpl. rewrite Hd, Hl. reflexivity.
Qed.

Lemma member_inv v k st a st' :
  member v k st = (Ok a, st') ->
  a = prop v k /\ nullish v = false /\ st' = st.
Proof.
  unfold member. destruct (nullish v); intros H; inversion H; auto.
Qed.

(** Every store write of the reconciliation carries the verified status. *)
Lemma emits_webhook_reconcile w s v :
  emits (fun e => is_store_write e = true -> written_status e = status_of v)
        (webhook_reconcile w s v).
Proof.
  unfold webhook_reconcile.
  apply emits_bind; [apply emits_member|].
  intros vdata [st [st' Hm]]. apply member_inv in Hm.
  destruct Hm as [Hv [Hn _]]. subst vdata.
  apply emits_bind; [apply emits_member|].
  intros status [st0 [st0' Hm]]. apply member_inv in Hm.
  destruct Hm as [Hst _]. fold (payment_of v) in Hst.
  fold (status_of v) in Hst. subst status.
  apply emits_bind; [apply emits_query; discriminate|].
  intros [[idx d]|] _.
  - apply emits_bind; [|intros; apply emits_ret].
    destruct (negb (strict_eqb (prop (JObj d) "status") (status_of v)));
      [|apply emits_ret].
    apply emits_update. intros _. reflexivity.
  - apply emits_bind; [|intros; apply emits_ret].
    apply emits_add. intros _. reflexivity.
Qed.

Lemma finish_trace x :
  trace_of (finish x) = log (snd x).
Proof. destruct x as [[r|e] st]; reflexivity. Qed.

Lemma finish_docs x :
  docs_of (finish x) = docs (snd x).
Proof. destruct x as [[r|e] st]; reflexivity. Qed.

(* ================================================================== *)
(** ** POST /api/payment/webhook: the trust boundary *)
(* ================================================================== *)

Lemma prop_body b k : prop (js_or b (JObj [])) k = prop b k.
Proof.
  unfold js_or. destruct (truthy b) eqn:E; [reflexivity|].
  destruct b; try reflexivity. discriminate.
Qed.

(** Case analysis on the truthiness of a value, pushed through the
    conditionals of the goal. *)
Ltac case_truthy v :=
  let E := fresh "E" in
  destruct (truthy v) eqn:E; cbv iota; rewrite ?E; cbv iota.

Section StatusBlind.

Variables b b' : JVal.
Hypothesis Hdiff : differ_only_in_status b b'.

Lemma direct_sessionId_blind :
  direct_sessionId (js_or b' (JObj [])) = direct_sessionId (js_or b (JObj [])).
Proof.
  destruct Hdiff as [Htop [Htruthy Hdata]].
  unfold direct_sessionId. rewrite !prop_body.
  rewrite (Htop "sessionId"), (Htop "_id") by discriminate.
  rewrite (Hdata "sessionId") by discriminate.
  unfold js_or, js_and. rewrite Htruthy.
  case_truthy (prop b "sessionId"); [reflexivity|].
  case_truthy (prop b "_id"); [reflexivity|].
  case_truthy (prop b "data"); [reflexivity|].
  rewrite Htruthy. case_truthy (prop b "data"); [discriminate|reflexivity].
Qed.

Lemma evt_merchantOrderId_blind :
  evt_merchantOrderId (js_or b' (JObj [])) =
  evt_merchantOrderId (js_or b (JObj [])).
Proof.
  destruct Hdiff as [Htop [Htruthy Hdata]].
  unfold evt_merchantOrderId. rewrite !prop_body.
  rewrite (Htop "merchantOrderId"), (Htop "order") by discriminate.
  rewrite (Hdata "merchantOrderId"), (Hdata "order") by discriminate.
  unfold js_or, js_and. rewrite Htruthy.
  case_truthy (prop b "merchantOrderId"); [reflexivity|].
  case_truthy (prop b "data"); [reflexivity|].
  rewrite Htruthy. case_truthy (prop b "data"); [discriminate|].
  case_truthy (prop b "order"); [reflexivity|].
  rewrite Htruthy. case_truthy (prop b "data"); [discriminate|reflexivity].
Qed.

Lemma evt_kashierOrderId_blind :
  evt_kashierOrderId (js_or b' (JObj [])) =
  evt_kashierOrderId (js_or b (JObj [])).
Proof.
  destruct Hdiff as [Htop [Htruthy Hdata]].
  unfold evt_kashierOrderId. rewrite !prop_body.
  rewrite (Htop "kashierOrderId"), (Htop "orderReference") by discriminate.
  rewrite (Hdata "kashierOrderId") by discriminate.
  unfold js_or, js_and. rewrite Htruthy.
  case_truthy (prop b "kashierOrderId"); [reflexivity|].
  case_truthy (prop b "data"); [reflexivity|].
  rewrite Htruthy. case_truthy (prop b "data"); [discriminate|reflexivity].
Qed.

Lemma webhook_handler_blind w :
  webhook_handler w b' = webhook_handler w b.
Proof.
  unfold webhook_handler, webhook_resolve.
  rewrite direct_sessionId_blind, evt_merchantOrderId_blind,
    evt_kashierOrderId_blind.
  reflexivity.
Qed.

End StatusBlind.

(** C2: in every webhook run, a store write carries as [status] the status of
    the verification that the gateway returned for the resolved session, and
    that verification call is in the trace; the body's own [status] and
    [data.status] are never read: two bodies that differ only there give the
    same response, the same collection and the same trace. *)
Theorem webhook_trust_boundary w b b' ds :
  let r := run (webhook_handler w b) ds in
  (forall e, In e (trace_of r) -> is_store_write e = true ->
     exists s v,
       In (EvKashierGet (kashier_session_url w s)) (trace_of r) /\
       verify_outcome w s = Ok v /\
       written_status e = status_of v) /\
  (differ_only_in_status b b' -> run (webhook_handler w b') ds = r).
Proof.
  intros r. split.
  - destruct (webhook_run_stages w b ds) as [s [st1 [Hr [Hd [Hq Hrun]]]]].
    unfold r. rewrite Hrun. clear Hrun.
    assert (Hnoq : forall e, In e (log st1) -> is_store_write e = true -> False).
    { intros e He Hw. rewrite Forall_forall in Hq. specialize (Hq e He).
      destruct e; discriminate. }
    destruct (negb (truthy s)).
    + intros e He Hw. exfalso. exact (Hnoq e He Hw).
    + destruct (verify_outcome w s) as [v|err] eqn:Hv.
      * intros e He Hw. exists s, v.
        rewrite finish_trace in *.
        destruct (webhook_reconcile w s v
                    (after_fetch st1 (EvKashierGet (kashier_session_url w s))))
          as [res st2] eqn:Hrec.
        destruct (emits_webhook_reconcile w s v _ _ _ Hrec) as [evs [Hl Hp]].
        simpl in Hl, He |- *. rewrite Hl in *.
        split; [|split; [exact Hv|]].
        -- apply in_or_app. left. apply in_or_app. right. left. reflexivity.
        -- apply in_app_or in He. destruct He as [He|He].
           ++ apply in_app_or in He. destruct He as [He|[He|[]]].
              ** exfalso. exact (Hnoq e He Hw).
              ** subst e. discriminate.
           ++ rewrite Forall_forall in Hp. exact (Hp e He Hw).
      * intros e He Hw. exfalso. unfold trace_of in He. simpl in He.
        apply in_app_or in He. destruct He as [He|[He|[]]].
        -- exact (Hnoq e He Hw).
        -- subst e. discriminate.
  - intros Hdiff. unfold r. rewrite (webhook_handler_blind b b' Hdiff w).
    reflexivity.
Qed.

(* ================================================================== *)
(** ** POST /api/payment/webhook: idempotent reconciliation *)
(* ================================================================== *)

Lemma raw_eqb_refl n : raw_eqb n n = true.
Proof.
  destruct n as [|neg|m e]; simpl.
  - reflexivity.
  - destruct neg; reflexivity.
  - rewrite !Z.eqb_refl. reflexivity.
Qed.

(** On scalars [===] holds of a value and itself. *)
Lemma strict_eqb_refl v : json_scalar v -> strict_eqb v v = true.
Proof.
  destruct v as [| |x|n|x|l|o|t]; simpl; intros H; try reflexivity;
    try contradiction.
  - destruct x; reflexivity.
  - destruct n as [|neg|m e]; [contradiction| |]; apply raw_eqb_refl.
  - apply String.eqb_refl.
Qed.

Lemma same_keys_verified w v d :
  same_keys d (obj_merge d (verified_fields w v)).
Proof.
  unfold same_keys.
  rewrite !assoc_obj_merge_other by reflexivity. repeat split.
Qed.

Lemma status_after_verified w v d :
  prop (JObj (obj_merge d (verified_fields w v))) "status" = status_of v.
Proof.
  unfold prop, obj_merge, verified_fields. simpl fold_left.
  rewrite !assoc_obj_set. reflexivity.
Qed.

Lemma webhook_reconcile_null w s v st :
  nullish v = true -> exists e, webhook_reconcile w s v st = (Throw e, st).
Proof.
  intros H. unfold webhook_reconcile, bind, member. rewrite H.
  eexists. reflexivity.
Qed.

(** The reconciliation when its lookup finds a document. *)
Lemma webhook_reconcile_found w s v st idx d :
  nullish v = false ->
  db_defined w = true ->
  fs_fails w (fs_calls st) = false ->
  fs_valid s = true ->
  find_doc ["sessionId"] s (docs st) = Some (idx, d) ->
  webhook_reconcile w s v st =
  if strict_eqb (prop (JObj d) "status") (status_of v)
  then (Ok (text 200 "OK"), after_call st (EvQuery ["sessionId"] s))
  else
    match update w idx (verified_fields w v)
            (after_call st (EvQuery ["sessionId"] s)) with
    | (Ok _, st2) => (Ok (text 200 "OK"), st2)
    | (Throw e, st2) => (Throw e, st2)
    end.
Proof.
  intros Hn Hdb Hfs Hval Hfind.
  unfold webhook_reconcile, bind.
  rewrite (member_ok v "data" st Hn).
  fold (payment_of v).
  rewrite (member_ok (payment_of v) "status" st (payment_not_nullish v Hn)).
  fold (status_of v).
  rewrite query_eq, Hdb, Hfs, Hval, Hfind. cbn [negb].
  fold (verified_fields w v).
  destruct (strict_eqb (prop (JObj d) "status") (status_of v)); cbn [negb].
  - reflexivity.
  - destruct (update w idx (verified_fields w v)
                (after_call st (EvQuery ["sessionId"] s))) as [[u|e] st2];
      reflexivity.
Qed.

(** A reconciliation that answers 200 had a usable verification and a
    lookup that went through. *)
Lemma webhook_reconcile_200 w s v st r st' :
  webhook_reconcile w s v st = (Ok r, st') ->
  nullish v = false /\ db_defined w = true /\
  fs_fails w (fs_calls st) = false /\ fs_valid s = true.
Proof.
  intros H.
  destruct (nullish v) eqn:Hn.
  { destruct (webhook_reconcile_null w s v st Hn) as [e He].
    rewrite He in H. discriminate. }
  unfold webhook_reconcile, bind in H.
  rewrite (member_ok v "data" st Hn) in H.
  fold (payment_of v) in H.
  rewrite (member_ok (payment_of v) "status" st (payment_not_nullish v Hn))
    in H.
  rewrite query_eq in H.
  destruct (db_defined w); [|discriminate].
  destruct (fs_fails w (fs_calls st)); [discriminate|].
  destruct (fs_valid s); [|discriminate].
  repeat split.
Qed.

Lemma lookup_sessionId_update w path key cur ds lg n idx f :
  correlation_path path ->
  (forall d, same_keys d (f d)) ->
  lookup_sessionId w path key cur (mkSt (list_update_at idx f ds) lg n) =
  (fst (lookup_sessionId w path key cur (mkSt ds lg n)),
   mkSt (list_update_at idx f ds)
        (log (snd (lookup_sessionId w path key cur (mkSt ds lg n))))
        (fs_calls (snd (lookup_sessionId w path key cur (mkSt ds lg n))))).
Proof.
  intros Hpath Hf. rewrite !lookup_sessionId_eq. simpl docs. simpl fs_calls.
  destruct (negb (db_defined w)); [reflexivity|].
  destruct (fs_fails w n); [reflexivity|].
  destruct (fs_valid key); [|reflexivity].
  rewrite find_doc_update.
  2:{ intros d. symmetry. apply doc_matches_same_keys; [exact Hpath|apply Hf]. }
  destruct (find_doc path key ds) as [[j d]|]; [|reflexivity].
  simpl. destruct (Nat.eqb j idx); [|reflexivity].
  unfold prop. destruct (Hf d) as [Hs _]. rewrite <- Hs. reflexivity.
Qed.

(** The resolution reads the same session off a collection whose
    documents were updated on fields other than the correlation keys. *)
Lemma webhook_resolve_update w evt ds lg n idx f :
  (forall d, same_keys d (f d)) ->
  webhook_resolve w evt (mkSt (list_update_at idx f ds) lg n) =
  (fst (webhook_resolve w evt (mkSt ds lg n)),
   mkSt (list_update_at idx f ds)
        (log (snd (webhook_resolve w evt (mkSt ds lg n))))
        (fs_calls (snd (webhook_resolve w evt (mkSt ds lg n))))).
Proof.
  intros Hf. unfold webhook_resolve, bind.
  destruct (negb (truthy (direct_sessionId evt))); [|reflexivity].
  destruct (truthy (evt_merchantOrderId evt) && db_defined w).
  - rewrite (lookup_sessionId_update w ["merchantOrderId"]
               (evt_merchantOrderId evt) (direct_sessionId evt) ds lg n idx f)
      by (unfold correlation_path; auto).
    destruct (lookup_sessionId w ["merchantOrderId"] (evt_merchantOrderId evt)
                (direct_sessionId evt) (mkSt ds lg n)) as [[s1|e] [ds1 lg1 n1]]
      eqn:E1; simpl fst; simpl snd; simpl log; simpl fs_calls.
    + pose proof (keeps_lookup_sessionId _ _ _ _ _ _ _ E1) as Hd1.
      simpl in Hd1. subst ds1.
      destruct (negb (truthy s1)); [|reflexivity].
      destruct (truthy (evt_kashierOrderId evt)); [|reflexivity].
      apply lookup_sessionId_update; [unfold correlation_path; auto|exact Hf].
    + reflexivity.
  - unfold ret. cbv beta iota.
    destruct (negb (truthy (direct_sessionId evt))); [|reflexivity].
    destruct (truthy (evt_kashierOrderId evt)); [|reflexivity].
    apply lookup_sessionId_update; [unfold correlation_path; auto|exact Hf].
Qed.

Lemma filter_writes_queries evs :
  Forall (fun e => is_query e = true) evs -> filter is_store_write evs = [].
Proof.
  induction 1 as [|e evs He _ IH]; [reflexivity|].
  simpl. destruct e; try discriminate; exact IH.
Qed.

(** A reconciliation that finds the verified status already stored only
    reads. *)
Lemma webhook_reconcile_same_status w s v st idx d res st' :
  find_doc ["sessionId"] s (docs st) = Some (idx, d) ->
  strict_eqb (prop (JObj d) "status") (status_of v) = true ->
  webhook_reconcile w s v st = (res, st') ->
  docs st' = docs st /\
  exists evs, log st' = (log st ++ evs)%list /\
              Forall (fun e => is_query e = true) evs.
Proof.
  intros Hfind Heq H.
  assert (Hnil : docs st = docs st /\
                 exists evs, log st = (log st ++ evs)%list /\
                             Forall (fun e => is_query e = true) evs).
  { split; [reflexivity|]. exists []. rewrite app_nil_r.
    split; [reflexivity|constructor]. }
  assert (Hone : docs (after_call st (EvQuery ["sessionId"] s)) = docs st /\
                 exists evs,
                   log (after_call st (EvQuery ["sessionId"] s)) =
                   (log st ++ evs)%list /\
                   Forall (fun e => is_query e = true) evs).
  { split; [reflexivity|]. exists [EvQuery ["sessionId"] s].
    split; [reflexivity|]. constructor; [reflexivity|constructor]. }
  destruct (nullish v) eqn:Hn.
  { destruct (webhook_reconcile_null w s v st Hn) as [e He].
    rewrite He in H. inversion H; subst. exact Hnil. }
  unfold webhook_reconcile, bind in H.
  rewrite (member_ok v "data" st Hn) in H.
  fold (payment_of v) in H.
  rewrite (member_ok (payment_of v) "status" st (payment_not_nullish v Hn))
    in H.
  fold (status_of v) in H. rewrite query_eq in H.
  destruct (negb (db_defined w)); [inversion H; subst; exact Hnil|].
  destruct (fs_fails w (fs_calls st)); [inversion H; subst; exact Hone|].
  destruct (fs_valid s); [|inversion H; subst; exact Hone].
  rewrite Hfind, Heq in H. cbn [negb] in H. unfold ret in H.
  inversion H; subst. exact Hone.
Qed.

(** C1: the webhook's reconciliation is idempotent.  Take a notification
    whose resolved session matches a stored document and whose verification
    returns a scalar status.  If that status is the stored one, the run makes
    no store write and leaves the collection (hence [verifiedAt]) as it was.
    If it differs and the run answers 200, the run makes exactly one write,
    the update of that document to the verified status, and processing the
    same notification again with the same verification makes no write and
    changes nothing. *)
Theorem webhook_idempotent w b ds s st1 v idx d :
  webhook_resolve w (js_or b (JObj [])) (mkSt ds [] 0) = (Ok s, st1) ->
  truthy s = true ->
  verify_outcome w s = Ok v ->
  find_doc ["sessionId"] s ds = Some (idx, d) ->
  json_scalar (status_of v) ->
  let r1 := run (webhook_handler w b) ds in
  let r2 := run (webhook_handler w b) (docs_of r1) in
  (prop (JObj d) "status" = status_of v ->
     docs_of r1 = ds /\ filter is_store_write (trace_of r1) = []) /\
  (strict_eqb (prop (JObj d) "status") (status_of v) = false ->
   code (response_of r1) = 200%nat ->
     filter is_store_write (trace_of r1) =
       [EvUpdate idx (verified_fields w v)] /\
     docs_of r1 =
       list_update_at idx (fun x => obj_merge x (verified_fields w v)) ds /\
     filter is_store_write (trace_of r2) = [] /\
     docs_of r2 = docs_of r1).
Proof.
  intros Hr Hs Hv Hfind Hscalar r1 r2.
  set (ev := EvKashierGet (kashier_session_url w s)).
  pose proof (keeps_webhook_resolve _ _ _ _ _ Hr) as Hd1.
  destruct (emits_webhook_resolve _ _ _ _ _ Hr) as [qs [Hl1 Hq1]].
  simpl in Hd1, Hl1.
  assert (Hr1 : r1 = finish (webhook_reconcile w s v (after_fetch st1 ev))).
  { destruct (webhook_run_stages w b ds) as [s' [st1' [Hr' [_ [_ Hrun]]]]].
    rewrite Hr in Hr'. inversion Hr'; subst s' st1'.
    unfold r1. rewrite Hrun, Hs, Hv. reflexivity. }
  split.
  - intros Hsame.
    destruct (webhook_reconcile w s v (after_fetch st1 ev)) as [res st2] eqn:Hrec.
    assert (Heq : strict_eqb (prop (JObj d) "status") (status_of v) = true)
      by (rewrite Hsame; apply strict_eqb_refl; exact Hscalar).
    assert (Hfind' : find_doc ["sessionId"] s (docs (after_fetch st1 ev)) =
                     Some (idx, d)) by (simpl; rewrite Hd1; exact Hfind).
    destruct (webhook_reconcile_same_status w s v _ idx d _ _ Hfind' Heq Hrec)
      as [Hd2 [evs [Hl2 Hq2]]].
    rewrite Hr1, finish_docs, finish_trace. simpl snd.
    simpl in Hd2, Hl2. rewrite Hd2, Hl2, Hl1.
    split; [exact Hd1|].
    rewrite !filter_app, (filter_writes_queries _ Hq1),
      (filter_writes_queries _ Hq2). reflexivity.
  - intros Hne Hcode.
    destruct (webhook_reconcile w s v (after_fetch st1 ev)) as [res st2] eqn:Hrec.
    destruct res as [resp|e]; [|rewrite Hr1 in Hcode; discriminate].
    destruct (webhook_reconcile_200 _ _ _ _ _ _ Hrec) as [Hn [Hdb [Hfs Hval]]].
    simpl in Hfs.
    assert (Hfind' : find_doc ["sessionId"] s (docs (after_fetch st1 ev)) =
                     Some (idx, d)) by (simpl; rewrite Hd1; exact Hfind).
    rewrite (webhook_reconcile_found w s v (after_fetch st1 ev) idx d
               Hn Hdb Hfs Hval Hfind') in Hrec.
    rewrite Hne, update_eq, Hdb in Hrec. cbn [negb] in Hrec.
    simpl fs_calls in Hrec.
    destruct (fs_fails w (S (fs_calls st1))); [discriminate|].
    destruct (fs_valid (JObj (verified_fields w v))); [|discriminate].
    inversion Hrec; subst resp st2. clear Hrec.
    assert (Hdocs1 : docs_of r1 =
              list_update_at idx (fun x => obj_merge x (verified_fields w v)) ds).
    { rewrite Hr1. unfold finish, docs_of. simpl. rewrite Hd1. reflexivity. }
    assert (Htr1 : filter is_store_write (trace_of r1) =
                   [EvUpdate idx (verified_fields w v)]).
    { rewrite Hr1. unfold finish, trace_of. simpl. rewrite Hl1.
      rewrite !filter_app, (filter_writes_queries _ Hq1). reflexivity. }
    split; [exact Htr1|]. split; [exact Hdocs1|].
    (* the second run *)
    set (f := fun x => obj_merge x (verified_fields w v)) in *.
    assert (Hf : forall x, same_keys x (f x))
      by (intros x; apply same_keys_verified).
    unfold r2. rewrite Hdocs1.
    destruct (webhook_run_stages w b (list_update_at idx f ds))
      as [s' [st1' [Hr' [_ [_ Hrun]]]]].
    rewrite (webhook_resolve_update w (js_or b (JObj [])) ds [] 0 idx f Hf),
      Hr in Hr'.
    simpl in Hr'. inversion Hr'; subst s' st1'. clear Hr'.
    rewrite Hrun, Hs, Hv. cbn [negb]. fold ev.
    assert (Hfind2 : find_doc ["sessionId"] s (list_update_at idx f ds) =
                     Some (idx, f d)).
    { rewrite find_doc_update.
      - rewrite Hfind, Nat.eqb_refl. reflexivity.
      - intros x. symmetry. apply doc_matches_same_keys;
          [unfold correlation_path; auto|apply Hf]. }
    rewrite (webhook_reconcile_found w s v
               (after_fetch (mkSt (list_update_at idx f ds) (log st1)
                                  (fs_calls st1)) ev)
               idx (f d) Hn Hdb Hfs Hval Hfind2).
    assert (Hst2 : prop (JObj (f d)) "status" = status_of v)
      by apply status_after_verified.
    rewrite Hst2, (strict_eqb_refl _ Hscalar).
    unfold finish, trace_of, docs_of. simpl. rewrite Hl1.
    rewrite !filter_app, (filter_writes_queries _ Hq1). split; reflexivity.
Qed.

(* ================================================================== *)
(** ** POST /api/payment/webhook: the correlation fallback *)
(* ================================================================== *)

Section Framed.

Variable w : Env.
Hypothesis Hup : firestore_up w.



Lemma framed_emit ev : framed (emit ev).
Proof.
  intros ds lg n. unfold emit. simpl. rewrite Nat.add_0_r. reflexivity.
Qed.








End Framed.

Lemma json_prop v k : json_or_undefined v -> json_or_undefined (prop v k).
Proof.
  intros [Hv|Hv]; [|subst v; right; reflexivity].
  destruct v as [| |x|n|x|l|o|t]; try (right; reflexivity).
  unfold prop. simpl in Hv.
  induction o as [|[k0 v0] o IH]; simpl; [right; reflexivity|].
  apply andb_true_iff in Hv. destruct Hv as [H0 Ho].
  destruct (String.eqb k k0); [left; exact H0|exact (IH Ho)].
Qed.

Lemma json_js_or a b :
  json_or_undefined a -> json_or_undefined b -> json_or_undefined (js_or a b).
Proof. intros Ha Hb. unfold js_or. destruct (truthy a); assumption. Qed.

Lemma json_js_and a b :
  json_or_undefined a -> json_or_undefined b -> json_or_undefined (js_and a b).
Proof. intros Ha Hb. unfold js_and. destruct (truthy a); assumption. Qed.

Lemma json_truthy_valid v :
  json_or_undefined v -> truthy v = true -> fs_valid v = true.
Proof. intros [H|H] Ht; [exact H|subst v; discriminate]. Qed.

Lemma json_null : json_or_undefined JNull.
Proof. left. reflexivity. Qed.

Lemma json_body b :
  json_or_undefined b -> json_or_undefined (js_or b (JObj [])).
Proof.
  intros H. apply json_js_or; [exact H|left; reflexivity].
Qed.

Lemma json_evt_merchantOrderId evt :
  json_or_undefined evt -> json_or_undefined (evt_merchantOrderId evt).
Proof.
  intros H. unfold evt_merchantOrderId.
  repeat first [apply json_js_or | apply json_js_and | apply json_prop
               | apply json_null | exact H].
Qed.

Lemma json_evt_kashierOrderId evt :
  json_or_undefined evt -> json_or_undefined (evt_kashierOrderId evt).
Proof.
  intros H. unfold evt_kashierOrderId.
  repeat first [apply json_js_or | apply json_js_and | apply json_prop
               | apply json_null | exact H].
Qed.

Lemma js_or_null_falsy_eq a :
  truthy (js_or a JNull) = false -> js_or a JNull = JNull.
Proof.
  unfold js_or. destruct (truthy a) eqn:E; [|reflexivity].
  intros H. rewrite H in E. discriminate.
Qed.

Lemma direct_sessionId_falsy evt :
  truthy (direct_sessionId evt) = false -> direct_sessionId evt = JNull.
Proof. unfold direct_sessionId. apply js_or_null_falsy_eq. Qed.

(** With Firestore up, a lookup of the webhook is the specification's
    strategy. *)
Lemma lookup_sessionId_up w path key st :
  firestore_up w -> fs_valid key = true ->
  lookup_sessionId w path key JNull st =
  (Ok (match session_of_found (find_doc path key (docs st)) with
       | Some s => s
       | None => JNull
       end),
   after_call st (EvQuery path key)).
Proof.
  intros [Hdb Hfs] Hval. rewrite lookup_sessionId_eq, Hdb, Hfs, Hval.
  cbn [negb]. unfold session_of_found.
  destruct (find_doc path key (docs st)) as [[i d]|]; [|reflexivity].
  unfold js_or. destruct (truthy (prop (JObj d) "sessionId")); reflexivity.
Qed.

Lemma session_of_found_truthy r s :
  session_of_found r = Some s -> truthy s = true.
Proof.
  unfold session_of_found. destruct r as [[i d]|]; [|discriminate].
  destruct (truthy (prop (JObj d) "sessionId")) eqn:E; [|discriminate].
  intros H. inversion H; subst. exact E.
Qed.

(** The handler's resolution computes the specification's first match and
    issues exactly the queries of the strategies it tried. *)
Lemma webhook_resolve_spec w evt ds :
  firestore_up w -> json_or_undefined evt ->
  webhook_resolve w evt (mkSt ds [] 0) =
  (Ok (match resolve_spec evt ds with Some s => s | None => JNull end),
   mkSt ds (resolution_queries evt ds)
        (List.length (resolution_queries evt ds))).
Proof.
  intros Hup Hjson. pose proof Hup as [Hdb Hfs].
  unfold webhook_resolve, resolve_spec, resolution_queries, by_direct,
    by_merchantOrderId, by_order_reference, first_match.
  destruct (truthy (direct_sessionId evt)) eqn:Ed; cbn [negb]; [reflexivity|].
  rewrite (direct_sessionId_falsy _ Ed). unfold bind. rewrite Hdb, andb_true_r.
  destruct (truthy (evt_merchantOrderId evt)) eqn:Em.
  - rewrite lookup_sessionId_up;
      [|exact Hup|exact (json_truthy_valid _ (json_evt_merchantOrderId _ Hjson) Em)].
    cbn [docs].
    destruct (session_of_found
                (find_doc ["merchantOrderId"] (evt_merchantOrderId evt) ds))
      as [s1|] eqn:E1.
    + rewrite (session_of_found_truthy _ _ E1). reflexivity.
    + cbn [truthy negb].
      destruct (truthy (evt_kashierOrderId evt)) eqn:Ek; [|reflexivity].
      rewrite lookup_sessionId_up;
        [|exact Hup|exact (json_truthy_valid _ (json_evt_kashierOrderId _ Hjson) Ek)].
      cbn [docs after_call].
      destruct (session_of_found
                  (find_doc ["response"; "_id"] (evt_kashierOrderId evt) ds));
        reflexivity.
  - unfold ret at 1. cbn [truthy negb].
    destruct (truthy (evt_kashierOrderId evt)) eqn:Ek; [|reflexivity].
    rewrite lookup_sessionId_up;
      [|exact Hup|exact (json_truthy_valid _ (json_evt_kashierOrderId _ Hjson) Ek)].
    cbn [docs after_call].
    destruct (session_of_found
                (find_doc ["response"; "_id"] (evt_kashierOrderId evt) ds));
      reflexivity.
Qed.

Lemma webhook_run_eq w b ds s st1 :
  webhook_resolve w (js_or b (JObj [])) (mkSt ds [] 0) = (Ok s, st1) ->
  run (webhook_handler w b) ds = finish (webhook_verify w s st1).
Proof.
  intros Hr. unfold run, webhook_handler, try_catch, bind, finish.
  rewrite Hr. destruct (webhook_verify w s st1) as [[r|e] st2]; reflexivity.
Qed.



(** *** The specification's strategies against the handler's *)














(* ================================================================== *)
(** ** POST /api/payment/session *)
(* ================================================================== *)

Lemma num_gt0_not_le0 n : num_gt0 n = true -> num_le0 n = false.
Proof.
  destruct n as [|neg|m e]; simpl.
  - discriminate.
  - destruct neg; [discriminate|reflexivity].
  - intros H. apply Z.ltb_lt in H. apply Z.leb_gt. exact H.
Qed.

(** A value that coerces to a positive number is truthy. *)
Lemma num_gt0_truthy v : num_gt0 (js_Number v) = true -> truthy v = true.
Proof.
  destruct v as [| |x|n|x|l|o|t]; simpl; try discriminate; try reflexivity.
  - destruct x; [reflexivity|discriminate].
  - destruct n as [|neg|m e]; simpl; [discriminate|reflexivity|].
    intros H. apply Z.ltb_lt in H.
    destruct (m =? 0) eqn:E; [apply Z.eqb_eq in E; lia|reflexivity].
  - destruct x as [|c x]; [discriminate|reflexivity].
Qed.

(** What a run of the session handler is, once the request passed the
    validation. *)
Lemma session_run_valid w b ds :
  truthy (prop (js_or b (JObj [])) "amount") = true ->
  truthy (prop (js_or b (JObj [])) "merchantRedirect") = true ->
  num_le0 (js_Number (prop (js_or b (JObj [])) "amount")) = false ->
  let b' := js_or b (JObj []) in
  let payload := session_payload w b' in
  let ev := EvKashierPost (session_endpoint w) payload in
  run (session_handler w b) ds =
  match kashier_post w (session_endpoint w) payload with
  | None =>
      (json 500 [("error", JStr "FetchError: request failed")], ds, [ev])
  | Some resp =>
      match http_json resp with
      | None =>
          (json 500 [("error", JStr "SyntaxError: invalid json response body")],
           ds, [ev])
      | Some data =>
          if negb (resp_ok resp) then (json 502 [("error", data)], ds, [ev])
          else if nullish data
          then (json 500 [("error",
                           JStr ("TypeError: Cannot read properties of "
                                 ++ js_String data))], ds, [ev])
          else
            let rec := session_record w b' payload data (prop data "_id") in
            if negb (db_defined w) then (session_ok_response data, ds, [ev])
            else if fs_fails w 0
            then (session_ok_response data, ds, [ev; EvAdd rec])
            else if fs_valid (JObj rec)
            then (session_ok_response data,
                  list_insert_at (add_pos w) rec ds, [ev; EvAdd rec])
            else (session_ok_response data, ds, [ev; EvAdd rec])
      end
  end.
Proof.
  intros Ha Hm Hn. cbv zeta.
  unfold run, session_handler, fetch_with, try_catch, bind, emit.
  rewrite Ha, Hm, Hn. cbn [negb orb].
  cbv beta. cbn [docs log fs_calls app].
  destruct (kashier_post w (session_endpoint w)
              (session_payload w (js_or b (JObj [])))) as [resp|];
    [|reflexivity].
  unfold ret at 1. unfold resp_json.
  destruct (http_json resp) as [data|]; [|reflexivity].
  unfold ret at 1.
  destruct (negb (resp_ok resp)); [reflexivity|].
  unfold member.
  destruct (nullish data); [reflexivity|].
  unfold ret at 1. rewrite add_eq. cbn [docs log fs_calls app after_call].
  destruct (negb (db_defined w)); [reflexivity|].
  destruct (fs_fails w 0); [reflexivity|].
  destruct (fs_valid _); reflexivity.
Qed.

(** C7, at the failing input: the amount ["abc"] coerces to [NaN], which is
    not greater than 0 and yet not [<= 0]; the handler does not answer 400
    and calls the provider with that amount, whatever the world. *)
Theorem session_nan_amount_reaches_provider w ds :
  let r := run (session_handler w nan_amount_body) ds in
  js_Number (JStr "abc") = NaN /\
  num_gt0 (js_Number (prop nan_amount_body "amount")) = false /\
  code (response_of r) <> 400%nat /\
  exists payload rest,
    trace_of r = EvKashierPost (session_endpoint w) payload :: rest /\
    prop payload "amount" = JStr "abc".
Proof.
  intros r.
  split; [reflexivity|]. split; [reflexivity|].
  unfold r. rewrite session_run_valid; [|reflexivity|reflexivity|reflexivity].
  cbv zeta.
  destruct (kashier_post w (session_endpoint w)
              (session_payload w (js_or nan_amount_body (JObj []))))
    as [resp|].
  2:{ split; [discriminate|]. eexists; eexists; split; reflexivity. }
  destruct (http_json resp) as [data|].
  2:{ split; [discriminate|]. eexists; eexists; split; reflexivity. }
  destruct (negb (resp_ok resp)).
  { split; [discriminate|]. eexists; eexists; split; reflexivity. }
  destruct (nullish data).
  { split; [discriminate|]. eexists; eexists; split; reflexivity. }
  destruct (negb (db_defined w)).
  { split; [discriminate|]. eexists; eexists; split; reflexivity. }
  destruct (fs_fails w 0).
  { split; [discriminate|]. eexists; eexists; split; reflexivity. }
  destruct (fs_valid _);
    (split; [discriminate|]; eexists; eexists; split; reflexivity).
Qed.

(** What the validation does reject: nothing is called and nothing is
    written. *)
Lemma session_validation_rejects w b ds :
  truthy (prop (js_or b (JObj [])) "amount") = false \/
  truthy (prop (js_or b (JObj [])) "merchantRedirect") = false \/
  num_le0 (js_Number (prop (js_or b (JObj [])) "amount")) = true ->
  let r := run (session_handler w b) ds in
  code (response_of r) = 400%nat /\ docs_of r = ds /\ trace_of r = [].
Proof.
  intros H r. unfold r, run, session_handler, try_catch.
  destruct (truthy (prop (js_or b (JObj [])) "amount")) eqn:Ea;
    [|repeat split].
  destruct (truthy (prop (js_or b (JObj [])) "merchantRedirect")) eqn:Em;
    [|repeat split].
  destruct H as [H|[H|H]]; try discriminate.
  rewrite H. repeat split.
Qed.



(* ================================================================== *)
(** ** POST /api/payment/fulfill: the dispatch *)
(* ================================================================== *)

Lemma find_from_nth i p l j d :
  find_from i p l = Some (j, d) ->
  exists k, j = (i + k)%nat /\ nth_error l k = Some d /\ p d = true.
Proof.
  revert i. induction l as [|x l IH]; intros i; simpl; [discriminate|].
  destruct (p x) eqn:E.
  - intros H. inversion H; subst. exists O.
    rewrite Nat.add_0_r. repeat split. exact E.
  - intros H. destruct (IH _ H) as [k [Hj [Hn Hp]]].
    exists (S k). split; [lia|]. split; assumption.
Qed.

(** A found document is the one at the returned position and passes the
    filter. *)
Lemma find_doc_nth path v ds i d :
  find_doc path v ds = Some (i, d) ->
  nth_error ds i = Some d /\ doc_matches path v d = true.
Proof.
  unfold find_doc. intros H. destruct (find_from_nth _ _ _ _ _ H)
    as [k [Hj [Hn Hp]]].
  simpl in Hj. subst k. split; assumption.
Qed.

Lemma nth_error_update {A} (f : A -> A) l i d :
  nth_error l i = Some d ->
  nth_error (list_update_at i f l) i = Some (f d).
Proof.
  revert i. induction l as [|x l IH]; intros [|i]; simpl; try discriminate.
  - intros H. inversion H; reflexivity.
  - apply IH.
Qed.

Lemma locate_nth moid sid ds i d :
  locate moid sid ds = Some (i, d) -> nth_error ds i = Some d.
Proof.
  unfold locate.
  destruct (truthy moid).
  - destruct (find_doc ["merchantOrderId"] (JStr (js_String moid)) ds)
      as [p|] eqn:E.
    + intros H. inversion H; subst. exact (proj1 (find_doc_nth _ _ _ _ _ E)).
    + destruct (truthy sid); [|discriminate].
      intros H. exact (proj1 (find_doc_nth _ _ _ _ _ H)).
  - destruct (truthy sid); [|discriminate].
    intros H. exact (proj1 (find_doc_nth _ _ _ _ _ H)).
Qed.

Lemma json_payment v :
  fs_valid v = true -> nullish v = false -> fs_valid (payment_of v) = true.
Proof.
  intros Hv Hn.
  assert (H : json_or_undefined (payment_of v)).
  { unfold payment_of. apply json_js_or; [apply json_prop|]; left; exact Hv. }
  destruct H as [H|H]; [exact H|].
  pose proof (payment_not_nullish v Hn) as Hp. rewrite H in Hp. discriminate.
Qed.

Lemma includes_is_string l v :
  includes l v = true -> exists s, v = JStr s.
Proof. destruct v; try discriminate. eauto. Qed.

Lemma fulfill_fields_valid w v :
  fs_valid v = true -> nullish v = false ->
  includes successStates (status_of v) = true ->
  fs_valid (JObj (fulfill_verified_fields w v)) = true /\
  forall resp, fs_valid (JObj (receipt_fields w v resp)) = true.
Proof.
  intros Hv Hn Hinc. destruct (includes_is_string _ _ Hinc) as [s Hs].
  pose proof (json_payment v Hv Hn) as Hp.
  unfold receipt_fields, fulfill_verified_fields. rewrite Hs.
  split; [|intros resp]; cbn [fs_valid app]; rewrite Hp; reflexivity.
Qed.

(** The fulfillment of a located document, from the dispatch on. *)
Lemma fulfill_send_dispatch w idx d sessionId v st :
  verify_outcome w (js_or (prop (JObj d) "sessionId") sessionId) = Ok v ->
  nullish v = false ->
  includes successStates (status_of v) = true ->
  truthy (receipt_email (JObj d)) = true ->
  let payload :=
    receipt_payload w (JObj d) (receipt_user (JObj d))
                    (receipt_email (JObj d)) in
  let st2 :=
    after_fetch
      (after_fetch st
         (EvKashierGet
            (kashier_session_url w
               (js_or (prop (JObj d) "sessionId") sessionId))))
      (EvAppsScript (APPSCRIPT_URL w) payload) in
  fulfill_send w idx (JObj d) sessionId st =
  match appscript_post w (APPSCRIPT_URL w) payload with
  | Some resp =>
      match update w idx (receipt_fields w v resp) st2 with
      | (Ok _, st3) =>
          (Ok (json 200 [ ("ok", JBool true);
                          ("status", status_of v);
                          ("receiptSent", JBool (resp_ok resp));
                          ("receiptResponse", JStr (http_text resp)) ]), st3)
      | (Throw _, st3) =>
          match update w idx (fulfill_verified_fields w v) st3 with
          | (Ok _, st4) =>
              (Ok (json 500 [("error", JStr "apps script send failed")]), st4)
          | (Throw e, st4) => (Throw e, st4)
          end
      end
  | None =>
      match update w idx (fulfill_verified_fields w v) st2 with
      | (Ok _, st3) =>
          (Ok (json 500 [("error", JStr "apps script send failed")]), st3)
      | (Throw e, st3) => (Throw e, st3)
      end
  end.
Proof.
  intros Hv Hn Hinc Hemail. cbv zeta.
  unfold fulfill_send.
  do 3 step. rewrite fetchKashierSession_eq, Hv. cbv beta iota.
  do 2 step. rewrite (member_ok v "data" _ Hn). cbv beta iota.
  fold (payment_of v). step.
  rewrite (member_ok (payment_of v) "status" _ (payment_not_nullish v Hn)).
  cbv beta iota. fold (status_of v). rewrite Hinc. cbn [negb].
  fold (receipt_user (JObj d)). fold (receipt_email (JObj d)).
  rewrite Hemail. cbn [negb].
  fold (fulfill_verified_fields w v).
  step. step. unfold fetch_with. do 2 step.
  destruct (appscript_post w (APPSCRIPT_URL w)
              (receipt_payload w (JObj d) (receipt_user (JObj d))
                 (receipt_email (JObj d)))) as [resp|].
  - step. step.
    change (fulfill_verified_fields w v ++
            [("receiptSent", JBool (resp_ok resp));
             ("receiptResponse", JStr (http_text resp))])%list
      with (receipt_fields w v resp).
    destruct (update w idx (receipt_fields w v resp) _) as [[u|e] st3].
    + step. reflexivity.
    + step.
      destruct (update w idx (fulfill_verified_fields w v) st3)
        as [[u|e'] st4]; [step|]; reflexivity.
  - step. step.
    destruct (update w idx (fulfill_verified_fields w v) _) as [[u|e'] st3];
      [step|]; reflexivity.
Qed.

Lemma fulfill_run_send w b ds idx d st1 :
  find_payment w (body_merchantOrderId b) (body_sessionId b)
               (mkSt ds [] 0) = (Ok (Some (idx, d)), st1) ->
  truthy (prop (JObj d) "receiptSent") = false ->
  run (fulfill_handler w b) ds =
  finish (fulfill_send w idx (JObj d) (body_sessionId b) st1).
Proof.
  intros Hfind Hsent. unfold run, fulfill_handler.
  fold (body_merchantOrderId b). fold (body_sessionId b).
  rewrite try_catch_eq, (find_payment_gate _ _ _ _ _ _ Hfind).
  rewrite bind_eq, Hfind. cbv beta iota. rewrite Hsent.
  unfold finish.
  destruct (fulfill_send w idx (JObj d) (body_sessionId b) st1)
    as [[r|e] st2]; reflexivity.
Qed.

(** The run of a fulfillment that reaches the dispatch. *)
Lemma fulfill_dispatch_run w b ds idx d st1 v :
  firestore_up w ->
  find_payment w (body_merchantOrderId b) (body_sessionId b)
               (mkSt ds [] 0) = (Ok (Some (idx, d)), st1) ->
  truthy (prop (JObj d) "receiptSent") = false ->
  verify_outcome w (js_or (prop (JObj d) "sessionId") (body_sessionId b))
    = Ok v ->
  fs_valid v = true ->
  nullish v = false ->
  includes successStates (status_of v) = true ->
  truthy (receipt_email (JObj d)) = true ->
  let r := run (fulfill_handler w b) ds in
  let payload :=
    receipt_payload w (JObj d) (receipt_user (JObj d))
                    (receipt_email (JObj d)) in
  count_dispatch (trace_of r) = 1%nat /\
  In (EvAppsScript (APPSCRIPT_URL w) payload) (trace_of r) /\
  match appscript_post w (APPSCRIPT_URL w) payload with
  | Some resp =>
      response_of r =
        json 200 [ ("ok", JBool true);
                   ("status", status_of v);
                   ("receiptSent", JBool (resp_ok resp));
                   ("receiptResponse", JStr (http_text resp)) ] /\
      docs_of r =
        list_update_at idx (fun x => obj_merge x (receipt_fields w v resp)) ds /\
      nth_error (docs_of r) idx = Some (obj_merge d (receipt_fields w v resp)) /\
      prop (JObj (obj_merge d (receipt_fields w v resp))) "receiptSent" =
        JBool (resp_ok resp) /\
      prop (JObj (obj_merge d (receipt_fields w v resp))) "receiptResponse" =
        JStr (http_text resp)
  | None =>
      response_of r = json 500 [("error", JStr "apps script send failed")] /\
      docs_of r =
        list_update_at idx
          (fun x => obj_merge x (fulfill_verified_fields w v)) ds /\
      nth_error (docs_of r) idx =
        Some (obj_merge d (fulfill_verified_fields w v)) /\
      prop (JObj (obj_merge d (fulfill_verified_fields w v))) "receiptSent" =
        prop (JObj d) "receiptSent"
  end.
Proof.
  intros Hup Hfind Hsent Hv Hval Hn Hinc Hemail r payload.
  pose proof Hup as [Hdb Hfs].
  pose proof (keeps_find_payment _ _ _ _ _ _ Hfind) as Hd1.
  destruct (emits_find_payment _ _ _ _ _ _ Hfind) as [qs [Hl1 Hq1]].
  simpl in Hd1, Hl1.
  pose proof (find_payment_ok _ _ _ _ _ _ Hfind) as Hloc. simpl in Hloc.
  symmetry in Hloc. pose proof (locate_nth _ _ _ _ _ Hloc) as Hnth.
  destruct (fulfill_fields_valid w v Hval Hn Hinc) as [Hvf Hrf].
  assert (Hcount : forall a c, count_dispatch
                     (((qs ++ [EvKashierGet a]) ++ [EvAppsScript (APPSCRIPT_URL w) payload])
                      ++ [EvUpdate idx c]) = 1%nat).
  { intros a c. unfold count_dispatch. rewrite !filter_app. simpl.
    rewrite !length_app. simpl.
    pose proof (count_dispatch_queries _ Hq1) as Hz.
    unfold count_dispatch in Hz. rewrite Hz. reflexivity. }
  unfold r. rewrite (fulfill_run_send w b ds idx d st1 Hfind Hsent).
  rewrite (fulfill_send_dispatch w idx d (body_sessionId b) v st1 Hv Hn Hinc
             Hemail).
  cbv zeta. fold payload.
  destruct (appscript_post w (APPSCRIPT_URL w) payload) as [resp|].
  - rewrite update_eq, Hdb, Hfs, (Hrf resp). cbn [negb].
    unfold finish, response_of, docs_of, trace_of.
    cbn [fst snd docs log after_fetch]. rewrite Hd1, Hl1.
    split; [apply Hcount|]. split.
    { apply in_or_app. left. apply in_or_app. right. left. reflexivity. }
    split; [reflexivity|]. split; [reflexivity|].
    split; [exact (nth_error_update
                     (fun x => obj_merge x (receipt_fields w v resp))
                     ds idx d Hnth)|].
    unfold prop, obj_merge, receipt_fields, fulfill_verified_fields.
    cbn [app fold_left fst snd]. rewrite !assoc_obj_set. split; reflexivity.
  - rewrite update_eq, Hdb, Hfs, Hvf. cbn [negb].
    unfold finish, response_of, docs_of, trace_of.
    cbn [fst snd docs log after_fetch]. rewrite Hd1, Hl1.
    split; [apply Hcount|]. split.
    { apply in_or_app. left. apply in_or_app. right. left. reflexivity. }
    split; [reflexivity|]. split; [reflexivity|].
    split; [exact (nth_error_update
                     (fun x => obj_merge x (fulfill_verified_fields w v))
                     ds idx d Hnth)|].
    unfold prop. rewrite assoc_obj_merge_other by reflexivity. reflexivity.
Qed.

Lemma locate_update moid sid idx f ds :
  (forall x, same_keys x (f x)) ->
  locate moid sid (list_update_at idx f ds) =
  match locate moid sid ds with
  | Some (j, x) => Some (j, if Nat.eqb j idx then f x else x)
  | None => None
  end.
Proof.
  intros Hf. unfold locate.
  assert (Hm : forall path v, correlation_path path ->
                 forall x, doc_matches path v (f x) = doc_matches path v x).
  { intros path v Hp x. symmetry. apply doc_matches_same_keys;
      [exact Hp|apply Hf]. }
  destruct (truthy moid).
  - rewrite find_doc_update by (apply Hm; unfold correlation_path; auto).
    destruct (find_doc ["merchantOrderId"] (JStr (js_String moid)) ds)
      as [[j x]|]; [reflexivity|].
    destruct (truthy sid); [|reflexivity].
    rewrite find_doc_update by (apply Hm; unfold correlation_path; auto).
    destruct (find_doc ["sessionId"] (JStr (js_String sid)) ds) as [[j x]|];
      reflexivity.
  - destruct (truthy sid); [|reflexivity].
    rewrite find_doc_update by (apply Hm; unfold correlation_path; auto).
    destruct (find_doc ["sessionId"] (JStr (js_String sid)) ds) as [[j x]|];
      reflexivity.
Qed.

(** Fulfilling again, in the same world, after the located document was
    updated on fields that are neither correlation keys nor the customer
    data: nothing is dispatched when the update set [receiptSent], and the
    receipt is dispatched again when it did not. *)
Lemma fulfill_retry w b ds idx d v fields :
  firestore_up w ->
  locate (body_merchantOrderId b) (body_sessionId b) ds = Some (idx, d) ->
  verify_outcome w (js_or (prop (JObj d) "sessionId") (body_sessionId b))
    = Ok v ->
  fs_valid v = true ->
  nullish v = false ->
  includes successStates (status_of v) = true ->
  truthy (receipt_email (JObj d)) = true ->
  assoc "sessionId" fields = None ->
  assoc "merchantOrderId" fields = None ->
  assoc "response" fields = None ->
  assoc "user" fields = None ->
  let retry :=
    run (fulfill_handler w b)
        (list_update_at idx (fun x => obj_merge x fields) ds) in
  (truthy (prop (JObj (obj_merge d fields)) "receiptSent") = true ->
     count_dispatch (trace_of retry) = 0%nat) /\
  (truthy (prop (JObj (obj_merge d fields)) "receiptSent") = false ->
     count_dispatch (trace_of retry) = 1%nat).
Proof.
  intros Hup Hloc Hv Hval Hn Hinc Hemail Hs Hm Hr Hu retry.
  set (f := fun x => obj_merge x fields) in *.
  assert (Hf : forall x, same_keys x (f x)).
  { intros x. unfold same_keys, f.
    rewrite !assoc_obj_merge_other by assumption. repeat split. }
  assert (Hloc' : locate (body_merchantOrderId b) (body_sessionId b)
                    (list_update_at idx f ds) = Some (idx, f d)).
  { rewrite (locate_update _ _ idx f ds Hf), Hloc, Nat.eqb_refl.
    reflexivity. }
  split; intros Hsent.
  - destruct (fulfill_guard_reads_only w b (list_update_at idx f ds) idx (f d)
                Hloc' Hsent) as [_ Hq].
    apply count_dispatch_queries. exact Hq.
  - destruct (find_payment_up w (body_merchantOrderId b) (body_sessionId b)
                (mkSt (list_update_at idx f ds) [] 0) Hup) as [st' Hfind].
    simpl in Hfind. rewrite Hloc' in Hfind.
    assert (Hv' : verify_outcome w
                    (js_or (prop (JObj (f d)) "sessionId") (body_sessionId b))
                  = Ok v).
    { unfold f. rewrite prop_obj_merge_other by assumption. exact Hv. }
    assert (Hemail' : truthy (receipt_email (JObj (f d))) = true).
    { unfold receipt_email, receipt_user, f in *.
      rewrite !prop_obj_merge_other by assumption. exact Hemail. }
    exact (proj1 (fulfill_dispatch_run w b (list_update_at idx f ds) idx (f d)
                    st' v Hup Hfind Hsent Hv' Hval Hn Hinc Hemail')).
Qed.

(** C6, as the code has it: on a located document without a receipt, with
    a verified success status and a resolvable address (Firestore answering,
    the verification a JSON value), the receipt is posted once.  A dispatch
    that is answered stores the HTTP outcome as [receiptSent] together with
    the raw answer and returns 200 with [receiptSent] and [receiptResponse]:
    [true] for a success status, after which a retry dispatches nothing, and
    [false] for any other, after which a retry dispatches again.  A dispatch
    that throws returns 500 "apps script send failed" and stores the
    verification only, so [receiptSent] stays as it was and a retry
    dispatches again. *)
Theorem fulfill_dispatch_outcome w b ds idx d st1 v :
  firestore_up w ->
  find_payment w (body_merchantOrderId b) (body_sessionId b)
               (mkSt ds [] 0) = (Ok (Some (idx, d)), st1) ->
  truthy (prop (JObj d) "receiptSent") = false ->
  verify_outcome w (js_or (prop (JObj d) "sessionId") (body_sessionId b))
    = Ok v ->
  fs_valid v = true ->
  nullish v = false ->
  includes successStates (status_of v) = true ->
  truthy (receipt_email (JObj d)) = true ->
  let r := run (fulfill_handler w b) ds in
  let retry := run (fulfill_handler w b) (docs_of r) in
  let payload :=
    receipt_payload w (JObj d) (receipt_user (JObj d))
                    (receipt_email (JObj d)) in
  count_dispatch (trace_of r) = 1%nat /\
  In (EvAppsScript (APPSCRIPT_URL w) payload) (trace_of r) /\
  match appscript_post w (APPSCRIPT_URL w) payload with
  | Some resp =>
      response_of r =
        json 200 [ ("ok", JBool true);
                   ("status", status_of v);
                   ("receiptSent", JBool (resp_ok resp));
                   ("receiptResponse", JStr (http_text resp)) ] /\
      nth_error (docs_of r) idx = Some (obj_merge d (receipt_fields w v resp)) /\
      prop (JObj (obj_merge d (receipt_fields w v resp))) "receiptSent" =
        JBool (resp_ok resp) /\
      prop (JObj (obj_merge d (receipt_fields w v resp))) "receiptResponse" =
        JStr (http_text resp) /\
      (resp_ok resp = true -> count_dispatch (trace_of retry) = 0%nat) /\
      (resp_ok resp = false -> count_dispatch (trace_of retry) = 1%nat)
  | None =>
      response_of r = json 500 [("error", JStr "apps script send failed")] /\
      nth_error (docs_of r) idx =
        Some (obj_merge d (fulfill_verified_fields w v)) /\
      prop (JObj (obj_merge d (fulfill_verified_fields w v))) "receiptSent" =
        prop (JObj d) "receiptSent" /\
      count_dispatch (trace_of retry) = 1%nat
  end.
Proof.
  intros Hup Hfind Hsent Hv Hval Hn Hinc Hemail r retry payload.
  destruct (fulfill_dispatch_run w b ds idx d st1 v Hup Hfind Hsent Hv Hval Hn
              Hinc Hemail) as [Hc [Hin Hm]].
  fold r in Hc, Hin, Hm. fold payload in Hin, Hm.
  pose proof (find_payment_ok _ _ _ _ _ _ Hfind) as Hloc. simpl in Hloc.
  symmetry in Hloc.
  split; [exact Hc|]. split; [exact Hin|].
  destruct (appscript_post w (APPSCRIPT_URL w) payload) as [resp|].
  - destruct Hm as [Hr [Hd [Hnth [Hrs Hrr]]]].
    destruct (fulfill_retry w b ds idx d v (receipt_fields w v resp)
                Hup Hloc Hv Hval Hn Hinc Hemail
                eq_refl eq_refl eq_refl eq_refl) as [Hyes Hno].
    rewrite Hrs in Hyes, Hno.
    split; [exact Hr|]. split; [exact Hnth|]. split; [exact Hrs|].
    split; [exact Hrr|]. unfold retry. rewrite Hd. split; intros H.
    + apply Hyes. exact H.
    + apply Hno. exact H.
  - destruct Hm as [Hr [Hd [Hnth Hrs]]].
    destruct (fulfill_retry w b ds idx d v (fulfill_verified_fields w v)
                Hup Hloc Hv Hval Hn Hinc Hemail
                eq_refl eq_refl eq_refl eq_refl) as [_ Hno].
    rewrite Hrs in Hno.
    split; [exact Hr|]. split; [exact Hnth|]. split; [exact Hrs|].
    unfold retry. rewrite Hd. exact (Hno Hsent).
Qed.

(** C6 as stated fails: the Apps Script endpoint answers the receipt with
    HTTP 500, a dispatch failure; the handler answers 200, not 500, with
    [receiptSent: false], which is also what it stores. *)
Lemma fulfill_dispatch_counterexample :
  let w := sample_world (Some (mkResp 200 (Some paid_verification) ""))
                        None
                        (Some (mkResp 500 None "Internal Server Error"))
                        true in
  let r := run (fulfill_handler w sample_fulfill_body) [sample_payment] in
  count_dispatch (trace_of r) = 1%nat /\
  code (response_of r) = 200%nat /\
  code (response_of r) <> 500%nat /\
  match body (response_of r) with
  | BJson v => prop v "receiptSent" = JBool false
  | BText _ => False
  end /\
  map (fun d => prop (JObj d) "receiptSent") (docs_of r) = [JBool false].
Proof.
  cbv zeta. split; [vm_compute; reflexivity|].
  split; [vm_compute; reflexivity|].
  split; [vm_compute; discriminate|].
  split; vm_compute; reflexivity.
Qed.

(* ================================================================== *)
(** ** GET /api/payment/status: not found, and verify-and-create *)
(* ================================================================== *)

Lemma codes_ret l r : In (code r) l -> codes_in l (ret r).
Proof. intros H st r' st' E. inversion E; subst. exact H. Qed.

Lemma codes_bind {A} l (m : M A) k :
  (forall a, codes_in l (k a)) -> codes_in l (bind m k).
Proof.
  intros Hk st r st' E. rewrite bind_eq in E.
  destruct (m st) as [[a|e] st1]; [exact (Hk a _ _ _ E)|discriminate].
Qed.

Lemma codes_try_catch l m h :
  codes_in l m -> (forall e, codes_in l (h e)) -> codes_in l (try_catch m h).
Proof.
  intros Hm Hh st r st' E. rewrite try_catch_eq in E.
  destruct (m st) as [[a|e] st1] eqn:Em.
  - inversion E; subst. exact (Hm _ _ _ Em).
  - exact (Hh e _ _ _ E).
Qed.



(** The verify-and-create never throws: it answers from its own catch. *)
Lemma status_create_eq w sid st :
  let url := kashier_session_url w (JStr (js_String sid)) in
  status_create w sid st =
  match verify_outcome w (JStr (js_String sid)) with
  | Throw _ =>
      (Ok (json 500 [("error", JStr "verification failed")]),
       after_fetch st (EvKashierGet url))
  | Ok v =>
      if nullish v
      then (Ok (json 500 [("error", JStr "verification failed")]),
            after_fetch st (EvKashierGet url))
      else
        match add w (created_record w sid v)
                (after_fetch st (EvKashierGet url)) with
        | (Ok _, st2) =>
            (Ok (json 200 [ ("status", status_of v);
                            ("verified",
                              JBool (includes successStates (status_of v)));
                            ("payment", payment_of v) ]), st2)
        | (Throw _, st2) =>
            (Ok (json 500 [("error", JStr "verification failed")]), st2)
        end
  end.
Proof.
  cbv zeta. unfold status_create. do 2 step.
  rewrite fetchKashierSession_eq.
  destruct (verify_outcome w (JStr (js_String sid))) as [v|e];
    cbv beta iota; [|step; reflexivity].
  step. unfold member at 1.
  destruct (nullish v) eqn:Hn; [do 2 step; reflexivity|].
  step. fold (payment_of v). step.
  rewrite (member_ok (payment_of v) "status" _ (payment_not_nullish v Hn)).
  cbv beta iota. fold (status_of v). step.
  fold (created_record w sid v).
  destruct (add w (created_record w sid v) _) as [[u|e] st2];
    repeat step; reflexivity.
Qed.


(* ================================================================== *)
(** ** Documents created by the webhook *)
(* ================================================================== *)

(** Every document the reconciliation adds is the webhook's record of the
    session and of the verification. *)
Lemma emits_webhook_reconcile_record w s v :
  emits (fun e => forall doc, e = EvAdd doc -> doc = webhook_record w s v)
        (webhook_reconcile w s v).
Proof.
  unfold webhook_reconcile.
  apply emits_bind; [apply emits_member|].
  intros vdata [st [st' Hm]]. apply member_inv in Hm.
  destruct Hm as [Hv [Hn _]]. subst vdata.
  apply emits_bind; [apply emits_member|].
  intros status [st0 [st0' Hm]]. apply member_inv in Hm.
  destruct Hm as [Hst _]. fold (payment_of v) in Hst.
  fold (status_of v) in Hst. subst status.
  apply emits_bind; [apply emits_query; discriminate|].
  intros [[idx d]|] _.
  - apply emits_bind; [|intros; apply emits_ret].
    destruct (negb (strict_eqb (prop (JObj d) "status") (status_of v)));
      [|apply emits_ret].
    apply emits_update. discriminate.
  - apply emits_bind; [|intros; apply emits_ret].
    apply emits_add. intros doc H. inversion H. reflexivity.
Qed.

Lemma emits_webhook_handler_record w b :
  emits (fun e => forall doc, e = EvAdd doc ->
                  exists s v, doc = webhook_record w s v)
        (webhook_handler w b).
Proof.
  unfold webhook_handler.
  apply emits_try_catch; [|intros; apply emits_ret].
  apply emits_bind.
  - eapply emits_weaken; [|apply emits_webhook_resolve].
    intros e He doc Hdoc. subst e. discriminate.
  - intros s _. unfold webhook_verify.
    destruct (negb (truthy s)); [apply emits_ret|].
    apply emits_bind.
    + apply emits_try_catch; [|intros; apply emits_ret].
      apply emits_bind; [|intros; apply emits_ret].
      apply emits_fetchKashierSession. discriminate.
    + intros [v|] _; [|apply emits_ret].
      eapply emits_weaken; [|apply emits_webhook_reconcile_record].
      intros e He doc Hdoc. exists s, v. exact (He doc Hdoc).
Qed.

Lemma no_merchantOrderId_no_match key doc :
  assoc "merchantOrderId" doc = None ->
  doc_matches ["merchantOrderId"] key doc = false.
Proof. intros H. unfold doc_matches. simpl. rewrite H. reflexivity. Qed.

(** C10: a document the webhook creates stores the merchant order
    identifier under [orderId] and has no [merchantOrderId] field.  A document
    without that field is never the one a filter on [merchantOrderId]
    returns; so when the lookup of the status and fulfillment handlers
    returns it, a sessionId was supplied and the document was matched on its
    [sessionId]. *)
Theorem webhook_record_only_by_session w b ds :
  let r := run (webhook_handler w b) ds in
  (forall doc, In (EvAdd doc) (trace_of r) ->
     exists s v,
       doc = webhook_record w s v /\
       assoc "merchantOrderId" doc = None /\
       assoc "orderId" doc =
         Some (js_or (js_or (prop (payment_of v) "merchantOrderId")
                            (prop (payment_of v) "order")) JNull) /\
       assoc "sessionId" doc = Some s) /\
  (forall doc key ds' i,
     assoc "merchantOrderId" doc = None ->
     find_doc ["merchantOrderId"] key ds' <> Some (i, doc)) /\
  (forall w' moid sid st i doc st',
     assoc "merchantOrderId" doc = None ->
     find_payment w' moid sid st = (Ok (Some (i, doc)), st') ->
     truthy sid = true /\
     find_doc ["sessionId"] (JStr (js_String sid)) (docs st) = Some (i, doc) /\
     doc_matches ["sessionId"] (JStr (js_String sid)) doc = true).
Proof.
  intros r. split; [|split].
  - intros doc Hin.
    pose proof (run_emits _ _ ds (emits_webhook_handler_record w b)) as Hall.
    rewrite Forall_forall in Hall.
    destruct (Hall _ Hin doc eq_refl) as [s [v Hdoc]].
    exists s, v. subst doc. repeat split.
  - intros doc key ds' i Hno Hfind.
    destruct (find_doc_nth _ _ _ _ _ Hfind) as [_ Hm].
    rewrite (no_merchantOrderId_no_match key doc Hno) in Hm. discriminate.
  - intros w' moid sid st i doc st' Hno Hfind.
    pose proof (find_payment_ok _ _ _ _ _ _ Hfind) as Hloc.
    unfold locate in Hloc.
    assert (Hsession :
              truthy sid = true ->
              find_doc ["sessionId"] (JStr (js_String sid)) (docs st) =
                Some (i, doc) ->
              truthy sid = true /\
              find_doc ["sessionId"] (JStr (js_String sid)) (docs st) =
                Some (i, doc) /\
              doc_matches ["sessionId"] (JStr (js_String sid)) doc = true).
    { intros Ht Hf. split; [exact Ht|]. split; [exact Hf|].
      exact (proj2 (find_doc_nth _ _ _ _ _ Hf)). }
    destruct (truthy moid).
    + destruct (find_doc ["merchantOrderId"] (JStr (js_String moid)) (docs st))
        as [p|] eqn:Ef.
      * exfalso. inversion Hloc; subst p.
        destruct (find_doc_nth _ _ _ _ _ Ef) as [_ Hm].
        rewrite (no_merchantOrderId_no_match _ doc Hno) in Hm. discriminate.
      * destruct (truthy sid) eqn:Es; [|discriminate].
        apply Hsession; [reflexivity|]. symmetry. exact Hloc.
    + destruct (truthy sid) eqn:Es; [|discriminate].
      apply Hsession; [reflexivity|]. symmetry. exact Hloc.
Qed.

(* ================================================================== *)
(** ** The theorems at concrete requests *)
(* ================================================================== *)

Lemma sample_world_up get post apps : firestore_up (sample_world get post apps true).
Proof. split; [reflexivity|intros n; reflexivity]. Qed.

Lemma status_settled_short_circuit_witness :
  let q := JObj [("merchantOrderId", JStr "order-2")] in
  let r := run (status_handler store_only_world q)
               [sample_payment; paid_payment] in
  response_of r = json 200 [ ("status", JStr "PAID");
                             ("verified", JBool true);
                             ("payment", JObj paid_payment) ] /\
  docs_of r = [sample_payment; paid_payment] /\
  Forall (fun e => is_provider_call e = false /\ is_store_write e = false /\
                   is_dispatch e = false)
         (trace_of r).
Proof.
  cbv zeta.
  eapply (status_settled_short_circuit store_only_world
            (JObj [("merchantOrderId", JStr "order-2")])
            [sample_payment; paid_payment] 1 paid_payment "PAID").
  - reflexivity.
  - reflexivity.
  - simpl. auto.
Defined.

Lemma fulfill_receipt_sent_idempotent_witness :
  let b := JObj [("sessionId", JStr "s3")] in
  let r1 := run (fulfill_handler paid_world b) [receipted_payment] in
  let r2 := run (fulfill_handler store_only_world b) (docs_of r1) in
  response_of r1 = json 200 [ ("ok", JBool true);
                              ("message", JStr "receipt already sent");
                              ("status", JStr "PAID") ] /\
  docs_of r1 = [receipted_payment] /\
  docs_of r2 = [receipted_payment] /\
  (count_dispatch (trace_of r1) + count_dispatch (trace_of r2) = 0)%nat.
Proof.
  cbv zeta.
  destruct (fulfill_receipt_sent_idempotent paid_world store_only_world
              (JObj [("sessionId", JStr "s3")]) [receipted_payment]
              0 receipted_payment
              (mkSt [receipted_payment]
                    [EvQuery ["sessionId"] (JStr "s3")] 1)
              eq_refl eq_refl)
    as [H1 [H2 [_ [H4 [_ H6]]]]].
  repeat split; assumption.
Defined.

Lemma webhook_idempotent_witness :
  let bA := JObj [("sessionId", JStr "s2")] in
  let rA := run (webhook_handler paid_world bA) [paid_payment] in
  let bB := JObj [("sessionId", JStr "s1")] in
  let r1 := run (webhook_handler paid_world bB) [sample_payment] in
  let r2 := run (webhook_handler paid_world bB) (docs_of r1) in
  (docs_of rA = [paid_payment] /\ filter is_store_write (trace_of rA) = []) /\
  (filter is_store_write (trace_of r1) =
     [EvUpdate 0 (verified_fields paid_world paid_verification)] /\
   docs_of r1 =
     list_update_at 0
       (fun x => obj_merge x (verified_fields paid_world paid_verification))
       [sample_payment] /\
   filter is_store_write (trace_of r2) = [] /\
   docs_of r2 = docs_of r1).
Proof.
  cbv zeta. split.
  - exact (proj1 (webhook_idempotent paid_world
                    (JObj [("sessionId", JStr "s2")]) [paid_payment]
                    (JStr "s2") (mkSt [paid_payment] [] 0) paid_verification
                    0 paid_payment eq_refl eq_refl eq_refl eq_refl I)
                 eq_refl).
  - exact (proj2 (webhook_idempotent paid_world
                    (JObj [("sessionId", JStr "s1")]) [sample_payment]
                    (JStr "s1") (mkSt [sample_payment] [] 0) paid_verification
                    0 sample_payment eq_refl eq_refl eq_refl eq_refl I)
                 eq_refl eq_refl).
Defined.

Lemma notifications_differ_only_in_status :
  differ_only_in_status notification_failed notification_paid.
Proof.
  unfold differ_only_in_status, notification_failed, notification_paid.
  split; [|split].
  - intros k Hs Hd. unfold prop. simpl.
    destruct (String.eqb k "sessionId"); [reflexivity|].
    destruct (String.eqb k "status") eqn:E; [|reflexivity].
    apply String.eqb_eq in E. contradiction.
  - reflexivity.
  - intros k Hs. reflexivity.
Qed.

Lemma webhook_trust_boundary_witness :
  let r := run (webhook_handler paid_world notification_failed)
               [sample_payment] in
  run (webhook_handler paid_world notification_paid) [sample_payment] = r /\
  map (fun d => prop (JObj d) "status") (docs_of r) = [JStr "PAID"].
Proof.
  cbv zeta. split.
  - exact (proj2 (webhook_trust_boundary paid_world notification_failed
                    notification_paid [sample_payment])
                 notifications_differ_only_in_status).
  - reflexivity.
Defined.



Lemma fulfill_dispatch_outcome_witness :
  let r := run (fulfill_handler paid_world sample_fulfill_body)
               [sample_payment] in
  let retry := run (fulfill_handler paid_world sample_fulfill_body)
                   (docs_of r) in
  count_dispatch (trace_of r) = 1%nat /\
  response_of r = json 200 [ ("ok", JBool true);
                             ("status", JStr "PAID");
                             ("receiptSent", JBool true);
                             ("receiptResponse", JStr "sent") ] /\
  map (fun d => prop (JObj d) "receiptSent") (docs_of r) = [JBool true] /\
  count_dispatch (trace_of retry) = 0%nat.
Proof.
  cbv zeta.
  destruct (fulfill_dispatch_outcome paid_world sample_fulfill_body
              [sample_payment] 0 sample_payment
              (mkSt [sample_payment]
                    [EvQuery ["merchantOrderId"] (JStr "order-1")] 1)
              paid_verification
              (sample_world_up _ _ _)
              eq_refl eq_refl eq_refl eq_refl eq_refl eq_refl eq_refl)
    as [Hc [_ Hm]].
  destruct Hm as [Hr [_ [_ [_ [Hyes _]]]]].
  split; [exact Hc|]. split; [exact Hr|]. split; [reflexivity|].
  exact (Hyes eq_refl).
Defined.


Lemma webhook_record_only_by_session_witness :
  let b := JObj [("sessionId", JStr "s9")] in
  let r := run (webhook_handler paid_world b) [] in
  let doc := webhook_record paid_world (JStr "s9") paid_verification in
  docs_of r = [doc] /\
  (exists s v,
     doc = webhook_record paid_world s v /\
     assoc "merchantOrderId" doc = None /\
     assoc "orderId" doc =
       Some (js_or (js_or (prop (payment_of v) "merchantOrderId")
                          (prop (payment_of v) "order")) JNull) /\
     assoc "sessionId" doc = Some s) /\
  assoc "orderId" doc = Some (JStr "order-1") /\
  code (response_of
          (run (status_handler store_only_world
                  (JObj [("merchantOrderId", JStr "order-1")]))
               (docs_of r))) = 404%nat.
Proof.
  cbv zeta. split; [reflexivity|]. split; [|split; reflexivity].
  destruct (webhook_record_only_by_session paid_world
              (JObj [("sessionId", JStr "s9")]) []) as [H1 _].
  apply H1. right. right. left. reflexivity.
Defined.

(* ================================================================== *)
(** ** POST /api/payment/session: requests and answers that create nothing *)
(* ================================================================== *)

(** X1: which session requests are refused.  A request without a truthy
    amount or merchantRedirect is answered 400 "missing amount or
    merchantRedirect", and one whose amount converts to a number that is
    zero or negative is answered 400 "invalid amount"; in both cases the
    provider is not called and nothing is stored.  No other request is
    answered 400. *)
Theorem session_invalid_request w b ds :
  let amount := prop (js_or b (JObj [])) "amount" in
  let redirect := prop (js_or b (JObj [])) "merchantRedirect" in
  let r := run (session_handler w b) ds in
  (truthy amount = false \/ truthy redirect = false ->
     r = (json 400 [("error", JStr "missing amount or merchantRedirect")],
          ds, [])) /\
  (truthy amount = true -> truthy redirect = true ->
   num_le0 (js_Number amount) = true ->
     r = (json 400 [("error", JStr "invalid amount")], ds, [])) /\
  (code (response_of r) = 400%nat ->
     truthy amount = false \/ truthy redirect = false \/
     num_le0 (js_Number amount) = true).
Proof.
  cbv zeta. split; [|split].
  - unfold run, session_handler. rewrite try_catch_eq. cbv zeta.
    intros [H|H]; rewrite H; cbn [negb orb]; [reflexivity|].
    rewrite orb_true_r. reflexivity.
  - unfold run, session_handler. rewrite try_catch_eq. cbv zeta.
    intros Ha Hr Hn. rewrite Ha, Hr, Hn. reflexivity.
  - destruct (truthy (prop (js_or b (JObj [])) "amount")) eqn:Ha; [|auto].
    destruct (truthy (prop (js_or b (JObj [])) "merchantRedirect")) eqn:Hr;
      [|auto].
    destruct (num_le0 (js_Number (prop (js_or b (JObj [])) "amount"))) eqn:Hn;
      [auto|].
    intros Hcode. exfalso.
    pose proof (session_run_valid w b ds Ha Hr Hn) as Hrun.
    cbv zeta in Hrun. rewrite Hrun in Hcode. clear Hrun.
    destruct (kashier_post w _ _) as [resp|]; [|discriminate].
    destruct (http_json resp) as [data|]; [|discriminate].
    destruct (negb (resp_ok resp)); [discriminate|].
    destruct (nullish data); [discriminate|].
    destruct (negb (db_defined w)); [discriminate|].
    destruct (fs_fails w 0); [discriminate|].
    destruct (fs_valid _); discriminate.
Qed.


(* ================================================================== *)
(** ** POST /api/payment/fulfill: the branches that send nothing *)
(* ================================================================== *)


(** The handler's run in terms of its lookup. *)
Lemma fulfill_run_eq w b ds :
  let moid := body_merchantOrderId b in
  let sid := body_sessionId b in
  run (fulfill_handler w b) ds =
  if negb (truthy moid) && negb (truthy sid)
  then (json 400 [("error", JStr "missing merchantOrderId or sessionId")],
        ds, [])
  else
    match find_payment w moid sid (mkSt ds [] 0) with
    | (Ok (Some (idx, d)), st1) =>
        if truthy (prop (JObj d) "receiptSent")
        then (json 200 [ ("ok", JBool true);
                         ("message", JStr "receipt already sent");
                         ("status", prop (JObj d) "status") ],
              docs st1, log st1)
        else finish (fulfill_send w idx (JObj d) sid st1)
    | (Ok None, st1) =>
        (json 404 [("error", JStr "payment record not found")],
         docs st1, log st1)
    | (Throw e, st1) => (json 500 [("error", JStr e)], docs st1, log st1)
    end.
Proof.
  cbv zeta. unfold run, fulfill_handler.
  fold (body_merchantOrderId b). fold (body_sessionId b).
  rewrite try_catch_eq.
  destruct (negb (truthy (body_merchantOrderId b)) &&
            negb (truthy (body_sessionId b))); [reflexivity|].
  rewrite bind_eq.
  destruct (find_payment w (body_merchantOrderId b) (body_sessionId b)
              (mkSt ds [] 0)) as [[[[idx d]|]|e] st1]; [| |reflexivity].
  - destruct (truthy (prop (JObj d) "receiptSent")); [reflexivity|].
    unfold finish.
    destruct (fulfill_send w idx (JObj d) (body_sessionId b) st1)
      as [[x|e] st2]; reflexivity.
  - reflexivity.
Qed.


(** A fulfillment that verified the payment and has nothing to send: the
    payment is not successful, or no address is known. *)
Lemma fulfill_send_verified w idx d sessionId v st :
  verify_outcome w (js_or (prop (JObj d) "sessionId") sessionId) = Ok v ->
  nullish v = false ->
  includes successStates (status_of v) = false \/
  truthy (receipt_email (JObj d)) = false ->
  fulfill_send w idx (JObj d) sessionId st =
  match update w idx (fulfill_verified_fields w v)
          (after_fetch st
             (EvKashierGet
                (kashier_session_url w
                   (js_or (prop (JObj d) "sessionId") sessionId)))) with
  | (Ok _, st2) =>
      (Ok (if includes successStates (status_of v)
           then json 200 [ ("ok", JBool true);
                           ("message", JStr "no email to send");
                           ("status", status_of v) ]
           else json 400 [ ("error", JStr "payment not successful");
                           ("status", status_of v) ]), st2)
  | (Throw e, st2) => (Throw e, st2)
  end.
Proof.
  intros Hv Hn Hcase. unfold fulfill_send. cbv zeta.
  do 3 step. rewrite fetchKashierSession_eq, Hv. cbv beta iota.
  do 2 step. rewrite (member_ok v "data" _ Hn). cbv beta iota.
  fold (payment_of v). step.
  rewrite (member_ok (payment_of v) "status" _ (payment_not_nullish v Hn)).
  cbv beta iota. fold (status_of v).
  fold (receipt_user (JObj d)). fold (receipt_email (JObj d)).
  fold (fulfill_verified_fields w v).
  destruct (includes successStates (status_of v)) eqn:Hinc; cbn [negb].
  - destruct Hcase as [Hc|Hc]; [discriminate|]. rewrite Hc. cbn [negb].
    step.
    destruct (update w idx (fulfill_verified_fields w v) _) as [[u|e] st2];
      [step|]; reflexivity.
  - step.
    destruct (update w idx (fulfill_verified_fields w v) _) as [[u|e] st2];
      [step|]; reflexivity.
Qed.

Lemma prop_merge_verified_status w v d :
  prop (JObj (obj_merge d (fulfill_verified_fields w v))) "status" =
  status_of v.
Proof.
  unfold prop, obj_merge, fulfill_verified_fields. cbn [fold_left fst snd].
  rewrite !assoc_obj_set. reflexivity.
Qed.

(** The run of a fulfillment that has nothing to send. *)
Lemma fulfill_nothing_sent_run w b ds idx d v :
  firestore_up w ->
  locate (body_merchantOrderId b) (body_sessionId b) ds = Some (idx, d) ->
  truthy (prop (JObj d) "receiptSent") = false ->
  verify_outcome w (js_or (prop (JObj d) "sessionId") (body_sessionId b))
    = Ok v ->
  nullish v = false ->
  fs_valid (JObj (fulfill_verified_fields w v)) = true ->
  includes successStates (status_of v) = false \/
  truthy (receipt_email (JObj d)) = false ->
  let r := run (fulfill_handler w b) ds in
  response_of r =
    (if includes successStates (status_of v)
     then json 200 [ ("ok", JBool true);
                     ("message", JStr "no email to send");
                     ("status", status_of v) ]
     else json 400 [ ("error", JStr "payment not successful");
                     ("status", status_of v) ]) /\
  docs_of r =
    list_update_at idx (fun x => obj_merge x (fulfill_verified_fields w v)) ds /\
  nth_error (docs_of r) idx =
    Some (obj_merge d (fulfill_verified_fields w v)) /\
  count_dispatch (trace_of r) = 0%nat /\
  filter is_store_write (trace_of r) =
    [EvUpdate idx (fulfill_verified_fields w v)].
Proof.
  intros Hup Hloc Hsent Hv Hn Hval Hcase. cbv zeta.
  destruct (find_payment_up w (body_merchantOrderId b) (body_sessionId b)
              (mkSt ds [] 0) Hup) as [st1 Hf].
  simpl in Hf. rewrite Hloc in Hf.
  pose proof (keeps_find_payment _ _ _ _ _ _ Hf) as Hd1.
  destruct (emits_find_payment _ _ _ _ _ _ Hf) as [qs [Hl1 Hq1]].
  simpl in Hd1, Hl1.
  pose proof (locate_nth _ _ _ _ _ Hloc) as Hnth.
  rewrite (fulfill_run_send w b ds idx d st1 Hf Hsent).
  rewrite (fulfill_send_verified w idx d (body_sessionId b) v st1 Hv Hn Hcase).
  destruct Hup as [Hdb Hfs].
  rewrite update_eq, Hdb, Hfs, Hval. cbn [negb].
  unfold finish, response_of, docs_of, trace_of, count_dispatch.
  cbn [fst snd docs log after_fetch]. rewrite Hd1, Hl1.
  split; [reflexivity|]. split; [reflexivity|].
  split; [exact (nth_error_update
                   (fun x => obj_merge x (fulfill_verified_fields w v))
                   ds idx d Hnth)|].
  rewrite !filter_app. cbn [filter is_dispatch is_store_write app].
  pose proof (count_dispatch_queries _ Hq1) as Hz.
  unfold count_dispatch in Hz. rewrite !length_app, Hz.
  rewrite (filter_writes_queries _ Hq1). split; reflexivity.
Qed.

(** X4: a fulfillment whose verification reports a status outside the
    success states is answered 400 "payment not successful" with that
    status; the verified status is written to the stored payment and no
    receipt is dispatched. *)
Theorem fulfill_unsuccessful_payment w b ds idx d v :
  firestore_up w ->
  locate (body_merchantOrderId b) (body_sessionId b) ds = Some (idx, d) ->
  truthy (prop (JObj d) "receiptSent") = false ->
  verify_outcome w (js_or (prop (JObj d) "sessionId") (body_sessionId b))
    = Ok v ->
  nullish v = false ->
  fs_valid (JObj (fulfill_verified_fields w v)) = true ->
  includes successStates (status_of v) = false ->
  let r := run (fulfill_handler w b) ds in
  response_of r = json 400 [ ("error", JStr "payment not successful");
                             ("status", status_of v) ] /\
  nth_error (docs_of r) idx =
    Some (obj_merge d (fulfill_verified_fields w v)) /\
  prop (JObj (obj_merge d (fulfill_verified_fields w v))) "status" =
    status_of v /\
  prop (JObj (obj_merge d (fulfill_verified_fields w v))) "receiptSent" =
    prop (JObj d) "receiptSent" /\
  count_dispatch (trace_of r) = 0%nat.
Proof.
  intros Hup Hloc Hsent Hv Hn Hval Hinc. cbv zeta.
  destruct (fulfill_nothing_sent_run w b ds idx d v Hup Hloc Hsent Hv Hn Hval
              (or_introl Hinc)) as [Hr [_ [Hnth [Hc _]]]].
  rewrite Hinc in Hr.
  split; [exact Hr|]. split; [exact Hnth|].
  split; [apply prop_merge_verified_status|]. split; [|exact Hc].
  unfold prop. rewrite assoc_obj_merge_other by reflexivity. reflexivity.
Qed.

(** X5: a fulfillment of a payment verified as successful for which no
    address is known (neither [user.email] nor [response.customer.email]) is
    answered 200 "no email to send"; the verified status is written, nothing
    is dispatched, and the payment is not marked as receipted. *)
Theorem fulfill_no_address w b ds idx d v :
  firestore_up w ->
  locate (body_merchantOrderId b) (body_sessionId b) ds = Some (idx, d) ->
  truthy (prop (JObj d) "receiptSent") = false ->
  verify_outcome w (js_or (prop (JObj d) "sessionId") (body_sessionId b))
    = Ok v ->
  nullish v = false ->
  fs_valid (JObj (fulfill_verified_fields w v)) = true ->
  includes successStates (status_of v) = true ->
  truthy (receipt_email (JObj d)) = false ->
  let r := run (fulfill_handler w b) ds in
  response_of r = json 200 [ ("ok", JBool true);
                             ("message", JStr "no email to send");
                             ("status", status_of v) ] /\
  nth_error (docs_of r) idx =
    Some (obj_merge d (fulfill_verified_fields w v)) /\
  prop (JObj (obj_merge d (fulfill_verified_fields w v))) "status" =
    status_of v /\
  truthy (prop (JObj (obj_merge d (fulfill_verified_fields w v)))
               "receiptSent") = false /\
  count_dispatch (trace_of r) = 0%nat.
Proof.
  intros Hup Hloc Hsent Hv Hn Hval Hinc Hemail. cbv zeta.
  destruct (fulfill_nothing_sent_run w b ds idx d v Hup Hloc Hsent Hv Hn Hval
              (or_intror Hemail)) as [Hr [_ [Hnth [Hc _]]]].
  rewrite Hinc in Hr.
  split; [exact Hr|]. split; [exact Hnth|].
  split; [apply prop_merge_verified_status|]. split; [|exact Hc].
  unfold prop. rewrite assoc_obj_merge_other by reflexivity. exact Hsent.
Qed.

(* ================================================================== *)
(** ** POST /api/payment/fulfill: what a dispatch presupposes *)
(* ================================================================== *)

Lemma update_trace w idx fields st r st' :
  update w idx fields st = (r, st') ->
  exists evs, log st' = (log st ++ evs)%list /\
              Forall (fun e => is_store_write e = true) evs.
Proof. apply emits_update. reflexivity. Qed.

Lemma write_not_dispatch e :
  is_store_write e = true -> is_dispatch e = false.
Proof. destruct e; simpl; congruence. Qed.

(** What [fulfill_send] issues: the verification call first, and a
    dispatch only for a payment verified as successful with an address. *)
Lemma fulfill_send_trace w idx d sessionId st res st' :
  let sid := js_or (prop (JObj d) "sessionId") sessionId in
  fulfill_send w idx (JObj d) sessionId st = (res, st') ->
  exists evs,
    log st' = (log st ++ EvKashierGet (kashier_session_url w sid) :: evs)%list /\
    forall e, In e evs -> is_dispatch e = true ->
      exists v,
        verify_outcome w sid = Ok v /\
        nullish v = false /\
        includes successStates (status_of v) = true /\
        truthy (receipt_email (JObj d)) = true /\
        e = EvAppsScript (APPSCRIPT_URL w)
              (receipt_payload w (JObj d) (receipt_user (JObj d))
                               (receipt_email (JObj d))).
Proof.
  cbv zeta. intros Hrun.
  set (sid := js_or (prop (JObj d) "sessionId") sessionId) in *.
  destruct (verify_outcome w sid) as [v|err] eqn:Hv.
  2:{ unfold fulfill_send in Hrun. cbv zeta in Hrun. fold sid in Hrun.
      rewrite bind_eq, try_catch_eq, bind_eq, fetchKashierSession_eq, Hv
        in Hrun.
      cbv beta iota in Hrun. rewrite !ret_eq in Hrun.
      inversion Hrun; subst. exists []. split; [reflexivity|].
      intros e []. }
  destruct (nullish v) eqn:Hn.
  { unfold fulfill_send in Hrun. cbv zeta in Hrun. fold sid in Hrun.
    rewrite bind_eq, try_catch_eq, bind_eq, fetchKashierSession_eq, Hv
      in Hrun.
    cbv beta iota in Hrun. rewrite ret_eq in Hrun. cbv beta iota in Hrun.
    rewrite bind_eq in Hrun. unfold member at 1 in Hrun.
    rewrite Hn, throw_eq in Hrun. inversion Hrun; subst.
    exists []. split; [reflexivity|]. intros e []. }
  destruct (includes successStates (status_of v)) eqn:Hinc;
    [destruct (truthy (receipt_email (JObj d))) eqn:Hemail|].
  - pose proof (fulfill_send_dispatch w idx d sessionId v st Hv Hn Hinc
                  Hemail) as Heq.
    cbv zeta in Heq. fold sid in Heq. rewrite Heq in Hrun. clear Heq.
    set (payload := receipt_payload w (JObj d) (receipt_user (JObj d))
                      (receipt_email (JObj d))) in *.
    assert (Hgoal : forall evs,
      Forall (fun e => is_store_write e = true) evs ->
      forall e,
        In e (EvAppsScript (APPSCRIPT_URL w) payload :: evs) ->
        is_dispatch e = true ->
        exists v0,
          Ok v = Ok v0 /\ nullish v0 = false /\
          includes successStates (status_of v0) = true /\
          true = true /\ e = EvAppsScript (APPSCRIPT_URL w) payload).
    { intros evs Hw e [He|He] Hd.
      - exists v. repeat split; auto.
      - rewrite Forall_forall in Hw.
        rewrite (write_not_dispatch e (Hw e He)) in Hd. discriminate. }
    destruct (appscript_post w (APPSCRIPT_URL w) payload) as [resp|].
    + destruct (update w idx (receipt_fields w v resp) _)
        as [[u|e1] st3] eqn:Hu1.
      * inversion Hrun; subst.
        destruct (update_trace _ _ _ _ _ _ Hu1) as [e1 [Hl1 Hw1]].
        simpl in Hl1. exists (EvAppsScript (APPSCRIPT_URL w) payload :: e1).
        split; [rewrite Hl1, <- !app_assoc; reflexivity|].
        apply Hgoal. exact Hw1.
      * destruct (update_trace _ _ _ _ _ _ Hu1) as [ev1 [Hl1 Hw1]].
        simpl in Hl1.
        destruct (update w idx (fulfill_verified_fields w v) st3)
          as [[u|e2] st4] eqn:Hu2;
          destruct (update_trace _ _ _ _ _ _ Hu2) as [ev2 [Hl2 Hw2]];
          inversion Hrun; subst;
          exists (EvAppsScript (APPSCRIPT_URL w) payload :: ev1 ++ ev2)%list;
          (split; [rewrite Hl2, Hl1, <- !app_assoc; reflexivity|]);
          apply Hgoal; apply Forall_app; split; assumption.
    + destruct (update w idx (fulfill_verified_fields w v) _)
        as [[u|e2] st3] eqn:Hu2;
        destruct (update_trace _ _ _ _ _ _ Hu2) as [ev2 [Hl2 Hw2]];
        simpl in Hl2; inversion Hrun; subst;
        exists (EvAppsScript (APPSCRIPT_URL w) payload :: ev2);
        (split; [rewrite Hl2, <- !app_assoc; reflexivity|]);
        apply Hgoal; assumption.
  - rewrite (fulfill_send_verified w idx d sessionId v st Hv Hn
               (or_intror Hemail)) in Hrun.
    fold sid in Hrun.
    destruct (update w idx (fulfill_verified_fields w v) _)
      as [[u|e2] st3] eqn:Hu2;
      destruct (update_trace _ _ _ _ _ _ Hu2) as [ev2 [Hl2 Hw2]];
      simpl in Hl2; inversion Hrun; subst;
      exists ev2; (split; [rewrite Hl2, <- !app_assoc; reflexivity|]);
      intros e He Hd; rewrite Forall_forall in Hw2;
      rewrite (write_not_dispatch e (Hw2 e He)) in Hd; discriminate.
  - rewrite (fulfill_send_verified w idx d sessionId v st Hv Hn
               (or_introl Hinc)) in Hrun.
    fold sid in Hrun.
    destruct (update w idx (fulfill_verified_fields w v) _)
      as [[u|e2] st3] eqn:Hu2;
      destruct (update_trace _ _ _ _ _ _ Hu2) as [ev2 [Hl2 Hw2]];
      simpl in Hl2; inversion Hrun; subst;
      exists ev2; (split; [rewrite Hl2, <- !app_assoc; reflexivity|]);
      intros e He Hd; rewrite Forall_forall in Hw2;
      rewrite (write_not_dispatch e (Hw2 e He)) in Hd; discriminate.
Qed.

Lemma query_not_dispatch evs e :
  Forall (fun x => is_query x = true) evs -> In e evs ->
  is_dispatch e = true -> False.
Proof.
  intros Hq He Hd. rewrite Forall_forall in Hq. specialize (Hq e He).
  destruct e; simpl in *; discriminate.
Qed.

(** X6: the fulfillment handler dispatches a receipt only for a stored
    payment that is not yet marked as receipted, after it has called the
    gateway for that payment's session in the same request, and only when
    that verification reported a success state and an address is known; the
    dispatch then carries the receipt payload of that payment. *)
Theorem fulfill_dispatch_requires_verification w b ds e :
  let r := run (fulfill_handler w b) ds in
  In e (trace_of r) -> is_dispatch e = true ->
  exists idx d v,
    locate (body_merchantOrderId b) (body_sessionId b) ds = Some (idx, d) /\
    truthy (prop (JObj d) "receiptSent") = false /\
    In (EvKashierGet
          (kashier_session_url w
             (js_or (prop (JObj d) "sessionId") (body_sessionId b))))
       (trace_of r) /\
    verify_outcome w (js_or (prop (JObj d) "sessionId") (body_sessionId b))
      = Ok v /\
    includes successStates (status_of v) = true /\
    truthy (receipt_email (JObj d)) = true /\
    e = EvAppsScript (APPSCRIPT_URL w)
          (receipt_payload w (JObj d) (receipt_user (JObj d))
                           (receipt_email (JObj d))).
Proof.
  cbv zeta. rewrite (fulfill_run_eq w b ds). cbv zeta.
  set (moid := body_merchantOrderId b). set (sid := body_sessionId b).
  destruct (negb (truthy moid) && negb (truthy sid)); [intros []|].
  destruct (find_payment w moid sid (mkSt ds [] 0))
    as [[[[idx d]|]|err] st1] eqn:Hf;
    destruct (emits_find_payment _ _ _ _ _ _ Hf) as [qs [Hl1 Hq1]];
    simpl in Hl1;
    try (unfold trace_of; cbn [snd]; rewrite Hl1; intros He Hd;
         exfalso; exact (query_not_dispatch qs e Hq1 He Hd)).
  pose proof (find_payment_ok _ _ _ _ _ _ Hf) as Hloc. simpl in Hloc.
  destruct (truthy (prop (JObj d) "receiptSent")) eqn:Hsent.
  { unfold trace_of; cbn [snd]; rewrite Hl1; intros He Hd;
      exfalso; exact (query_not_dispatch qs e Hq1 He Hd). }
  rewrite finish_trace.
  destruct (fulfill_send w idx (JObj d) sid st1) as [res st2] eqn:Hs.
  destruct (fulfill_send_trace w idx d sid st1 res st2 Hs) as [evs [Hl2 Hdisp]].
  cbn [snd]. rewrite Hl2, Hl1. intros He Hd.
  apply in_app_or in He. destruct He as [He|[He|He]].
  - exfalso. exact (query_not_dispatch qs e Hq1 He Hd).
  - subst e. discriminate.
  - destruct (Hdisp e He Hd) as [v [Hv [Hn [Hinc [Hemail Heq]]]]].
    exists idx, d, v. split; [symmetry; exact Hloc|].
    split; [exact Hsent|].
    split; [apply in_or_app; right; left; reflexivity|].
    repeat split; assumption.
Qed.

(* ================================================================== *)
(** ** GET /api/payment/status: stored payments that are not settled *)
(* ================================================================== *)

(** The handler's run in terms of its lookup. *)
Lemma status_run_eq w q ds :
  let moid := query_merchantOrderId q in
  let sid := query_sessionId q in
  run (status_handler w q) ds =
  if negb (truthy moid) && negb (truthy sid)
  then (json 400 [("error", JStr "missing merchantOrderId or sessionId")],
        ds, [])
  else
    match find_payment w moid sid (mkSt ds [] 0) with
    | (Ok (Some (idx, d)), st1) => finish (status_found w idx d sid st1)
    | (Ok None, st1) =>
        if truthy sid then finish (status_create w sid st1)
        else (json 404 [("error", JStr "not found")], docs st1, log st1)
    | (Throw e, st1) => (json 500 [("error", JStr e)], docs st1, log st1)
    end.
Proof.
  cbv zeta. unfold run, status_handler.
  fold (query_merchantOrderId q). fold (query_sessionId q).
  rewrite try_catch_eq.
  destruct (negb (truthy (query_merchantOrderId q)) &&
            negb (truthy (query_sessionId q))); [reflexivity|].
  rewrite bind_eq.
  destruct (find_payment w (query_merchantOrderId q) (query_sessionId q)
              (mkSt ds [] 0)) as [[[[idx d]|]|e] st1]; [| |reflexivity].
  - unfold finish.
    destruct (status_found w idx d (query_sessionId q) st1) as [[x|e] st2];
      reflexivity.
  - destruct (truthy (query_sessionId q)); [|reflexivity].
    unfold finish.
    destruct (status_create w (query_sessionId q) st1) as [[x|e] st2];
      reflexivity.
Qed.

(** The status handler on a located document whose stored status reads as
    the string [s]. *)
Lemma status_found_eq w idx d sessionId s st :
  js_or (prop (JObj d) "status") (JStr "") = JStr s ->
  let sid := js_or (prop (JObj d) "sessionId") sessionId in
  let st1 := after_fetch st (EvKashierGet (kashier_session_url w sid)) in
  let failed := json 500 [("error", JStr "verification failed")] in
  status_found w idx d sessionId st =
  if includes successStates (JStr (toUpperCase s))
  then (Ok (json 200 [ ("status", prop (JObj d) "status");
                       ("verified", JBool true);
                       ("payment", JObj d) ]), st)
  else if truthy sid then
    match verify_outcome w sid with
    | Throw _ => (Ok failed, st1)
    | Ok v =>
        if nullish v then (Ok failed, st1)
        else
          match update w idx (fulfill_verified_fields w v) st1 with
          | (Ok _, st2) =>
              (Ok (json 200 [ ("status", status_of v);
                              ("verified",
                                JBool (includes successStates (status_of v)));
                              ("payment", payment_of v) ]), st2)
          | (Throw _, st2) => (Ok failed, st2)
          end
    end
  else (Ok (json 200 [ ("status", js_or (prop (JObj d) "status") JNull);
                       ("verified", JBool false);
                       ("payment", JObj d) ]), st).
Proof.
  intros Hs. cbv zeta. unfold status_found. cbv zeta. rewrite Hs.
  unfold call_toUpperCase. do 2 step.
  destruct (includes successStates (JStr (toUpperCase s)));
    [step; reflexivity|].
  destruct (truthy (js_or (prop (JObj d) "sessionId") sessionId));
    [|step; reflexivity].
  do 2 step. rewrite fetchKashierSession_eq.
  destruct (verify_outcome w _) as [v|e];
    cbv beta iota; [|step; reflexivity].
  step. unfold member at 1.
  destruct (nullish v) eqn:Hn; [do 2 step; reflexivity|].
  step. fold (payment_of v). step.
  rewrite (member_ok (payment_of v) "status" _ (payment_not_nullish v Hn)).
  cbv beta iota. fold (status_of v). step.
  fold (fulfill_verified_fields w v).
  destruct (update w idx (fulfill_verified_fields w v) _) as [[u|e] st2];
    repeat step; reflexivity.
Qed.


(** X8: how the status endpoint reads a stored status.  A stored string
    that is a success state once put in upper case (so "paid" as well as
    "PAID", and "paid" written with the dotless i, whose upper case is the
    letter I) is answered 200 [verified: true] with the status as stored and
    without calling the gateway; a stored status that is truthy and not a
    string is answered 500, again without any gateway call or store
    write. *)
Theorem status_reads_stored_status w q ds idx d :
  firestore_up w ->
  locate (query_merchantOrderId q) (query_sessionId q) ds = Some (idx, d) ->
  let r := run (status_handler w q) ds in
  (forall s,
     prop (JObj d) "status" = JStr s ->
     In (toUpperCase s) successStates ->
     response_of r = json 200 [ ("status", JStr s);
                                ("verified", JBool true);
                                ("payment", JObj d) ] /\
     docs_of r = ds /\
     Forall (fun e => is_query e = true) (trace_of r)) /\
  (truthy (prop (JObj d) "status") = true ->
   (forall s, prop (JObj d) "status" <> JStr s) ->
     code (response_of r) = 500%nat /\
     docs_of r = ds /\
     Forall (fun e => is_query e = true) (trace_of r)).
Proof.
  intros Hup Hloc. cbv zeta.
  rewrite (status_run_eq w q ds). cbv zeta.
  destruct (find_payment_up w (query_merchantOrderId q) (query_sessionId q)
              (mkSt ds [] 0) Hup) as [st1 Hf].
  simpl in Hf. rewrite Hloc in Hf.
  rewrite (find_payment_gate _ _ _ _ _ _ Hf), Hf.
  pose proof (keeps_find_payment _ _ _ _ _ _ Hf) as Hd1.
  destruct (emits_find_payment _ _ _ _ _ _ Hf) as [qs [Hl1 Hq1]].
  simpl in Hd1, Hl1.
  split.
  - intros s Hs Hin.
    assert (Hne : s <> "").
    { intros E. subst s. simpl in Hin.
      destruct Hin as [H|[H|[H|[]]]]; discriminate. }
    assert (Hor : js_or (prop (JObj d) "status") (JStr "") = JStr s).
    { rewrite Hs. unfold js_or, truthy.
      destruct (String.eqb_spec s ""); [contradiction|reflexivity]. }
    pose proof (status_found_eq w idx d (query_sessionId q) s st1 Hor) as Heq.
    cbv zeta in Heq.
    rewrite Heq, (includes_success _ Hin), Hs. clear Heq.
    unfold finish, response_of, docs_of, trace_of. cbn [fst snd].
    rewrite Hd1, Hl1. repeat split. exact Hq1.
  - intros Ht Hns.
    assert (Hsf : status_found w idx d (query_sessionId q) st1 =
                  (Throw "TypeError: toUpperCase is not a function", st1)).
    { unfold status_found. cbv zeta.
      replace (js_or (prop (JObj d) "status") (JStr ""))
        with (prop (JObj d) "status")
        by (unfold js_or; rewrite Ht; reflexivity).
      unfold call_toUpperCase.
      destruct (prop (JObj d) "status") as [| | | |s| | |] eqn:Hp;
        try (exfalso; exact (Hns s eq_refl));
        rewrite bind_eq, throw_eq; reflexivity. }
    rewrite Hsf.
    unfold finish, response_of, docs_of, trace_of. cbn [fst snd code json].
    rewrite Hd1, Hl1. repeat split. exact Hq1.
Qed.

(* ================================================================== *)
(** ** A gateway that verifies nothing *)
(* ================================================================== *)

Lemma queries_without_effect evs :
  Forall (fun e => is_query e = true) evs ->
  Forall (fun e => is_store_write e = false /\ is_dispatch e = false) evs.
Proof.
  intros H. eapply Forall_impl; [|exact H].
  intros e He. destruct e; simpl in *; try discriminate. auto.
Qed.

Lemma queries_then_verify_without_effect evs url :
  Forall (fun e => is_query e = true) evs ->
  Forall (fun e => is_store_write e = false /\ is_dispatch e = false)
         (evs ++ [EvKashierGet url])%list.
Proof.
  intros H. apply Forall_app. split; [exact (queries_without_effect _ H)|].
  constructor; [split; reflexivity|constructor].
Qed.

Lemma status_found_unverified w idx d sid st :
  verification_fails w ->
  exists res evs,
    status_found w idx d sid st =
      (res, mkSt (docs st) (log st ++ evs)%list (fs_calls st)) /\
    Forall (fun e => is_store_write e = false /\ is_dispatch e = false) evs.
Proof.
  intros Hfail.
  assert (Hnil : forall res : Res Response,
            exists res' evs,
              (res, st) = (res', mkSt (docs st) (log st ++ evs)%list (fs_calls st)) /\
              Forall (fun e => is_store_write e = false /\ is_dispatch e = false)
                     evs).
  { intros res. exists res, []. rewrite app_nil_r. destruct st.
    split; [reflexivity|constructor]. }
  unfold status_found. cbv zeta. rewrite bind_eq. unfold call_toUpperCase.
  destruct (js_or (prop (JObj d) "status") (JStr ""));
    try (rewrite throw_eq; apply Hnil).
  rewrite ret_eq. cbv beta iota.
  destruct (includes successStates (JStr (toUpperCase s)));
    [rewrite ret_eq; apply Hnil|].
  destruct (truthy (js_or (prop (JObj d) "sessionId") sid));
    [|rewrite ret_eq; apply Hnil].
  rewrite try_catch_eq, bind_eq, fetchKashierSession_eq.
  destruct (Hfail (js_or (prop (JObj d) "sessionId") sid)) as [e He].
  rewrite He. cbv beta iota. rewrite ret_eq.
  eexists _, [_]. split; [reflexivity|].
  constructor; [split; reflexivity|constructor].
Qed.

Lemma fulfill_send_unverified w idx data sid st :
  verification_fails w ->
  fulfill_send w idx data sid st =
  (Ok (json 500 [("error", JStr "verification failed")]),
   after_fetch st
     (EvKashierGet (kashier_session_url w (js_or (prop data "sessionId") sid)))).
Proof.
  intros Hfail. unfold fulfill_send. cbv zeta.
  rewrite bind_eq, try_catch_eq, bind_eq, fetchKashierSession_eq.
  destruct (Hfail (js_or (prop data "sessionId") sid)) as [e He].
  rewrite He. cbv beta iota. rewrite !ret_eq. reflexivity.
Qed.

(** X9: when the gateway verifies no session (it is unreachable, or
    answers with an error or with something that is not JSON), no request
    to the webhook, the status or the fulfillment endpoint changes the
    store or sends a receipt, and the webhook never acknowledges a
    notification with 200. *)
Theorem gateway_down_no_effect w b ds :
  verification_fails w ->
  without_effect ds (run (webhook_handler w b) ds) /\
  code (response_of (run (webhook_handler w b) ds)) <> 200%nat /\
  without_effect ds (run (status_handler w b) ds) /\
  without_effect ds (run (fulfill_handler w b) ds).
Proof.
  intros Hfail. unfold without_effect.
  assert (Hweb :
    (docs_of (run (webhook_handler w b) ds) = ds /\
     Forall (fun e => is_store_write e = false /\ is_dispatch e = false)
            (trace_of (run (webhook_handler w b) ds))) /\
    code (response_of (run (webhook_handler w b) ds)) <> 200%nat).
  { destruct (webhook_run_stages w b ds) as [s [st1 [_ [_ [Hq Hrun]]]]].
    rewrite Hrun. destruct (negb (truthy s)).
    - unfold docs_of, trace_of, response_of. cbn [fst snd code text].
      repeat split; [exact (queries_without_effect _ Hq)|discriminate].
    - destruct (Hfail s) as [e He]. rewrite He.
      unfold docs_of, trace_of, response_of. cbn [fst snd code text].
      repeat split;
        [exact (queries_then_verify_without_effect _ _ Hq)|discriminate]. }
  destruct Hweb as [Hweb Hcode].
  split; [exact Hweb|]. split; [exact Hcode|]. split.
  - rewrite (status_run_eq w b ds). cbv zeta.
    destruct (negb (truthy (query_merchantOrderId b)) &&
              negb (truthy (query_sessionId b)));
      [split; [reflexivity|constructor]|].
    destruct (find_payment w (query_merchantOrderId b) (query_sessionId b)
                (mkSt ds [] 0)) as [[[[idx d]|]|err] st1] eqn:Hf;
      pose proof (keeps_find_payment _ _ _ _ _ _ Hf) as Hd1;
      destruct (emits_find_payment _ _ _ _ _ _ Hf) as [qs [Hl1 Hq1]];
      simpl in Hd1, Hl1.
    + destruct (status_found_unverified w idx d (query_sessionId b) st1 Hfail)
        as [res [evs [Heq Hev]]].
      rewrite Heq. rewrite finish_docs, finish_trace. cbn [snd docs log].
      split; [exact Hd1|]. rewrite Hl1. apply Forall_app.
      split; [exact (queries_without_effect _ Hq1)|exact Hev].
    + destruct (truthy (query_sessionId b)).
      * pose proof (status_create_eq w (query_sessionId b) st1) as Hc.
        cbv zeta in Hc. rewrite Hc. clear Hc.
        destruct (Hfail (JStr (js_String (query_sessionId b)))) as [e He].
        rewrite He. unfold finish, docs_of, trace_of.
        cbn [fst snd docs log after_fetch]. rewrite Hl1.
        split; [exact Hd1|].
        exact (queries_then_verify_without_effect _ _ Hq1).
      * unfold docs_of, trace_of. cbn [fst snd]. rewrite Hl1.
        split; [exact Hd1|exact (queries_without_effect _ Hq1)].
    + unfold docs_of, trace_of. cbn [fst snd]. rewrite Hl1.
      split; [exact Hd1|exact (queries_without_effect _ Hq1)].
  - rewrite (fulfill_run_eq w b ds). cbv zeta.
    destruct (negb (truthy (body_merchantOrderId b)) &&
              negb (truthy (body_sessionId b)));
      [split; [reflexivity|constructor]|].
    destruct (find_payment w (body_merchantOrderId b) (body_sessionId b)
                (mkSt ds [] 0)) as [[[[idx d]|]|err] st1] eqn:Hf;
      pose proof (keeps_find_payment _ _ _ _ _ _ Hf) as Hd1;
      destruct (emits_find_payment _ _ _ _ _ _ Hf) as [qs [Hl1 Hq1]];
      simpl in Hd1, Hl1;
      try (unfold docs_of, trace_of; cbn [fst snd]; rewrite Hl1;
           split; [exact Hd1|exact (queries_without_effect _ Hq1)]).
    destruct (truthy (prop (JObj d) "receiptSent")).
    + unfold docs_of, trace_of; cbn [fst snd]; rewrite Hl1;
        split; [exact Hd1|exact (queries_without_effect _ Hq1)].
    + rewrite (fulfill_send_unverified w idx (JObj d) (body_sessionId b) st1
                 Hfail).
      unfold finish, docs_of, trace_of. cbn [fst snd docs log after_fetch].
      rewrite Hl1. split; [exact Hd1|].
      exact (queries_then_verify_without_effect _ _ Hq1).
Qed.

(* ================================================================== *)
(** ** The order of outbound calls *)
(* ================================================================== *)

Lemma Kind_eqb_eq a b : Kind_eqb a b = true -> a = b.
Proof. destruct a, b; simpl; congruence. Qed.

Lemma kinds_eqb_eq l1 l2 : kinds_eqb l1 l2 = true -> l1 = l2.
Proof.
  revert l2. induction l1 as [|x l1 IH]; intros [|y l2] H; simpl in H;
    try discriminate; [reflexivity|].
  apply andb_true_iff in H. destruct H as [H1 H2].
  rewrite (Kind_eqb_eq _ _ H1), (IH _ H2). reflexivity.
Qed.

Lemma covered_In l l' x : covered l l' = true -> In x l -> In x l'.
Proof.
  unfold covered. rewrite forallb_forall. intros H Hx.
  specialize (H x Hx). apply existsb_exists in H.
  destruct H as [y [Hy Heq]]. rewrite (kinds_eqb_eq _ _ Heq). exact Hy.
Qed.

Lemma In_seq l1 l2 x y : In x l1 -> In y l2 -> In (x ++ y)%list (seq l1 l2).
Proof.
  intros Hx Hy. unfold seq. apply in_flat_map. exists x.
  split; [exact Hx|]. apply in_map_iff. exists y. auto.
Qed.

Lemma follows_covered {A} ok thrown ok' thrown' (m : M A) :
  covered ok ok' = true -> covered thrown thrown' = true ->
  follows ok thrown m -> follows ok' thrown' m.
Proof.
  intros Hc Ht Hm st r st' E. destruct (Hm _ _ _ E) as [evs [Hl Hin]].
  exists evs. split; [exact Hl|].
  destruct r; [exact (covered_In _ _ _ Hc Hin)|exact (covered_In _ _ _ Ht Hin)].
Qed.

Lemma follows_ret {A} (a : A) : follows [[]] [] (ret a).
Proof.
  intros st r st' E. inversion E; subst. exists [].
  rewrite app_nil_r. split; [reflexivity|left; reflexivity].
Qed.

Lemma follows_throw {A} e : follows [] [[]] (@throw A e).
Proof.
  intros st r st' E. inversion E; subst. exists [].
  rewrite app_nil_r. split; [reflexivity|left; reflexivity].
Qed.

Lemma follows_member v k : follows [[]] [[]] (member v k).
Proof.
  unfold member. destruct (nullish v).
  - apply (follows_covered [] [[]]); [reflexivity|reflexivity|].
    apply follows_throw.
  - apply (follows_covered [[]] []); [reflexivity|reflexivity|].
    apply follows_ret.
Qed.

Lemma follows_bind {A B} ok1 th1 ok2 th2 (m : M A) (k : A -> M B) :
  follows ok1 th1 m -> (forall a, follows ok2 th2 (k a)) ->
  follows (seq ok1 ok2) (alt th1 (seq ok1 th2)) (bind m k).
Proof.
  intros Hm Hk st r st' E. rewrite bind_eq in E.
  destruct (m st) as [[a|e] st1] eqn:Em;
    destruct (Hm _ _ _ Em) as [evs1 [Hl1 Hin1]].
  - destruct (Hk a _ _ _ E) as [evs2 [Hl2 Hin2]].
    exists (evs1 ++ evs2)%list.
    split; [rewrite Hl2, Hl1, app_assoc; reflexivity|].
    rewrite map_app. destruct r.
    + apply In_seq; assumption.
    + apply in_or_app. right. apply In_seq; assumption.
  - inversion E; subst. exists evs1. split; [exact Hl1|].
    apply in_or_app. left. exact Hin1.
Qed.

Lemma follows_try_catch {A} ok1 th1 ok2 th2 (m : M A) (h : string -> M A) :
  follows ok1 th1 m -> (forall e, follows ok2 th2 (h e)) ->
  follows (alt ok1 (seq th1 ok2)) (seq th1 th2) (try_catch m h).
Proof.
  intros Hm Hh st r st' E. rewrite try_catch_eq in E.
  destruct (m st) as [[a|e] st1] eqn:Em;
    destruct (Hm _ _ _ Em) as [evs1 [Hl1 Hin1]].
  - inversion E; subst. exists evs1. split; [exact Hl1|].
    apply in_or_app. left. exact Hin1.
  - destruct (Hh e _ _ _ E) as [evs2 [Hl2 Hin2]].
    exists (evs1 ++ evs2)%list.
    split; [rewrite Hl2, Hl1, app_assoc; reflexivity|].
    rewrite map_app. destruct r.
    + apply in_or_app. right. apply In_seq; assumption.
    + apply In_seq; assumption.
Qed.

Lemma follows_if {A} ok1 th1 ok2 th2 (c : bool) (a b : M A) :
  follows ok1 th1 a -> follows ok2 th2 b ->
  follows (alt ok1 ok2) (alt th1 th2) (if c then a else b).
Proof.
  intros Ha Hb st r st' E.
  destruct c; [destruct (Ha _ _ _ E) as [evs [Hl Hin]]
              |destruct (Hb _ _ _ E) as [evs [Hl Hin]]];
    exists evs; (split; [exact Hl|]); destruct r; apply in_or_app; auto.
Qed.

Lemma follows_option {A B} ok1 th1 ok2 th2 (o : option B) (f : B -> M A)
    (a : M A) :
  (forall x, follows ok1 th1 (f x)) -> follows ok2 th2 a ->
  follows (alt ok1 ok2) (alt th1 th2)
          (match o with Some x => f x | None => a end).
Proof.
  intros Hf Ha st r st' E.
  destruct o as [x|]; [destruct (Hf x _ _ _ E) as [evs [Hl Hin]]
                      |destruct (Ha _ _ _ E) as [evs [Hl Hin]]];
    exists evs; (split; [exact Hl|]); destruct r; apply in_or_app; auto.
Qed.

Lemma follows_found {A} ok1 th1 ok2 th2 (o : option (nat * Obj))
    (f : nat -> Obj -> M A) (a : M A) :
  (forall i d, follows ok1 th1 (f i d)) -> follows ok2 th2 a ->
  follows (alt ok1 ok2) (alt th1 th2)
          (match o with Some (i, d) => f i d | None => a end).
Proof.
  intros Hf Ha st r st' E.
  destruct o as [[i d]|]; [destruct (Hf i d _ _ _ E) as [evs [Hl Hin]]
                          |destruct (Ha _ _ _ E) as [evs [Hl Hin]]];
    exists evs; (split; [exact Hl|]); destruct r; apply in_or_app; auto.
Qed.

Lemma follows_fs_call {A} w k ev (op : list Obj -> Res A * list Obj) :
  kind ev = k -> follows [[k]] [[]; [k]] (fs_call w ev op).
Proof.
  intros Hk st r st' E. unfold fs_call in E.
  destruct (negb (db_defined w)).
  { inversion E; subst. exists []. rewrite app_nil_r.
    split; [reflexivity|left; reflexivity]. }
  exists [ev]. cbv zeta in E.
  destruct (fs_fails w (fs_calls st)).
  - inversion E; subst. simpl. auto.
  - destruct (op (docs st)) as [x ds']. inversion E; subst.
    destruct r; simpl; auto.
Qed.

Lemma follows_query w path v :
  follows [[KQuery]] [[]; [KQuery]] (query w path v).
Proof. apply follows_fs_call. reflexivity. Qed.

Lemma follows_add w doc : follows [[KWrite]] [[]; [KWrite]] (add w doc).
Proof. apply follows_fs_call. reflexivity. Qed.

Lemma follows_add_ref w doc :
  follows [[KWrite]] [[]; [KWrite]] (add_ref w doc).
Proof. apply follows_fs_call. reflexivity. Qed.

Lemma follows_update w idx fields :
  follows [[KWrite]] [[]; [KWrite]] (update w idx fields).
Proof. apply follows_fs_call. reflexivity. Qed.

Lemma follows_update_saved w docRef fields :
  follows [[]; [KWrite]] [[]; [KWrite]] (update_saved w docRef fields).
Proof.
  destruct docRef as [i|]; simpl.
  - apply (follows_covered [[KWrite]] [[]; [KWrite]]);
      [reflexivity|reflexivity|apply follows_update].
  - apply (follows_covered [[]] []); [reflexivity|reflexivity|].
    apply follows_ret.
Qed.

Lemma follows_fetch_with k ev answer :
  kind ev = k -> follows [[k]] [[k]] (fetch_with ev answer).
Proof.
  intros Hk st r st' E. unfold fetch_with in E.
  rewrite bind_eq, emit_eq in E. cbv beta iota in E.
  exists [ev]. simpl. rewrite Hk.
  destruct answer; rewrite ?ret_eq, ?throw_eq in E; inversion E; subst;
    (split; [reflexivity|left; reflexivity]).
Qed.

Lemma follows_resp_json r : follows [[]] [[]] (resp_json r).
Proof.
  unfold resp_json. destruct (http_json r).
  - apply (follows_covered [[]] []); [reflexivity|reflexivity|].
    apply follows_ret.
  - apply (follows_covered [] [[]]); [reflexivity|reflexivity|].
    apply follows_throw.
Qed.

Lemma follows_fetchKashierSession w s :
  follows [[KVerify]] [[KVerify]] (fetchKashierSession w s).
Proof.
  intros st r st' E. rewrite fetchKashierSession_eq in E.
  inversion E; subst. eexists [_]. split; [reflexivity|].
  destruct (verify_outcome w s); left; reflexivity.
Qed.

Lemma follows_call_toUpperCase v : follows [[]] [[]] (call_toUpperCase v).
Proof.
  unfold call_toUpperCase.
  destruct v;
    try (apply (follows_covered [] [[]]); [reflexivity|reflexivity|];
         apply follows_throw).
  apply (follows_covered [[]] []); [reflexivity|reflexivity|].
  apply follows_ret.
Qed.

Lemma follows_send c v : follows [[]] [[]] (send c v).
Proof.
  intros st r st' E. unfold send in E. inversion E; subst. exists [].
  rewrite app_nil_r. split; [reflexivity|].
  destruct (sent c v); left; reflexivity.
Qed.

(** Walks a handler body along its structure. *)
Ltac follow :=
  cbv zeta;
  lazymatch goal with
  | |- follows _ _ (ret _) => apply follows_ret
  | |- follows _ _ (throw _) => apply follows_throw
  | |- follows _ _ (member _ _) => apply follows_member
  | |- follows _ _ (query _ _ _) => apply follows_query
  | |- follows _ _ (add _ _) => apply follows_add
  | |- follows _ _ (add_ref _ _) => apply follows_add_ref
  | |- follows _ _ (update _ _ _) => apply follows_update
  | |- follows _ _ (update_saved _ _ _) => apply follows_update_saved
  | |- follows _ _ (fetch_with _ _) =>
      eapply follows_fetch_with; cbn [kind]; reflexivity
  | |- follows _ _ (resp_json _) => apply follows_resp_json
  | |- follows _ _ (fetchKashierSession _ _) =>
      apply follows_fetchKashierSession
  | |- follows _ _ (call_toUpperCase _) => apply follows_call_toUpperCase
  | |- follows _ _ (send _ _) => apply follows_send
  | |- follows _ _ (bind _ _) =>
      eapply follows_bind; [follow | intros; follow]
  | |- follows _ _ (try_catch _ _) =>
      eapply follows_try_catch; [follow | intros; follow]
  | |- follows _ _ (match _ with Some _ => _ | None => _ end) =>
      first [ eapply follows_found; [intros; follow | follow]
            | eapply follows_option; [intros; follow | follow] ]
  | |- follows _ _ (if _ then _ else _) =>
      eapply follows_if; [follow | follow]
  | |- follows _ _ (lookup_sessionId _ _ _ _) =>
      unfold lookup_sessionId; follow
  | |- follows _ _ (webhook_resolve _ _) => unfold webhook_resolve; follow
  | |- follows _ _ (webhook_reconcile _ _ _) =>
      unfold webhook_reconcile; follow
  | |- follows _ _ (webhook_verify _ _) => unfold webhook_verify; follow
  | |- follows _ _ (find_payment _ _ _) => unfold find_payment; follow
  | |- follows _ _ (status_found _ _ _ _) => unfold status_found; follow
  | |- follows _ _ (status_create _ _) => unfold status_create; follow
  | |- follows _ _ (fulfill_send _ _ _ _) => unfold fulfill_send; follow
  end.

Ltac protocol :=
  eapply follows_covered; cycle 2;
  [follow | vm_compute; reflexivity | vm_compute; reflexivity].

(** Each handler follows its protocol and catches whatever it throws. *)
Lemma follows_session_handler w b :
  follows session_protocol [] (session_handler w b).
Proof. unfold session_handler. protocol. Qed.

Lemma follows_webhook_handler w b :
  follows webhook_protocol [] (webhook_handler w b).
Proof. unfold webhook_handler. protocol. Qed.

Lemma follows_status_handler w q :
  follows status_protocol [] (status_handler w q).
Proof. unfold status_handler. protocol. Qed.

Lemma follows_fulfill_handler w b :
  follows fulfill_protocol [] (fulfill_handler w b).
Proof. unfold fulfill_handler. protocol. Qed.

Lemma follows_register_handler w b :
  follows register_protocol [] (register_handler w b).
Proof. unfold register_handler. protocol. Qed.

Lemma run_follows l h ds : follows l [] h -> In (calls_of (run h ds)) l.
Proof.
  intros H. unfold calls_of, run.
  destruct (h (mkSt ds [] 0)) as [[r|e] st] eqn:E;
    destruct (H _ _ _ E) as [evs [Hl Hin]]; simpl in Hl, Hin;
    [|contradiction].
  unfold trace_of; cbn [snd]; rewrite Hl; exact Hin.
Qed.

Lemma follows_answers l h : follows l [] h -> answers_within l h.
Proof.
  intros H st. destruct (h st) as [[resp|e] st'] eqn:E;
    destruct (H _ _ _ E) as [evs [Hl Hin]]; [|contradiction].
  exists resp, st', evs. repeat split; assumption.
Qed.

Lemma count_kind_app k l1 l2 :
  count_kind k (l1 ++ l2)%list = (count_kind k l1 + count_kind k l2)%nat.
Proof. unfold count_kind. rewrite filter_app, length_app. reflexivity. Qed.

Lemma count_write_queries qs :
  Forall (fun e => is_query e = true) qs ->
  count_kind KWrite (map kind qs) = 0%nat.
Proof.
  induction 1 as [|e qs He _ IH]; [reflexivity|].
  destruct e; try discriminate. exact IH.
Qed.

Lemma update_calls w idx fields st r st' :
  update w idx fields st = (r, st') ->
  log st' = log st \/ log st' = (log st ++ [EvUpdate idx fields])%list.
Proof.
  rewrite update_eq.
  destruct (negb (db_defined w)); [intros H; inversion H; left; reflexivity|].
  destruct (fs_fails w (fs_calls st));
    [intros H; inversion H; right; reflexivity|].
  destruct (fs_valid (JObj fields)); intros H; inversion H; right;
    reflexivity.
Qed.

Ltac logged :=
  eexists; split;
  [ repeat match goal with H : log _ = _ |- _ => rewrite H; clear H end;
    simpl; rewrite <- ?app_assoc; reflexivity
  | ].

(** The fulfillment of a located document writes at most once, unless it
    ends in a failure. *)
Lemma fulfill_send_writes w idx d sessionId st res st' :
  fulfill_send w idx (JObj d) sessionId st = (res, st') ->
  exists evs,
    log st' = (log st ++ evs)%list /\
    ((count_kind KWrite (map kind evs) <= 1)%nat \/
     match res with Ok r => code r = 500%nat | Throw _ => True end).
Proof.
  intros Hrun.
  set (sid := js_or (prop (JObj d) "sessionId") sessionId) in *.
  destruct (verify_outcome w sid) as [v|err] eqn:Hv.
  2:{ unfold fulfill_send in Hrun. cbv zeta in Hrun. fold sid in Hrun.
      rewrite bind_eq, try_catch_eq, bind_eq, fetchKashierSession_eq, Hv
        in Hrun.
      cbv beta iota in Hrun. rewrite !ret_eq in Hrun.
      inversion Hrun; subst. logged. right. reflexivity. }
  destruct (nullish v) eqn:Hn.
  { unfold fulfill_send in Hrun. cbv zeta in Hrun. fold sid in Hrun.
    rewrite bind_eq, try_catch_eq, bind_eq, fetchKashierSession_eq, Hv
      in Hrun.
    cbv beta iota in Hrun. rewrite ret_eq in Hrun. cbv beta iota in Hrun.
    rewrite bind_eq in Hrun. unfold member at 1 in Hrun.
    rewrite Hn, throw_eq in Hrun. inversion Hrun; subst.
    logged. right. exact I. }
  destruct (includes successStates (status_of v)) eqn:Hinc;
    [destruct (truthy (receipt_email (JObj d))) eqn:Hemail|].
  - pose proof (fulfill_send_dispatch w idx d sessionId v st Hv Hn Hinc
                  Hemail) as Heq.
    cbv zeta in Heq. fold sid in Heq. rewrite Heq in Hrun. clear Heq.
    set (payload := receipt_payload w (JObj d) (receipt_user (JObj d))
                      (receipt_email (JObj d))) in *.
    destruct (appscript_post w (APPSCRIPT_URL w) payload) as [resp|].
    + destruct (update w idx (receipt_fields w v resp) _)
        as [[u|e1] st3] eqn:Hu1.
      * inversion Hrun; subst.
        destruct (update_calls _ _ _ _ _ _ Hu1) as [Hl1|Hl1];
          logged; left; simpl; auto.
      * destruct (update_trace _ _ _ _ _ _ Hu1) as [ev1 [Hl1 _]].
        destruct (update w idx (fulfill_verified_fields w v) st3)
          as [[u|e2] st4] eqn:Hu2;
          destruct (update_trace _ _ _ _ _ _ Hu2) as [ev2 [Hl2 _]];
          inversion Hrun; subst; logged; right; [reflexivity|exact I].
    + destruct (update w idx (fulfill_verified_fields w v) _)
        as [[u|e2] st3] eqn:Hu2;
        destruct (update_trace _ _ _ _ _ _ Hu2) as [ev2 [Hl2 _]];
        inversion Hrun; subst; logged; right; [reflexivity|exact I].
  - rewrite (fulfill_send_verified w idx d sessionId v st Hv Hn
               (or_intror Hemail)) in Hrun.
    fold sid in Hrun.
    destruct (update w idx (fulfill_verified_fields w v) _)
      as [[u|e2] st3] eqn:Hu2;
      destruct (update_calls _ _ _ _ _ _ Hu2) as [Hl2|Hl2];
      inversion Hrun; subst; logged; left; simpl; auto.
  - rewrite (fulfill_send_verified w idx d sessionId v st Hv Hn
               (or_introl Hinc)) in Hrun.
    fold sid in Hrun.
    destruct (update w idx (fulfill_verified_fields w v) _)
      as [[u|e2] st3] eqn:Hu2;
      destruct (update_calls _ _ _ _ _ _ Hu2) as [Hl2|Hl2];
      inversion Hrun; subst; logged; left; simpl; auto.
Qed.

(** A fulfillment that writes twice ends in a failure. *)
Lemma fulfill_second_write w b ds :
  let r := run (fulfill_handler w b) ds in
  (2 <= count_kind KWrite (calls_of r))%nat -> code (response_of r) = 500%nat.
Proof.
  cbv zeta. rewrite (fulfill_run_eq w b ds). cbv zeta.
  set (moid := body_merchantOrderId b). set (sid := body_sessionId b).
  destruct (negb (truthy moid) && negb (truthy sid));
    [unfold calls_of, trace_of, count_kind; simpl; lia|].
  destruct (find_payment w moid sid (mkSt ds [] 0))
    as [[[[idx d]|]|err] st1] eqn:Hf;
    destruct (emits_find_payment _ _ _ _ _ _ Hf) as [qs [Hl1 Hq1]];
    simpl in Hl1;
    try (unfold calls_of, trace_of; cbn [snd]; rewrite Hl1;
         rewrite (count_write_queries qs Hq1); lia).
  destruct (truthy (prop (JObj d) "receiptSent")).
  { unfold calls_of, trace_of; cbn [snd]; rewrite Hl1;
      rewrite (count_write_queries qs Hq1); lia. }
  destruct (fulfill_send w idx (JObj d) sid st1) as [res st2] eqn:Hs.
  destruct (fulfill_send_writes w idx d sid st1 res st2 Hs)
    as [evs [Hl2 [Hle|H500]]].
  - unfold calls_of. rewrite finish_trace. cbn [snd].
    rewrite Hl2, Hl1, map_app, count_kind_app,
      (count_write_queries qs Hq1).
    lia.
  - intros _. destruct res as [r|e]; [exact H500|reflexivity].
Qed.

(** With Firestore answering and JSON from the gateway, the first write
    after a dispatch succeeds, and the fulfillment writes once at most. *)
Lemma fulfill_send_writes_up w idx d sessionId st res st' :
  firestore_up w ->
  (forall s v, verify_outcome w s = Ok v -> fs_valid v = true) ->
  fulfill_send w idx (JObj d) sessionId st = (res, st') ->
  exists evs,
    log st' = (log st ++ evs)%list /\
    (count_kind KWrite (map kind evs) <= 1)%nat.
Proof.
  intros [Hdb Hfs] Hjson Hrun.
  set (sid := js_or (prop (JObj d) "sessionId") sessionId) in *.
  destruct (verify_outcome w sid) as [v|err] eqn:Hv.
  2:{ unfold fulfill_send in Hrun. cbv zeta in Hrun. fold sid in Hrun.
      rewrite bind_eq, try_catch_eq, bind_eq, fetchKashierSession_eq, Hv
        in Hrun.
      cbv beta iota in Hrun. rewrite !ret_eq in Hrun.
      inversion Hrun; subst. logged. simpl. auto. }
  destruct (nullish v) eqn:Hn.
  { unfold fulfill_send in Hrun. cbv zeta in Hrun. fold sid in Hrun.
    rewrite bind_eq, try_catch_eq, bind_eq, fetchKashierSession_eq, Hv
      in Hrun.
    cbv beta iota in Hrun. rewrite ret_eq in Hrun. cbv beta iota in Hrun.
    rewrite bind_eq in Hrun. unfold member at 1 in Hrun.
    rewrite Hn, throw_eq in Hrun. inversion Hrun; subst.
    logged. simpl. auto. }
  destruct (includes successStates (status_of v)) eqn:Hinc;
    [destruct (truthy (receipt_email (JObj d))) eqn:Hemail|].
  - pose proof (fulfill_send_dispatch w idx d sessionId v st Hv Hn Hinc
                  Hemail) as Heq.
    cbv zeta in Heq. fold sid in Heq. rewrite Heq in Hrun. clear Heq.
    set (payload := receipt_payload w (JObj d) (receipt_user (JObj d))
                      (receipt_email (JObj d))) in *.
    destruct (fulfill_fields_valid w v (Hjson sid v Hv) Hn Hinc)
      as [_ Hvalid].
    destruct (appscript_post w (APPSCRIPT_URL w) payload) as [resp|].
    + rewrite update_eq, Hdb, Hfs, (Hvalid resp) in Hrun.
      cbn [negb] in Hrun. inversion Hrun; subst. logged. simpl. auto.
    + destruct (update w idx (fulfill_verified_fields w v) _)
        as [[u|e2] st3] eqn:Hu2;
        destruct (update_calls _ _ _ _ _ _ Hu2) as [Hl2|Hl2];
        inversion Hrun; subst; logged; simpl; auto.
  - rewrite (fulfill_send_verified w idx d sessionId v st Hv Hn
               (or_intror Hemail)) in Hrun.
    fold sid in Hrun.
    destruct (update w idx (fulfill_verified_fields w v) _)
      as [[u|e2] st3] eqn:Hu2;
      destruct (update_calls _ _ _ _ _ _ Hu2) as [Hl2|Hl2];
      inversion Hrun; subst; logged; simpl; auto.
  - rewrite (fulfill_send_verified w idx d sessionId v st Hv Hn
               (or_introl Hinc)) in Hrun.
    fold sid in Hrun.
    destruct (update w idx (fulfill_verified_fields w v) _)
      as [[u|e2] st3] eqn:Hu2;
      destruct (update_calls _ _ _ _ _ _ Hu2) as [Hl2|Hl2];
      inversion Hrun; subst; logged; simpl; auto.
Qed.

Lemma fulfill_single_write w b ds :
  firestore_up w ->
  (forall s v, verify_outcome w s = Ok v -> fs_valid v = true) ->
  (count_kind KWrite (calls_of (run (fulfill_handler w b) ds)) <= 1)%nat.
Proof.
  intros Hup Hjson. rewrite (fulfill_run_eq w b ds). cbv zeta.
  set (moid := body_merchantOrderId b). set (sid := body_sessionId b).
  destruct (negb (truthy moid) && negb (truthy sid));
    [unfold calls_of, trace_of, count_kind; simpl; lia|].
  destruct (find_payment w moid sid (mkSt ds [] 0))
    as [[[[idx d]|]|err] st1] eqn:Hf;
    destruct (emits_find_payment _ _ _ _ _ _ Hf) as [qs [Hl1 Hq1]];
    simpl in Hl1;
    try (unfold calls_of, trace_of; cbn [snd]; rewrite Hl1;
         rewrite (count_write_queries qs Hq1); lia).
  destruct (truthy (prop (JObj d) "receiptSent")).
  { unfold calls_of, trace_of; cbn [snd]; rewrite Hl1;
      rewrite (count_write_queries qs Hq1); lia. }
  destruct (fulfill_send w idx (JObj d) sid st1) as [res st2] eqn:Hs.
  destruct (fulfill_send_writes_up w idx d sid st1 res st2 Hup Hjson Hs)
    as [evs [Hl2 Hle]].
  unfold calls_of. rewrite finish_trace. cbn [snd].
  rewrite Hl2, Hl1, map_app, count_kind_app, (count_write_queries qs Hq1).
  lia.
Qed.

(** X10: the order of the outbound calls of a payment request, from every
    state of the store.  Session creation calls the provider and then, at
    most once, writes.  The webhook makes up to two lookups, then verifies
    with the gateway, then queries by session and writes at most once.  The
    status endpoint makes up to two lookups, then verifies and writes at
    most once.  The fulfillment makes up to two lookups, verifies, and
    then either writes once or dispatches the receipt and writes; it
    writes a second time only when the first write failed: never when
    Firestore answers every call and the gateway's answers are JSON, and
    a request with two writes is answered 500.  Every handler returns a
    response: none lets an exception escape. *)
Theorem payment_call_order w b :
  answers_within session_protocol (session_handler w b) /\
  answers_within webhook_protocol (webhook_handler w b) /\
  answers_within status_protocol (status_handler w b) /\
  answers_within fulfill_protocol (fulfill_handler w b) /\
  (forall ds,
     let r := run (fulfill_handler w b) ds in
     ((2 <= count_kind KWrite (calls_of r))%nat ->
      code (response_of r) = 500%nat) /\
     (firestore_up w ->
      (forall s v, verify_outcome w s = Ok v -> fs_valid v = true) ->
      (count_kind KWrite (calls_of r) <= 1)%nat)).
Proof.
  split; [apply follows_answers, follows_session_handler|].
  split; [apply follows_answers, follows_webhook_handler|].
  split; [apply follows_answers, follows_status_handler|].
  split; [apply follows_answers, follows_fulfill_handler|].
  intros ds. split;
    [apply fulfill_second_write|apply fulfill_single_write].
Qed.

Lemma protocol_check (P : list Kind -> bool) l x :
  In x l -> forallb P l = true -> P x = true.
Proof. intros Hx H. rewrite forallb_forall in H. exact (H x Hx). Qed.

Lemma kind_write e : is_store_write e = true -> kind e = KWrite.
Proof. destruct e; simpl; congruence. Qed.

Lemma writes_after_sound k evs :
  forall seen,
    writes_after k seen (map kind evs) = true ->
    forall pre e post,
      evs = (pre ++ e :: post)%list -> is_store_write e = true ->
      seen = true \/ exists e', In e' pre /\ kind e' = k.
Proof.
  induction evs as [|x evs IH]; intros seen H pre e post Heq Hw.
  - destruct pre; discriminate.
  - simpl in H. apply andb_true_iff in H. destruct H as [H1 H2].
    destruct pre as [|y pre]; simpl in Heq; inversion Heq; subst.
    + rewrite (kind_write _ Hw) in H1. simpl in H1. left. exact H1.
    + destruct (IH _ H2 pre e post eq_refl Hw) as [Hs|[e' [Hin Hk]]].
      * apply orb_true_iff in Hs. destruct Hs as [Hs|Hs]; [left; exact Hs|].
        right. exists y. split; [left; reflexivity|].
        apply Kind_eqb_eq in Hs. exact Hs.
      * right. exists e'. split; [right; exact Hin|exact Hk].
Qed.

Lemma write_follows_check k l h ds :
  follows l [] h -> forallb (writes_after k false) l = true ->
  write_follows k (trace_of (run h ds)).
Proof.
  intros Hf Hall pre e post Heq Hw.
  pose proof (protocol_check _ _ _ (run_follows l h ds Hf) Hall) as Hc.
  unfold calls_of in Hc.
  destruct (writes_after_sound k _ _ Hc pre e post Heq Hw) as [H|H];
    [discriminate|exact H].
Qed.

(** X11: what a payment request never does.  It calls the gateway at most
    once; it writes to the store only after that call went out, and at most
    once (the fulfillment a second time only when the first write failed);
    the session, webhook and status endpoints dispatch nothing, and the
    fulfillment dispatches at most one receipt. *)
Theorem payment_call_bounds w b ds :
  let s := run (session_handler w b) ds in
  let n := run (webhook_handler w b) ds in
  let q := run (status_handler w b) ds in
  let f := run (fulfill_handler w b) ds in
  (within 0 1 0 1 (calls_of s) = true /\ write_follows KCreate (trace_of s)) /\
  (within 1 0 0 1 (calls_of n) = true /\ write_follows KVerify (trace_of n)) /\
  (within 1 0 0 1 (calls_of q) = true /\ write_follows KVerify (trace_of q)) /\
  (within 1 0 1 2 (calls_of f) = true /\ write_follows KVerify (trace_of f)).
Proof.
  cbv zeta. repeat split.
  - apply (protocol_check _ session_protocol);
      [apply run_follows, follows_session_handler|reflexivity].
  - apply (write_follows_check _ session_protocol);
      [apply follows_session_handler|reflexivity].
  - apply (protocol_check _ webhook_protocol);
      [apply run_follows, follows_webhook_handler|reflexivity].
  - apply (write_follows_check _ webhook_protocol);
      [apply follows_webhook_handler|reflexivity].
  - apply (protocol_check _ status_protocol);
      [apply run_follows, follows_status_handler|reflexivity].
  - apply (write_follows_check _ status_protocol);
      [apply follows_status_handler|reflexivity].
  - apply (protocol_check _ fulfill_protocol);
      [apply run_follows, follows_fulfill_handler|reflexivity].
  - apply (write_follows_check _ fulfill_protocol);
      [apply follows_fulfill_handler|reflexivity].
Qed.

(* ================================================================== *)
(** ** Stored payments are never lost *)
(* ================================================================== *)

Lemma same_keys_refl d : same_keys d d.
Proof. repeat split. Qed.

Lemma same_keys_trans a b c : same_keys a b -> same_keys b c -> same_keys a c.
Proof.
  intros [H1 [H2 H3]] [H4 [H5 H6]].
  repeat split; etransitivity; eassumption.
Qed.

Lemma same_keys_merge d fields :
  assoc "sessionId" fields = None ->
  assoc "merchantOrderId" fields = None ->
  assoc "response" fields = None ->
  same_keys d (obj_merge d fields).
Proof.
  intros H1 H2 H3.
  repeat split; symmetry; apply assoc_obj_merge_other; assumption.
Qed.

Lemma preserved_refl ds : preserved ds ds.
Proof.
  split; [apply Nat.le_refl|]. intros d Hd. exists d.
  split; [exact Hd|apply same_keys_refl].
Qed.

Lemma preserved_trans a b c : preserved a b -> preserved b c -> preserved a c.
Proof.
  intros [L1 H1] [L2 H2]. split; [exact (Nat.le_trans _ _ _ L1 L2)|].
  intros d Hd. destruct (H1 d Hd) as [d1 [Hd1 K1]].
  destruct (H2 d1 Hd1) as [d2 [Hd2 K2]].
  exists d2. split; [exact Hd2|exact (same_keys_trans _ _ _ K1 K2)].
Qed.

Lemma preserved_insert n x ds : preserved ds (list_insert_at n x ds).
Proof.
  split.
  - revert n. induction ds as [|y ds IH]; intros [|n]; simpl;
      try (apply Nat.le_succ_diag_r); try apply Nat.le_0_l.
    apply le_n_S. apply IH.
  - intros d Hd. exists d. split; [|apply same_keys_refl].
    revert n. induction ds as [|y ds IH]; intros n; [destruct Hd|].
    destruct n as [|n]; simpl; [right; exact Hd|].
    destruct Hd as [Hd|Hd]; [left; exact Hd|right; apply IH; exact Hd].
Qed.

Lemma preserved_update i f ds :
  (forall d, same_keys d (f d)) -> preserved ds (list_update_at i f ds).
Proof.
  intros Hf. split.
  - revert i. induction ds as [|y ds IH]; intros [|i]; simpl;
      try apply Nat.le_refl.
    apply le_n_S. apply IH.
  - revert i. induction ds as [|y ds IH]; intros i d Hd; [destruct Hd|].
    destruct i as [|i]; simpl.
    + destruct Hd as [Hd|Hd].
      * subst y. exists (f d). split; [left; reflexivity|apply Hf].
      * exists d. split; [right; exact Hd|apply same_keys_refl].
    + destruct Hd as [Hd|Hd].
      * exists d. split; [left; exact Hd|apply same_keys_refl].
      * destruct (IH i d Hd) as [d' [Hin Hk]].
        exists d'. split; [right; exact Hin|exact Hk].
Qed.

Lemma preserving_keeps {A} (m : M A) : keeps_docs m -> preserving m.
Proof.
  intros H st r st' E. rewrite (H _ _ _ E). apply preserved_refl.
Qed.

Lemma preserving_bind {A B} (m : M A) (k : A -> M B) :
  preserving m -> (forall a, preserving (k a)) -> preserving (bind m k).
Proof.
  intros Hm Hk st r st' E. rewrite bind_eq in E.
  destruct (m st) as [[a|e] st1] eqn:Em.
  - exact (preserved_trans _ _ _ (Hm _ _ _ Em) (Hk a _ _ _ E)).
  - inversion E; subst. exact (Hm _ _ _ Em).
Qed.

Lemma preserving_try_catch {A} (m : M A) (h : string -> M A) :
  preserving m -> (forall e, preserving (h e)) -> preserving (try_catch m h).
Proof.
  intros Hm Hh st r st' E. rewrite try_catch_eq in E.
  destruct (m st) as [[a|e] st1] eqn:Em.
  - inversion E; subst. exact (Hm _ _ _ Em).
  - exact (preserved_trans _ _ _ (Hm _ _ _ Em) (Hh e _ _ _ E)).
Qed.

Lemma preserving_add w doc : preserving (add w doc).
Proof.
  intros st r st' E. rewrite add_eq in E.
  destruct (negb (db_defined w));
    [inversion E; subst; apply preserved_refl|].
  destruct (fs_fails w (fs_calls st));
    [inversion E; subst; apply preserved_refl|].
  destruct (fs_valid (JObj doc)); inversion E; subst;
    [apply preserved_insert|apply preserved_refl].
Qed.

Lemma preserving_update w idx fields :
  assoc "sessionId" fields = None ->
  assoc "merchantOrderId" fields = None ->
  assoc "response" fields = None ->
  preserving (update w idx fields).
Proof.
  intros H1 H2 H3 st r st' E. rewrite update_eq in E.
  destruct (negb (db_defined w));
    [inversion E; subst; apply preserved_refl|].
  destruct (fs_fails w (fs_calls st));
    [inversion E; subst; apply preserved_refl|].
  destruct (fs_valid (JObj fields)); inversion E; subst;
    [|apply preserved_refl].
  apply preserved_update. intros d. apply same_keys_merge; assumption.
Qed.

Lemma keeps_fetch_with ev answer : keeps_docs (fetch_with ev answer).
Proof.
  unfold fetch_with. apply keeps_bind; [apply keeps_emit|].
  intros _. destruct answer; [apply keeps_ret|apply keeps_throw].
Qed.

Lemma keeps_resp_json r : keeps_docs (resp_json r).
Proof.
  unfold resp_json. destruct (http_json r); [apply keeps_ret|apply keeps_throw].
Qed.

Lemma keeps_call_toUpperCase v : keeps_docs (call_toUpperCase v).
Proof.
  unfold call_toUpperCase. destruct v; try apply keeps_throw. apply keeps_ret.
Qed.

(** Walks a handler body along its structure. *)
Ltac preserve :=
  cbv zeta;
  lazymatch goal with
  | |- preserving (ret _) => apply preserving_keeps, keeps_ret
  | |- preserving (throw _) => apply preserving_keeps, keeps_throw
  | |- preserving (member _ _) => apply preserving_keeps, keeps_member
  | |- preserving (query _ _ _) => apply preserving_keeps, keeps_query
  | |- preserving (find_payment _ _ _) =>
      apply preserving_keeps, keeps_find_payment
  | |- preserving (webhook_resolve _ _) =>
      apply preserving_keeps, keeps_webhook_resolve
  | |- preserving (fetch_with _ _) => apply preserving_keeps, keeps_fetch_with
  | |- preserving (resp_json _) => apply preserving_keeps, keeps_resp_json
  | |- preserving (fetchKashierSession _ _) =>
      apply preserving_keeps, keeps_fetchKashierSession
  | |- preserving (call_toUpperCase _) =>
      apply preserving_keeps, keeps_call_toUpperCase
  | |- preserving (add _ _) => apply preserving_add
  | |- preserving (update _ _ _) => apply preserving_update; reflexivity
  | |- preserving (bind _ _) =>
      apply preserving_bind; [preserve | intros; preserve]
  | |- preserving (try_catch _ _) =>
      apply preserving_try_catch; [preserve | intros; preserve]
  | |- preserving (match ?o with Some _ => _ | None => _ end) =>
      destruct o as [?|]; preserve
  | |- preserving (let (_, _) := ?p in _) => destruct p; preserve
  | |- preserving (if ?c then _ else _) => destruct c; preserve
  | |- preserving (webhook_reconcile _ _ _) =>
      unfold webhook_reconcile; preserve
  | |- preserving (webhook_verify _ _) => unfold webhook_verify; preserve
  | |- preserving (status_found _ _ _ _) => unfold status_found; preserve
  | |- preserving (status_create _ _) => unfold status_create; preserve
  | |- preserving (fulfill_send _ _ _ _) => unfold fulfill_send; preserve
  end.

Lemma run_preserving h ds : preserving h -> preserved ds (docs_of (run h ds)).
Proof.
  intros H. unfold run.
  destruct (h (mkSt ds [] 0)) as [[r|e] st] eqn:E;
    exact (H _ _ _ E).
Qed.

(** X12: no request to a payment endpoint removes a stored payment or
    changes the fields by which payments are looked up ([sessionId],
    [merchantOrderId] and the stored provider [response]): every payment in
    the collection before the request is still there afterwards with these
    fields as they were, and the collection has not shrunk. *)
Theorem payments_never_lost w b ds :
  preserved ds (docs_of (run (session_handler w b) ds)) /\
  preserved ds (docs_of (run (webhook_handler w b) ds)) /\
  preserved ds (docs_of (run (status_handler w b) ds)) /\
  preserved ds (docs_of (run (fulfill_handler w b) ds)).
Proof.
  split; [apply run_preserving; unfold session_handler; preserve|].
  split; [apply run_preserving; unfold webhook_handler; preserve|].
  split; [apply run_preserving; unfold status_handler; preserve|].
  apply run_preserving. unfold fulfill_handler. preserve.
Qed.

(* ================================================================== *)
(** ** Records that a later request finds *)
(* ================================================================== *)

Lemma find_from_insert i p (x : Obj) n l :
  find_from i p l = None -> p x = true ->
  find_from i p (list_insert_at n x l) = Some ((i + insert_pos n l)%nat, x).
Proof.
  revert i n. induction l as [|y l IH]; intros i n Hnone Hx.
  - destruct n; simpl; rewrite Hx, Nat.add_0_r; reflexivity.
  - simpl in Hnone. destruct (p y) eqn:Hy; [discriminate|].
    destruct n as [|n]; simpl.
    + rewrite Hx, Nat.add_0_r. reflexivity.
    + rewrite Hy, (IH (S i) n Hnone Hx). unfold insert_pos. simpl.
      rewrite Nat.add_succ_r. reflexivity.
Qed.

Lemma find_doc_insert path v (x : Obj) n ds :
  find_doc path v ds = None -> doc_matches path v x = true ->
  find_doc path v (list_insert_at n x ds) = Some (insert_pos n ds, x).
Proof.
  intros Hnone Hx. unfold find_doc.
  rewrite (find_from_insert 0 _ x n ds Hnone Hx). reflexivity.
Qed.

Lemma webhook_resolve_direct w evt st :
  truthy (direct_sessionId evt) = true ->
  webhook_resolve w evt st = (Ok (direct_sessionId evt), st).
Proof.
  intros H. unfold webhook_resolve. cbv zeta. rewrite H. reflexivity.
Qed.

Lemma webhook_reconcile_missing w s v st :
  nullish v = false ->
  db_defined w = true ->
  fs_fails w (fs_calls st) = false ->
  fs_valid s = true ->
  find_doc ["sessionId"] s (docs st) = None ->
  webhook_reconcile w s v st =
  match add w (webhook_record w s v)
          (after_call st (EvQuery ["sessionId"] s)) with
  | (Ok _, st2) => (Ok (text 200 "OK"), st2)
  | (Throw e, st2) => (Throw e, st2)
  end.
Proof.
  intros Hn Hdb Hfs Hval Hfind.
  unfold webhook_reconcile, bind.
  rewrite (member_ok v "data" st Hn).
  fold (payment_of v).
  rewrite (member_ok (payment_of v) "status" st (payment_not_nullish v Hn)).
  fold (status_of v).
  rewrite query_eq, Hdb, Hfs, Hval, Hfind. cbn [negb].
  fold (webhook_record w s v).
  destruct (add w (webhook_record w s v)
              (after_call st (EvQuery ["sessionId"] s))) as [[u|e] st2];
    reflexivity.
Qed.

Lemma string_truthy s : s <> "" -> truthy (JStr s) = true.
Proof.
  intros H. unfold truthy. destruct (String.eqb_spec s ""); [contradiction|].
  reflexivity.
Qed.

(** X13: a notification for a session that has no stored payment creates
    one, and the same notification delivered again finds that record and
    writes nothing: the verified status is the one already stored.  (The
    session identifier is a string carried by the body; Firestore answers;
    the verified status is a JSON scalar.) *)
Theorem webhook_creates_once w b ds sid v :
  firestore_up w ->
  direct_sessionId (js_or b (JObj [])) = JStr sid ->
  sid <> "" ->
  verify_outcome w (JStr sid) = Ok v ->
  nullish v = false ->
  fs_valid (JObj (webhook_record w (JStr sid) v)) = true ->
  json_scalar (status_of v) ->
  find_doc ["sessionId"] (JStr sid) ds = None ->
  let record := webhook_record w (JStr sid) v in
  let r1 := run (webhook_handler w b) ds in
  let r2 := run (webhook_handler w b) (docs_of r1) in
  response_of r1 = text 200 "OK" /\
  docs_of r1 = list_insert_at (add_pos w) record ds /\
  filter is_store_write (trace_of r1) = [EvAdd record] /\
  find_doc ["sessionId"] (JStr sid) (docs_of r1) =
    Some (insert_pos (add_pos w) ds, record) /\
  response_of r2 = text 200 "OK" /\
  docs_of r2 = docs_of r1 /\
  filter is_store_write (trace_of r2) = [].
Proof.
  intros Hup Hdirect Hne Hv Hn Hval Hscalar Hnone. cbv zeta.
  pose proof Hup as [Hdb Hfs].
  pose proof (string_truthy sid Hne) as Ht.
  assert (Hres : forall ds0,
            webhook_resolve w (js_or b (JObj [])) (mkSt ds0 [] 0) =
            (Ok (JStr sid), mkSt ds0 [] 0)).
  { intros ds0. rewrite webhook_resolve_direct; rewrite Hdirect;
      [reflexivity|exact Ht]. }
  assert (Hfound :
    find_doc ["sessionId"] (JStr sid)
      (list_insert_at (add_pos w) (webhook_record w (JStr sid) v) ds) =
    Some (insert_pos (add_pos w) ds, webhook_record w (JStr sid) v)).
  { apply find_doc_insert; [exact Hnone|].
    unfold doc_matches, webhook_record. simpl. apply String.eqb_refl. }
  assert (Hr1 :
    run (webhook_handler w b) ds =
    (text 200 "OK",
     list_insert_at (add_pos w) (webhook_record w (JStr sid) v) ds,
     [ EvKashierGet (kashier_session_url w (JStr sid));
       EvQuery ["sessionId"] (JStr sid);
       EvAdd (webhook_record w (JStr sid) v) ])).
  { rewrite (webhook_run_eq w b ds _ _ (Hres ds)).
    rewrite (webhook_verify_eq w _ _ Ht), Hv.
    rewrite (webhook_reconcile_missing w (JStr sid) v
               (after_fetch (mkSt ds [] 0) _) Hn Hdb (Hfs _) eq_refl Hnone).
    rewrite add_eq, Hdb, Hfs, Hval. reflexivity. }
  rewrite Hr1. unfold response_of, docs_of, trace_of. cbn [fst snd].
  split; [reflexivity|]. split; [reflexivity|]. split; [reflexivity|].
  split; [exact Hfound|].
  rewrite (webhook_run_eq w b _ _ _ (Hres _)).
  rewrite (webhook_verify_eq w _ _ Ht), Hv.
  rewrite (webhook_reconcile_found w (JStr sid) v
             (after_fetch (mkSt _ [] 0) _) _ _ Hn Hdb (Hfs _) eq_refl Hfound).
  assert (Hsame : strict_eqb
                    (prop (JObj (webhook_record w (JStr sid) v)) "status")
                    (status_of v) = true).
  { change (prop (JObj (webhook_record w (JStr sid) v)) "status")
      with (status_of v).
    exact (strict_eqb_refl _ Hscalar). }
  rewrite Hsame. repeat split.
Qed.

Lemma js_or_null_truthy a v :
  js_or a JNull = v -> v <> JNull -> truthy v = true.
Proof.
  unfold js_or. destruct (truthy a) eqn:Ha; intros H Hv; subst;
    [exact Ha|contradiction].
Qed.

Lemma webhook_reconcile_trace w s v st res st' :
  webhook_reconcile w s v st = (res, st') ->
  exists evs, log st' = (log st ++ evs)%list.
Proof.
  intros H. destruct (emits_webhook_reconcile w s v _ _ _ H) as [evs [Hl _]].
  exists evs. exact Hl.
Qed.

(** X14: the record a session creation stores is found by the webhook's
    fallback.  After a session was created and stored for an order that no
    earlier payment has, a notification that carries no session identifier
    but that order's [merchantOrderId] resolves to the stored session, and
    the webhook verifies that session with the gateway. *)
Theorem session_record_found_by_order w b ds resp data o n :
  firestore_up w ->
  num_gt0 (js_Number (prop (js_or b (JObj [])) "amount")) = true ->
  truthy (prop (js_or b (JObj [])) "merchantRedirect") = true ->
  kashier_post w (session_endpoint w) (session_payload w (js_or b (JObj [])))
    = Some resp ->
  resp_ok resp = true ->
  http_json resp = Some data ->
  nullish data = false ->
  let b' := js_or b (JObj []) in
  let record :=
    session_record w b' (session_payload w b') data (prop data "_id") in
  fs_valid (JObj record) = true ->
  prop (JObj record) "merchantOrderId" = JStr o ->
  truthy (prop (JObj record) "sessionId") = true ->
  find_doc ["merchantOrderId"] (JStr o) ds = None ->
  json_or_undefined n ->
  truthy (direct_sessionId (js_or n (JObj []))) = false ->
  evt_merchantOrderId (js_or n (JObj [])) = JStr o ->
  let r := run (session_handler w b) ds in
  let r2 := run (webhook_handler w n) (docs_of r) in
  docs_of r = list_insert_at (add_pos w) record ds /\
  resolve_spec (js_or n (JObj [])) (docs_of r) =
    Some (prop (JObj record) "sessionId") /\
  In (EvKashierGet (kashier_session_url w (prop (JObj record) "sessionId")))
     (trace_of r2).
Proof.
  intros Hup Hamount Hredirect Hpost Hok Hjson Hn.
  cbv zeta. intros Hval Horder Hsid Hnone Hnjson Hdirect Hmoid.
  pose proof Hup as [Hdb Hfs].
  set (b' := js_or b (JObj [])) in *.
  set (record := session_record w b' (session_payload w b') data
                   (prop data "_id")) in *.
  assert (Hdocs : docs_of (run (session_handler w b) ds) =
                  list_insert_at (add_pos w) record ds).
  { pose proof (session_run_valid w b ds (num_gt0_truthy _ Hamount) Hredirect
                  (num_gt0_not_le0 _ Hamount)) as Hrun.
    cbv zeta in Hrun. fold b' in Hrun. rewrite Hrun, Hpost, Hjson, Hok, Hn.
    cbn [negb]. fold record. rewrite Hdb, Hfs, Hval. reflexivity. }
  assert (Hto : truthy (JStr o) = true).
  { apply (js_or_null_truthy _ _ Hmoid). discriminate. }
  assert (Hfound :
    find_doc ["merchantOrderId"] (JStr o)
      (list_insert_at (add_pos w) record ds) =
    Some (insert_pos (add_pos w) ds, record)).
  { apply find_doc_insert; [exact Hnone|].
    unfold doc_matches. cbn [field_at].
    unfold prop in Horder.
    destruct (assoc "merchantOrderId" record) as [x|];
      [|discriminate].
    subst x. simpl. apply String.eqb_refl. }
  assert (Hspec :
    resolve_spec (js_or n (JObj [])) (list_insert_at (add_pos w) record ds) =
    Some (prop (JObj record) "sessionId")).
  { unfold resolve_spec, first_match, by_direct, by_merchantOrderId.
    rewrite Hdirect, Hmoid, Hto, Hfound. unfold session_of_found.
    rewrite Hsid. reflexivity. }
  rewrite Hdocs. split; [reflexivity|]. split; [exact Hspec|].
  pose proof (webhook_resolve_spec w (js_or n (JObj []))
                (list_insert_at (add_pos w) record ds) Hup
                (json_body _ Hnjson)) as Hres.
  rewrite Hspec in Hres.
  rewrite (webhook_run_eq w n _ _ _ Hres).
  rewrite (webhook_verify_eq w _ _ Hsid), finish_trace.
  destruct (verify_outcome w (prop (JObj record) "sessionId")) as [v|e].
  - destruct (webhook_reconcile w _ v _) as [res st'] eqn:Hrec.
    destruct (webhook_reconcile_trace _ _ _ _ _ _ Hrec) as [evs Hl].
    cbn [snd]. rewrite Hl. cbn [log after_fetch].
    apply in_or_app. left. apply in_or_app. right. left. reflexivity.
  - cbn [snd log after_fetch]. apply in_or_app. right. left. reflexivity.
Qed.

(* ================================================================== *)
(** ** The direct-only webhook *)
(* ================================================================== *)

Lemma direct_sessionId_truthy evt :
  truthy (direct_sessionId evt) = true ->
  js_or (js_or (prop evt "sessionId") (prop evt "_id"))
        (js_and (prop evt "data") (prop (prop evt "data") "sessionId"))
  = direct_sessionId evt.
Proof.
  unfold direct_sessionId.
  set (x := js_or (js_or (prop evt "sessionId") (prop evt "_id"))
                  (js_and (prop evt "data") (prop (prop evt "data") "sessionId"))).
  unfold js_or. destruct (truthy x); [reflexivity|discriminate].
Qed.

Lemma direct_sessionId_falsy_raw evt :
  truthy (direct_sessionId evt) = false ->
  truthy (js_or (js_or (prop evt "sessionId") (prop evt "_id"))
                (js_and (prop evt "data") (prop (prop evt "data") "sessionId")))
  = false.
Proof.
  unfold direct_sessionId.
  set (x := js_or (js_or (prop evt "sessionId") (prop evt "_id"))
                  (js_and (prop evt "data") (prop (prop evt "data") "sessionId"))).
  unfold js_or. destruct (truthy x) eqn:E; [congruence|reflexivity].
Qed.

(** X15: the webhook of the second payment file against the one with the
    correlation fallback.  On a notification that carries a session
    identifier the two behave alike: same answer, same store, same calls.
    On any other notification the direct-only webhook answers 400 "missing
    sessionId" without a single call, whatever the store holds. *)
Theorem webhook_direct_variant w b ds :
  let evt := js_or b (JObj []) in
  (truthy (direct_sessionId evt) = true ->
     run (webhook_handler_direct w b) ds = run (webhook_handler w b) ds) /\
  (truthy (direct_sessionId evt) = false ->
     run (webhook_handler_direct w b) ds =
       (text 400 "missing sessionId", ds, [])).
Proof.
  cbv zeta. split; intros H.
  - unfold run, webhook_handler_direct, webhook_handler. cbv zeta.
    rewrite (direct_sessionId_truthy _ H).
    rewrite !try_catch_eq, bind_eq, (webhook_resolve_direct w _ _ H).
    reflexivity.
  - unfold run, webhook_handler_direct. cbv zeta.
    rewrite try_catch_eq. unfold webhook_verify.
    rewrite (direct_sessionId_falsy_raw _ H). reflexivity.
Qed.

(* ================================================================== *)
(** ** POST /api/register *)
(* ================================================================== *)

Lemma register_gate b :
  negb (truthy (prop (js_or b (JObj [])) "email")) ||
  negb (truthy (prop (js_or b (JObj [])) "name")) =
  negb (registration_valid b).
Proof.
  unfold registration_valid.
  destruct (truthy (prop (js_or b (JObj [])) "email")),
           (truthy (prop (js_or b (JObj [])) "name")); reflexivity.
Qed.

Lemma add_ref_eq w doc st :
  add_ref w doc st =
  if negb (db_defined w)
  then (Throw "TypeError: Cannot read properties of undefined", st)
  else if fs_fails w (fs_calls st)
  then (Throw "Error: firestore", after_call st (EvAdd doc))
  else if fs_valid (JObj doc)
  then (Ok (insert_pos (add_pos w) (docs st)),
        mkSt (list_insert_at (add_pos w) doc (docs st))
             (log st ++ [EvAdd doc])%list (S (fs_calls st)))
  else (Throw "Error: undefined is not a Firestore value",
        after_call st (EvAdd doc)).
Proof.
  unfold add_ref, fs_call, after_call, insert_pos.
  destruct (negb (db_defined w)); [reflexivity|].
  destruct (fs_fails w (fs_calls st)); [reflexivity|].
  destruct (fs_valid (JObj doc)); reflexivity.
Qed.

(** The first write of the handler: the reference of the saved
    registration, or none when the store did not take it. *)
Lemma register_save_eq w doc st :
  try_catch (i <- add_ref w doc ;; ret (Some i)) (fun _ => ret None) st =
  if negb (db_defined w) then (Ok None, st)
  else if fs_fails w (fs_calls st)
  then (Ok None, after_call st (EvAdd doc))
  else if fs_valid (JObj doc)
  then (Ok (Some (insert_pos (add_pos w) (docs st))),
        mkSt (list_insert_at (add_pos w) doc (docs st))
             (log st ++ [EvAdd doc])%list (S (fs_calls st)))
  else (Ok None, after_call st (EvAdd doc)).
Proof.
  rewrite try_catch_eq, bind_eq, add_ref_eq.
  destruct (negb (db_defined w)); [reflexivity|].
  destruct (fs_fails w (fs_calls st)); [reflexivity|].
  destruct (fs_valid (JObj doc)); reflexivity.
Qed.

Lemma register_save_inv w doc st res st1 :
  try_catch (i <- add_ref w doc ;; ret (Some i)) (fun _ => ret None) st
    = (res, st1) ->
  exists docRef ws,
    res = Ok docRef /\ log st1 = (log st ++ ws)%list /\
    Forall (fun e => is_store_write e = true) ws.
Proof.
  rewrite register_save_eq. intros H.
  assert (Hw : Forall (fun e => is_store_write e = true) [EvAdd doc])
    by (constructor; [reflexivity|constructor]).
  destruct (negb (db_defined w)).
  { inversion H; subst. exists None, []. rewrite app_nil_r. auto. }
  destruct (fs_fails w (fs_calls st)).
  { inversion H; subst. exists None, [EvAdd doc]. auto. }
  destruct (fs_valid (JObj doc)); inversion H; subst;
    eexists _, [EvAdd doc]; auto.
Qed.

Lemma update_saved_trace w docRef fields st r st' :
  update_saved w docRef fields st = (r, st') ->
  exists ws, log st' = (log st ++ ws)%list /\
             Forall (fun e => is_store_write e = true) ws.
Proof.
  destruct docRef as [i|]; simpl; [apply update_trace|].
  intros H. inversion H; subst. exists []. rewrite app_nil_r. auto.
Qed.

Lemma count_dispatch_writes ws :
  Forall (fun e => is_store_write e = true) ws -> count_dispatch ws = 0%nat.
Proof.
  intros H. unfold count_dispatch. induction H as [|e ws He _ IH];
    [reflexivity|].
  simpl. rewrite (write_not_dispatch e He). exact IH.
Qed.

(** A registration without a truthy email or name is refused before
    anything is stored or forwarded. *)
Lemma register_run_invalid w b ds :
  registration_valid b = false ->
  run (register_handler w b) ds =
  (text 400 "missing required fields", ds, []).
Proof.
  intros H. unfold run, register_handler. rewrite try_catch_eq. cbv zeta.
  rewrite register_gate, H. reflexivity.
Qed.

(** The calls of a valid registration, whatever the store does: store
    writes around at most one dispatch, which goes out exactly when the
    endpoint is configured; an accepted registration is answered 200. *)
Lemma register_run_shape w b ds :
  registration_valid b = true ->
  let r := run (register_handler w b) ds in
  let payload := registration_payload w b (js_or b (JObj [])) in
  exists ws1 ws2,
    Forall (fun e => is_store_write e = true) ws1 /\
    Forall (fun e => is_store_write e = true) ws2 /\
    if truthy (APPSCRIPT_URL w)
    then
      trace_of r = (ws1 ++ EvAppsScript (APPSCRIPT_URL w) payload :: ws2)%list /\
      (forall resp,
         appscript_post w (APPSCRIPT_URL w) payload = Some resp ->
         negb (resp_ok resp) || truthy (reported_error resp) = false ->
         response_of r =
           json 200 [("success", JBool true); ("data", JStr (http_text resp))])
    else
      trace_of r = (ws1 ++ ws2)%list /\ code (response_of r) = 500%nat.
Proof.
  intros Hvalid. cbv zeta.
  unfold run, register_handler. rewrite try_catch_eq. cbv zeta.
  rewrite register_gate, Hvalid. cbn [negb]. rewrite bind_eq.
  destruct (try_catch _ _ (mkSt ds [] 0)) as [res st1] eqn:Hsave.
  destruct (register_save_inv _ _ _ _ _ Hsave) as [docRef [ws1 [Hres [Hl1 Hw1]]]].
  subst res. simpl in Hl1. exists ws1.
  destruct (truthy (APPSCRIPT_URL w)); cbn [negb].
  - rewrite bind_eq, try_catch_eq. unfold fetch_with.
    rewrite bind_eq, emit_eq. cbv beta iota.
    set (payload := registration_payload w b (js_or b (JObj []))).
    destruct (appscript_post w (APPSCRIPT_URL w) payload) as [resp|].
    + rewrite ret_eq. cbv beta iota.
      destruct (negb (resp_ok resp) || truthy (reported_error resp)) eqn:Hc.
      * rewrite bind_eq.
        destruct (update_saved w docRef _ _) as [[u|e] st2] eqn:Hu;
          destruct (update_saved_trace _ _ _ _ _ _ Hu) as [ws2 [Hl2 Hw2]];
          simpl in Hl2; exists ws2;
          (split; [exact Hw1|]); (split; [exact Hw2|]);
          unfold send; cbv beta iota; try (destruct (sent _ _));
          rewrite ?ret_eq; unfold trace_of, response_of; cbn [fst snd];
          rewrite Hl2, Hl1, <- app_assoc;
          (split; [reflexivity|]);
          intros resp' Hr' Hc'; inversion Hr'; subst; congruence.
      * rewrite bind_eq.
        assert (Hmark : forall fields st,
                  exists st2 ws2,
                    match docRef with
                    | Some i => try_catch (update w i fields) (fun _ => ret tt)
                    | None => ret tt
                    end st = (Ok tt, st2) /\
                    log st2 = (log st ++ ws2)%list /\
                    Forall (fun e => is_store_write e = true) ws2).
        { intros fields st. destruct docRef as [i|].
          - rewrite try_catch_eq.
            destruct (update w i fields st) as [[[]|e] st2] eqn:Hu;
              destruct (update_trace _ _ _ _ _ _ Hu) as [ws2 [Hl2 Hw2]];
              exists st2, ws2; rewrite ?ret_eq; auto.
          - exists st, []. rewrite ret_eq, app_nil_r. auto. }
        match goal with
        | |- context [match docRef with
                      | Some i => try_catch (update w i ?f) _
                      | None => _ end ?s] =>
            destruct (Hmark f s) as [st2 [ws2 [Hm [Hl2 Hw2]]]]
        end.
        rewrite Hm, ret_eq. simpl in Hl2. exists ws2.
        split; [exact Hw1|]. split; [exact Hw2|].
        unfold trace_of, response_of. cbn [fst snd].
        rewrite Hl2, Hl1, <- app_assoc. split; [reflexivity|].
        intros resp' Hr' _. inversion Hr'; subst. reflexivity.
    + rewrite throw_eq. cbv beta iota. rewrite bind_eq.
      destruct (update_saved w docRef _ _) as [[u|e] st2] eqn:Hu;
        destruct (update_saved_trace _ _ _ _ _ _ Hu) as [ws2 [Hl2 Hw2]];
        simpl in Hl2; exists ws2;
        (split; [exact Hw1|]); (split; [exact Hw2|]);
        rewrite ?throw_eq, ?ret_eq; unfold trace_of, response_of;
        cbn [fst snd]; rewrite Hl2, Hl1, <- app_assoc;
        (split; [reflexivity|]); intros resp' Hr'; discriminate.
  - rewrite bind_eq.
    destruct (update_saved w docRef _ _) as [[u|e] st2] eqn:Hu;
      destruct (update_saved_trace _ _ _ _ _ _ Hu) as [ws2 [Hl2 Hw2]];
      exists ws2; (split; [exact Hw1|]); (split; [exact Hw2|]);
      rewrite ?ret_eq; unfold trace_of, response_of; cbn [fst snd];
      rewrite Hl2, Hl1; split; reflexivity.
Qed.

Lemma update_inserted {A} n (x : A) f l :
  list_update_at (insert_pos n l) f (list_insert_at n x l) =
  list_insert_at n (f x) l.
Proof.
  revert n. induction l as [|y l IH]; intros [|n]; try reflexivity.
  unfold insert_pos in *. simpl. rewrite IH. reflexivity.
Qed.

Lemma register_marks_valid w b : fs_valid (JObj (register_marks w b)) = true.
Proof.
  unfold register_marks. destruct (negb (truthy (APPSCRIPT_URL w)));
    [reflexivity|].
  destruct (appscript_post w _ _) as [resp|]; [|reflexivity].
  destruct (negb (resp_ok resp) || truthy (reported_error resp)); reflexivity.
Qed.

(** The run of a valid registration that the store saved. *)
Lemma register_run_saved w b ds :
  firestore_up w ->
  registration_valid b = true ->
  let record := registration_record w (js_or b (JObj [])) in
  let payload := registration_payload w b (js_or b (JObj [])) in
  fs_valid (JObj record) = true ->
  run (register_handler w b) ds =
  (register_answer w b,
   list_insert_at (add_pos w) (obj_merge record (register_marks w b)) ds,
   EvAdd record ::
   ((if truthy (APPSCRIPT_URL w)
     then [EvAppsScript (APPSCRIPT_URL w) payload] else []) ++
    [EvUpdate (insert_pos (add_pos w) ds) (register_marks w b)])%list).
Proof.
  intros [Hdb Hfs] Hvalid. cbv zeta. intros Hval.
  unfold run, register_handler. rewrite try_catch_eq. cbv zeta.
  rewrite register_gate, Hvalid. cbn [negb].
  rewrite bind_eq, register_save_eq, Hdb, Hfs, Hval. cbn [negb].
  cbv beta iota. unfold register_answer, register_marks.
  rewrite Hvalid. cbn [negb docs].
  assert (Hupd : forall i fields st,
            fs_valid (JObj fields) = true ->
            update w i fields st =
            (Ok tt,
             mkSt (list_update_at i (fun d => obj_merge d fields) (docs st))
                  (log st ++ [EvUpdate i fields])%list (S (fs_calls st)))).
  { intros i fields st Hf. rewrite update_eq, Hdb, Hfs, Hf. reflexivity. }
  destruct (truthy (APPSCRIPT_URL w)); cbn [negb].
  - rewrite bind_eq, try_catch_eq. unfold fetch_with.
    rewrite bind_eq, emit_eq. cbv beta iota.
    destruct (appscript_post w (APPSCRIPT_URL w)
                (registration_payload w b (js_or b (JObj [])))) as [resp|].
    + rewrite ret_eq. cbv beta iota.
      destruct (negb (resp_ok resp) || truthy (reported_error resp)).
      * rewrite bind_eq. unfold update_saved.
        rewrite Hupd by reflexivity.
        cbv beta iota. unfold send. fold (rejected_fields resp).
        fold (rejection_message resp).
        destruct (sent 502 (rejection_message resp)); rewrite ?ret_eq;
          cbn [docs log after_fetch app];
          rewrite update_inserted; reflexivity.
      * rewrite bind_eq, try_catch_eq.
        rewrite Hupd by reflexivity.
        cbv beta iota. rewrite ret_eq. cbn [docs log after_fetch app].
        rewrite update_inserted. reflexivity.
    + rewrite throw_eq. cbv beta iota. rewrite bind_eq. unfold update_saved.
      rewrite Hupd by reflexivity.
      cbv beta iota. rewrite throw_eq. cbn [docs log after_fetch app].
      rewrite update_inserted. reflexivity.
  - rewrite bind_eq. unfold update_saved.
    rewrite Hupd by reflexivity.
    cbv beta iota. rewrite ret_eq. cbn [docs log app].
    rewrite update_inserted. reflexivity.
Qed.

(** The run of a valid registration that the store did not take: [db] was
    never initialised, or the document was not acceptable. *)
Lemma register_run_unsaved w b ds :
  registration_valid b = true ->
  let record := registration_record w (js_or b (JObj [])) in
  let payload := registration_payload w b (js_or b (JObj [])) in
  db_defined w = false \/
  (firestore_up w /\ fs_valid (JObj record) = false) ->
  run (register_handler w b) ds =
  (register_answer w b, ds,
   ((if db_defined w then [EvAdd record] else []) ++
    (if truthy (APPSCRIPT_URL w)
     then [EvAppsScript (APPSCRIPT_URL w) payload] else []))%list).
Proof.
  intros Hvalid. cbv zeta. intros Hstore.
  unfold run, register_handler. rewrite try_catch_eq. cbv zeta.
  rewrite register_gate, Hvalid. cbn [negb].
  rewrite bind_eq, register_save_eq.
  unfold register_answer. rewrite Hvalid. cbn [negb].
  set (st1 := mkSt ds (if db_defined w
                       then [EvAdd (registration_record w (js_or b (JObj [])))]
                       else []) (if db_defined w then 1 else 0)%nat).
  assert (Hsave :
    (if negb (db_defined w) then (Ok None, mkSt ds [] 0)
     else if fs_fails w (fs_calls (mkSt ds [] 0))
     then (Ok None,
           after_call (mkSt ds [] 0)
             (EvAdd (registration_record w (js_or b (JObj [])))))
     else if fs_valid (JObj (registration_record w (js_or b (JObj []))))
     then (Ok (Some (insert_pos (add_pos w) (docs (mkSt ds [] 0)))),
           mkSt (list_insert_at (add_pos w)
                   (registration_record w (js_or b (JObj [])))
                   (docs (mkSt ds [] 0)))
                (log (mkSt ds [] 0) ++
                 [EvAdd (registration_record w (js_or b (JObj [])))])%list
                (S (fs_calls (mkSt ds [] 0))))
     else (Ok None,
           after_call (mkSt ds [] 0)
             (EvAdd (registration_record w (js_or b (JObj []))))))
    = (Ok (@None nat), st1)).
  { unfold st1. destruct Hstore as [Hdb|[[Hdb Hfs] Hval]].
    - rewrite Hdb. reflexivity.
    - rewrite Hdb, Hfs, Hval. reflexivity. }
  rewrite Hsave. cbv beta iota. clear Hsave.
  assert (Hlog : log st1 = if db_defined w
                           then [EvAdd (registration_record w (js_or b (JObj [])))]
                           else []) by reflexivity.
  assert (Hdocs : docs st1 = ds) by reflexivity.
  clearbody st1.
  destruct (truthy (APPSCRIPT_URL w)); cbn [negb].
  - rewrite bind_eq, try_catch_eq. unfold fetch_with.
    rewrite bind_eq, emit_eq. cbv beta iota.
    destruct (appscript_post w (APPSCRIPT_URL w)
                (registration_payload w b (js_or b (JObj [])))) as [resp|].
    + rewrite ret_eq. cbv beta iota.
      destruct (negb (resp_ok resp) || truthy (reported_error resp)).
      * rewrite bind_eq. unfold update_saved. rewrite !ret_eq.
        cbv beta iota. unfold send. fold (rejection_message resp).
        destruct (sent 502 (rejection_message resp)); rewrite ?ret_eq;
          cbn [docs log after_fetch]; rewrite Hlog, Hdocs; reflexivity.
      * rewrite bind_eq, !ret_eq.
        cbn [docs log after_fetch]. rewrite Hlog, Hdocs. reflexivity.
    + rewrite throw_eq. cbv beta iota. rewrite bind_eq. unfold update_saved.
      rewrite ret_eq. cbv beta iota. rewrite throw_eq. cbv beta iota.
      rewrite ret_eq.
      cbn [docs log after_fetch]. rewrite Hlog, Hdocs. reflexivity.
  - rewrite bind_eq. unfold update_saved. rewrite !ret_eq.
    rewrite Hlog, Hdocs, app_nil_r. reflexivity.
Qed.

Lemma register_answer_numeric w b n :
  numeric_rejection w b = Some n ->
  code (register_answer w b) =
  match numeric_status n with Some c => c | None => 500%nat end.
Proof.
  unfold numeric_rejection, register_answer.
  destruct (registration_valid b); [|discriminate].
  destruct (truthy (APPSCRIPT_URL w)); [|discriminate]. cbn [negb andb].
  destruct (appscript_post w (APPSCRIPT_URL w)
              (registration_payload w b (js_or b (JObj [])))) as [resp|];
    [|discriminate].
  destruct (negb (resp_ok resp) || truthy (reported_error resp));
    [|discriminate].
  destruct (rejection_message resp); try discriminate.
  intros H. injection H as H. subst. unfold sent.
  destruct (numeric_status n); reflexivity.
Qed.

(** X16: the answer to a registration depends on the request, the
    configuration and the Apps Script answer only, not on the store.  A
    request without a truthy email or name is answered 400 "missing required
    fields" with nothing stored and nothing forwarded.  With Firestore
    answering, or with [db] never initialised, a valid request is answered
    500 when no endpoint is configured or the endpoint cannot be reached,
    200 with the endpoint's text when the endpoint accepts, and, when the
    endpoint answers outside 2xx or with a truthy [error] field, 502 with
    the reported error unless that error is a number: a number handed to
    [res.send] becomes the status of the answer, read as an int32, and
    the answer is 500 when that is no status from 100 to 999.  A
    registration the endpoint accepted is answered 200 even when store
    calls fail during the request. *)
Theorem register_answer_from_forwarding w b ds :
  let r := run (register_handler w b) ds in
  (registration_valid b = false ->
     r = (text 400 "missing required fields", ds, [])) /\
  (firestore_up w \/ db_defined w = false ->
     match numeric_rejection w b with
     | None => response_of r = register_answer w b
     | Some n =>
         code (response_of r) =
         match numeric_status n with Some c => c | None => 500%nat end
     end) /\
  (forwarded w b = true -> registration_valid b = true ->
     response_of r = register_answer w b /\
     code (response_of r) = 200%nat).
Proof.
  cbv zeta. split; [apply register_run_invalid|]. split.
  - intros Hstore.
    assert (Heq : response_of (run (register_handler w b) ds) =
                  register_answer w b).
    { destruct (registration_valid b) eqn:Hvalid.
      2:{ rewrite (register_run_invalid w b ds Hvalid).
          unfold register_answer. rewrite Hvalid. reflexivity. }
      destruct Hstore as [Hup|Hdb].
      + destruct (fs_valid (JObj (registration_record w (js_or b (JObj [])))))
          eqn:Hval.
        * pose proof (register_run_saved w b ds Hup Hvalid) as H.
          cbv zeta in H. rewrite (H Hval). reflexivity.
        * pose proof (register_run_unsaved w b ds Hvalid) as H.
          cbv zeta in H. rewrite (H (or_intror (conj Hup Hval))).
          reflexivity.
      + pose proof (register_run_unsaved w b ds Hvalid) as H.
        cbv zeta in H. rewrite (H (or_introl Hdb)). reflexivity. }
    destruct (numeric_rejection w b) as [n|] eqn:Hn; [|exact Heq].
    rewrite Heq. apply register_answer_numeric. exact Hn.
  - intros Hfw Hvalid.
    destruct (register_run_shape w b ds Hvalid)
      as [ws1 [ws2 [_ [_ Hshape]]]].
    cbv zeta in Hshape. unfold forwarded in Hfw.
    apply andb_true_iff in Hfw. destruct Hfw as [Hurl Hacc].
    rewrite Hurl in Hshape. destruct Hshape as [_ Hok].
    unfold register_answer. rewrite Hvalid, Hurl. cbn [negb].
    destruct (appscript_post w (APPSCRIPT_URL w)
                (registration_payload w b (js_or b (JObj [])))) as [resp|];
      [|discriminate].
    apply negb_true_iff in Hacc. rewrite Hacc.
    rewrite (Hok resp eq_refl Hacc). split; reflexivity.
Qed.

(** X17: what is kept of a registration.  With Firestore answering, a
    valid registration is stored once, under the name and address of the
    request, and the stored document notes the outcome: [email_sent] is
    true exactly when the endpoint is configured and accepted the
    registration, and [email_requested] is cleared.  With [db] never
    initialised nothing is stored. *)
Theorem register_bookkeeping w b ds :
  registration_valid b = true ->
  let b' := js_or b (JObj []) in
  let record := registration_record w b' in
  let stored := obj_merge record (register_marks w b) in
  let r := run (register_handler w b) ds in
  (firestore_up w -> fs_valid (JObj record) = true ->
     docs_of r = list_insert_at (add_pos w) stored ds /\
     prop (JObj stored) "email" = prop b' "email" /\
     prop (JObj stored) "name" = prop b' "name" /\
     prop (JObj stored) "email_sent" = JBool (forwarded w b) /\
     prop (JObj stored) "email_requested" = JBool false) /\
  (db_defined w = false -> docs_of r = ds).
Proof.
  intros Hvalid. cbv zeta. split.
  - intros Hup Hval.
    pose proof (register_run_saved w b ds Hup Hvalid) as H.
    cbv zeta in H. rewrite (H Hval). clear H.
    split; [reflexivity|].
    unfold registration_valid in Hvalid. apply andb_true_iff in Hvalid.
    destruct Hvalid as [Hemail Hname].
    assert (Hkeep : forall fields,
      assoc "email" fields = None -> assoc "name" fields = None ->
      prop (JObj (obj_merge (registration_record w (js_or b (JObj []))) fields))
           "email" = prop (js_or b (JObj [])) "email" /\
      prop (JObj (obj_merge (registration_record w (js_or b (JObj []))) fields))
           "name" = prop (js_or b (JObj [])) "name").
    { intros fields He Hn. rewrite !prop_obj_merge_other by assumption.
      split.
      - change (js_or (prop (js_or b (JObj [])) "email") JNull =
                prop (js_or b (JObj [])) "email").
        set (x := prop (js_or b (JObj [])) "email") in *.
        unfold js_or. rewrite Hemail. reflexivity.
      - change (js_or (prop (js_or b (JObj [])) "name") JNull =
                prop (js_or b (JObj [])) "name").
        set (x := prop (js_or b (JObj [])) "name") in *.
        unfold js_or. rewrite Hname. reflexivity. }
    assert (Hmarks :
      prop (JObj (obj_merge (registration_record w (js_or b (JObj [])))
                            (register_marks w b))) "email_sent" =
        JBool (forwarded w b) /\
      prop (JObj (obj_merge (registration_record w (js_or b (JObj [])))
                            (register_marks w b))) "email_requested" =
        JBool false /\
      assoc "email" (register_marks w b) = None /\
      assoc "name" (register_marks w b) = None).
    { unfold register_marks, forwarded.
      destruct (truthy (APPSCRIPT_URL w)); cbn [negb andb].
      - destruct (appscript_post w _ _) as [resp|].
        + destruct (negb (resp_ok resp) || truthy (reported_error resp));
            cbn [negb]; unfold prop, obj_merge, rejected_fields, emailed_fields;
            cbn [fold_left fst snd]; rewrite !assoc_obj_set;
            repeat split; reflexivity.
        + unfold prop, obj_merge, unreachable_fields;
            cbn [fold_left fst snd]; rewrite !assoc_obj_set;
            repeat split; reflexivity.
      - unfold prop, obj_merge, unconfigured_fields;
          cbn [fold_left fst snd]; rewrite !assoc_obj_set;
          repeat split; reflexivity. }
    destruct Hmarks as [Hsent [Hreq [He Hn]]].
    destruct (Hkeep _ He Hn) as [Hk1 Hk2].
    repeat split; assumption.
  - intros Hdb.
    pose proof (register_run_unsaved w b ds Hvalid) as H.
    cbv zeta in H. rewrite (H (or_introl Hdb)). reflexivity.
Qed.

(** X18: [GET /health] tells whether registrations are forwarded.  It
    always answers 200; when it reports [appsScriptConfigured: true] every
    valid registration is dispatched to the Apps Script endpoint exactly
    once, and when it reports [false] no registration is dispatched and
    every valid one is answered 500, whatever the store does. *)
Theorem health_reports_forwarding w b ds :
  registration_valid b = true ->
  let r := run (register_handler w b) ds in
  code (health_handler w) = 200%nat /\
  (health_flag w = JBool true -> count_dispatch (trace_of r) = 1%nat) /\
  (health_flag w = JBool false ->
     count_dispatch (trace_of r) = 0%nat /\ code (response_of r) = 500%nat).
Proof.
  intros Hvalid. cbv zeta. split; [reflexivity|].
  destruct (register_run_shape w b ds Hvalid)
    as [ws1 [ws2 [Hw1 [Hw2 Hshape]]]].
  cbv zeta in Hshape.
  change (health_flag w) with (JBool (truthy (APPSCRIPT_URL w))).
  pose proof (count_dispatch_writes _ Hw1) as H1.
  pose proof (count_dispatch_writes _ Hw2) as H2.
  unfold count_dispatch in *.
  destruct (truthy (APPSCRIPT_URL w)).
  - destruct Hshape as [Htr _]. split; [|discriminate]. intros _.
    rewrite Htr, filter_app, length_app. simpl. rewrite H1, H2. reflexivity.
  - destruct Hshape as [Htr Hcode]. split; [discriminate|]. intros _.
    rewrite Htr, filter_app, length_app, H1, H2. split; [reflexivity|].
    exact Hcode.
Qed.

(** X19: the order of the outbound calls of a registration, from every
    state of the store: it is saved first, then forwarded, and the saved
    document is updated once at the end; the handler never reads from the
    store, never calls the payment gateway, dispatches at most once and
    writes at most twice.  It always returns a response: no exception
    escapes it. *)
Theorem register_call_order w b :
  answers_within register_protocol (register_handler w b) /\
  (forall ds,
     let r := run (register_handler w b) ds in
     In (calls_of r) register_protocol /\
     within 0 0 1 2 (calls_of r) = true /\
     count_kind KQuery (calls_of r) = 0%nat).
Proof.
  split; [apply follows_answers, follows_register_handler|].
  intros ds. cbv zeta.
  pose proof (run_follows _ _ ds (follows_register_handler w b))
    as Hin.
  split; [exact Hin|]. split.
  - apply (protocol_check _ register_protocol); [exact Hin|reflexivity].
  - apply Nat.eqb_eq.
    apply (protocol_check (fun l => Nat.eqb (count_kind KQuery l) 0)
                          register_protocol); [exact Hin|reflexivity].
Qed.

(* ================================================================== *)
(** ** The status codes of the payment endpoints *)
(* ================================================================== *)

Ltac codes :=
  cbv zeta;
  lazymatch goal with
  | |- codes_in _ (ret _) => apply codes_ret; simpl; auto 10
  | |- codes_in _ (bind _ _) => apply codes_bind; intros; codes
  | |- codes_in _ (try_catch _ _) =>
      apply codes_try_catch; [codes | intros; codes]
  | |- codes_in _ (match ?o with Some _ => _ | None => _ end) =>
      destruct o; codes
  | |- codes_in _ (let (_, _) := ?p in _) => destruct p; codes
  | |- codes_in _ (if ?c then _ else _) => destruct c; codes
  | |- codes_in _ (webhook_reconcile _ _ _) =>
      unfold webhook_reconcile; codes
  | |- codes_in _ (webhook_verify _ _) => unfold webhook_verify; codes
  | |- codes_in _ (status_found _ _ _ _) => unfold status_found; codes
  | |- codes_in _ (status_create _ _) => unfold status_create; codes
  | |- codes_in _ (fulfill_send _ _ _ _) => unfold fulfill_send; codes
  end.

Lemma run_codes l h ds :
  codes_in l h -> In 500%nat l -> In (code (response_of (run h ds))) l.
Proof.
  intros H H500. unfold run.
  destruct (h (mkSt ds [] 0)) as [[r|e] st] eqn:E.
  - exact (H _ _ _ E).
  - exact H500.
Qed.

(** X20: the status codes a payment endpoint can answer with.  Session
    creation answers 200, 400, 500 or 502; the webhook 200, 400 or 500;
    the status and the fulfillment endpoints 200, 400, 404 or 500. *)
Theorem payment_status_codes w b ds :
  In (code (response_of (run (session_handler w b) ds)))
     [200; 400; 500; 502]%nat /\
  In (code (response_of (run (webhook_handler w b) ds))) [200; 400; 500]%nat /\
  In (code (response_of (run (status_handler w b) ds)))
     [200; 400; 404; 500]%nat /\
  In (code (response_of (run (fulfill_handler w b) ds)))
     [200; 400; 404; 500]%nat.
Proof.
  split; [apply run_codes; [unfold session_handler; codes|simpl; auto]|].
  split; [apply run_codes; [unfold webhook_handler; codes|simpl; auto]|].
  split; [apply run_codes; [unfold status_handler; codes|simpl; auto 6]|].
  apply run_codes; [unfold fulfill_handler; codes|simpl; auto 6].
Qed.

(* ================================================================== *)
(** ** fetchKashierSession *)
(* ================================================================== *)


(* ================================================================== *)
(** ** Orders that are numbers *)
(* ================================================================== *)





(* ================================================================== *)
(** ** Further theorems at concrete requests *)
(* ================================================================== *)

Lemma store_only_world_fails : verification_fails store_only_world.
Proof. intros s. eexists. reflexivity. Qed.

Lemma unconfigured_world_up : firestore_up unconfigured_world.
Proof. split; [reflexivity|intros n; reflexivity]. Qed.

Lemma session_invalid_request_witness :
  let no_amount := JObj [("merchantRedirect", JStr "https://x/r")] in
  let negative := JObj [ ("amount", JStr "-5");
                         ("merchantRedirect", JStr "https://x/r") ] in
  let padded := JObj [ ("amount", JStr padded_negative);
                       ("merchantRedirect", JStr "https://x/r") ] in
  run (session_handler paid_world no_amount) [sample_payment] =
    (json 400 [("error", JStr "missing amount or merchantRedirect")],
     [sample_payment], []) /\
  run (session_handler paid_world negative) [sample_payment] =
    (json 400 [("error", JStr "invalid amount")], [sample_payment], []) /\
  run (session_handler paid_world padded) [sample_payment] =
    (json 400 [("error", JStr "invalid amount")], [sample_payment], []).
Proof.
  cbv zeta. split; [|split].
  - apply (proj1 (session_invalid_request paid_world
                    (JObj [("merchantRedirect", JStr "https://x/r")])
                    [sample_payment])).
    left. reflexivity.
  - apply (proj1 (proj2 (session_invalid_request paid_world
                           (JObj [ ("amount", JStr "-5");
                                   ("merchantRedirect", JStr "https://x/r") ])
                           [sample_payment]))); vm_compute; reflexivity.
  - apply (proj1 (proj2 (session_invalid_request paid_world
                           (JObj [ ("amount", JStr padded_negative);
                                   ("merchantRedirect", JStr "https://x/r") ])
                           [sample_payment]))); vm_compute; reflexivity.
Defined.



Lemma fulfill_unsuccessful_payment_witness :
  let r := run (fulfill_handler failed_world sample_fulfill_body)
               [sample_payment] in
  response_of r = json 400 [ ("error", JStr "payment not successful");
                             ("status", JStr "FAILED") ] /\
  map (fun d => prop (JObj d) "status") (docs_of r) = [JStr "FAILED"] /\
  count_dispatch (trace_of r) = 0%nat.
Proof.
  cbv zeta.
  destruct (fulfill_unsuccessful_payment failed_world sample_fulfill_body
              [sample_payment] 0 sample_payment failed_verification
              (sample_world_up _ _ _)
              eq_refl eq_refl eq_refl eq_refl eq_refl eq_refl)
    as [Hr [_ [_ [_ Hc]]]].
  split; [exact Hr|]. split; [reflexivity|exact Hc].
Defined.

Lemma fulfill_no_address_witness :
  let b := JObj [("merchantOrderId", JStr "order-4")] in
  let r := run (fulfill_handler paid_world b) [anonymous_payment] in
  response_of r = json 200 [ ("ok", JBool true);
                             ("message", JStr "no email to send");
                             ("status", JStr "PAID") ] /\
  map (fun d => prop (JObj d) "receiptSent") (docs_of r) = [JUndefined] /\
  count_dispatch (trace_of r) = 0%nat.
Proof.
  cbv zeta.
  destruct (fulfill_no_address paid_world
              (JObj [("merchantOrderId", JStr "order-4")])
              [anonymous_payment] 0 anonymous_payment paid_verification
              (sample_world_up _ _ _)
              eq_refl eq_refl eq_refl eq_refl eq_refl eq_refl eq_refl)
    as [Hr [_ [_ [_ Hc]]]].
  split; [exact Hr|]. split; [reflexivity|exact Hc].
Defined.

Lemma fulfill_dispatch_requires_verification_witness :
  exists idx d v,
    locate (body_merchantOrderId sample_fulfill_body)
           (body_sessionId sample_fulfill_body) [sample_payment]
      = Some (idx, d) /\
    verify_outcome paid_world
      (js_or (prop (JObj d) "sessionId") (body_sessionId sample_fulfill_body))
      = Ok v /\
    includes successStates (status_of v) = true.
Proof.
  destruct (fulfill_dispatch_requires_verification paid_world
              sample_fulfill_body [sample_payment]
              (EvAppsScript (APPSCRIPT_URL paid_world)
                 (receipt_payload paid_world (JObj sample_payment)
                    (receipt_user (JObj sample_payment))
                    (receipt_email (JObj sample_payment)))))
    as [idx [d [v [Hloc [_ [_ [Hv [Hinc _]]]]]]]].
  - vm_compute. right. right. left. reflexivity.
  - reflexivity.
  - exists idx, d, v. split; [exact Hloc|]. split; [exact Hv|exact Hinc].
Defined.


Lemma status_reads_stored_status_witness :
  let q := JObj [("merchantOrderId", JStr "order-5")] in
  let r := run (status_handler store_only_world q) [lowercase_payment] in
  let q7 := JObj [("merchantOrderId", JStr "order-7")] in
  let r7 := run (status_handler store_only_world q7) [dotless_payment] in
  (response_of r = json 200 [ ("status", JStr "paid");
                              ("verified", JBool true);
                              ("payment", JObj lowercase_payment) ] /\
   docs_of r = [lowercase_payment] /\
   Forall (fun e => is_query e = true) (trace_of r)) /\
  (response_of r7 = json 200 [ ("status", JStr dotless_paid);
                               ("verified", JBool true);
                               ("payment", JObj dotless_payment) ] /\
   docs_of r7 = [dotless_payment] /\
   Forall (fun e => is_query e = true) (trace_of r7)).
Proof.
  cbv zeta. split.
  - destruct (status_reads_stored_status store_only_world
                (JObj [("merchantOrderId", JStr "order-5")])
                [lowercase_payment]
                0 lowercase_payment (sample_world_up _ _ _) eq_refl)
      as [Hs _].
    apply (Hs "paid"); [reflexivity|]. left. reflexivity.
  - destruct (status_reads_stored_status store_only_world
                (JObj [("merchantOrderId", JStr "order-7")])
                [dotless_payment]
                0 dotless_payment (sample_world_up _ _ _) eq_refl)
      as [Hs _].
    apply (Hs dotless_paid); [reflexivity|]. left. vm_compute. reflexivity.
Defined.

Lemma gateway_down_no_effect_witness :
  without_effect [sample_payment]
    (run (webhook_handler store_only_world notification_paid) [sample_payment]) /\
  code (response_of (run (webhook_handler store_only_world notification_paid)
                         [sample_payment])) = 500%nat.
Proof.
  destruct (gateway_down_no_effect store_only_world notification_paid
              [sample_payment] store_only_world_fails) as [H _].
  split; [exact H|reflexivity].
Defined.

Lemma webhook_creates_once_witness :
  let b := JObj [("sessionId", JStr "s9")] in
  let r1 := run (webhook_handler paid_world b) [sample_payment] in
  let r2 := run (webhook_handler paid_world b) (docs_of r1) in
  response_of r1 = text 200 "OK" /\
  docs_of r1 =
    [webhook_record paid_world (JStr "s9") paid_verification; sample_payment] /\
  docs_of r2 = docs_of r1 /\
  filter is_store_write (trace_of r2) = [].
Proof.
  cbv zeta.
  destruct (webhook_creates_once paid_world (JObj [("sessionId", JStr "s9")])
              [sample_payment] "s9" paid_verification
              (sample_world_up _ _ _) eq_refl
              ltac:(discriminate) eq_refl eq_refl eq_refl I eq_refl)
    as [H1 [H2 [_ [_ [_ [H3 H4]]]]]].
  split; [exact H1|]. split; [exact H2|]. split; [exact H3|exact H4].
Defined.

Lemma session_record_found_by_order_witness :
  let n := JObj [("merchantOrderId", JStr "order-1700000000000")] in
  let r := run (session_handler creating_world sample_session_body) [] in
  let r2 := run (webhook_handler creating_world n) (docs_of r) in
  resolve_spec (js_or n (JObj [])) (docs_of r) = Some (JStr "s1") /\
  In (EvKashierGet (kashier_session_url creating_world (JStr "s1")))
     (trace_of r2).
Proof.
  cbv zeta.
  destruct (session_record_found_by_order creating_world sample_session_body
              [] (mkResp 200 (Some created_session_data) "")
              created_session_data "order-1700000000000"
              (JObj [("merchantOrderId", JStr "order-1700000000000")])
              (sample_world_up _ _ _)
              eq_refl eq_refl eq_refl eq_refl eq_refl eq_refl
              eq_refl eq_refl eq_refl eq_refl
              (or_introl eq_refl) eq_refl eq_refl)
    as [_ [H1 H2]].
  split; [exact H1|exact H2].
Defined.

Lemma webhook_direct_variant_witness :
  run (webhook_handler_direct paid_world notification_paid) [sample_payment] =
    run (webhook_handler paid_world notification_paid) [sample_payment] /\
  run (webhook_handler_direct paid_world
         (JObj [("merchantOrderId", JStr "order-1")])) [sample_payment] =
    (text 400 "missing sessionId", [sample_payment], []).
Proof.
  split.
  - apply (proj1 (webhook_direct_variant paid_world notification_paid
                    [sample_payment])). reflexivity.
  - apply (proj2 (webhook_direct_variant paid_world
                    (JObj [("merchantOrderId", JStr "order-1")])
                    [sample_payment])). reflexivity.
Defined.

Lemma register_answer_from_forwarding_witness :
  response_of (run (register_handler paid_world
                      sample_registration) []) =
    json 200 [("success", JBool true); ("data", JStr "sent")] /\
  response_of (run (register_handler rejecting_world
                      sample_registration) []) =
    text 502 "quota exceeded" /\
  response_of (run (register_handler unconfigured_world
                      sample_registration) []) =
    text 500 "server misconfiguration: APPSCRIPT_URL not set" /\
  code (response_of (run (register_handler numeric_error_world
                            sample_registration) [])) = 404%nat /\
  code (response_of (run (register_handler unusable_error_world
                            sample_registration) [])) = 500%nat.
Proof.
  split; [|split; [|split; [|split]]].
  - apply (proj1 (proj2 (register_answer_from_forwarding paid_world sample_registration []))).
    left. apply sample_world_up.
  - apply (proj1 (proj2 (register_answer_from_forwarding rejecting_world sample_registration []))).
    left. apply sample_world_up.
  - apply (proj1 (proj2 (register_answer_from_forwarding unconfigured_world sample_registration []))).
    left. apply unconfigured_world_up.
  - apply (proj1 (proj2 (register_answer_from_forwarding numeric_error_world sample_registration []))).
    left. apply sample_world_up.
  - apply (proj1 (proj2 (register_answer_from_forwarding unusable_error_world sample_registration []))).
    left. apply sample_world_up.
Defined.

Lemma register_bookkeeping_witness :
  let r := run (register_handler paid_world
                  sample_registration) [] in
  let r' := run (register_handler rejecting_world
                   sample_registration) [] in
  map (fun d => prop (JObj d) "email_sent") (docs_of r) = [JBool true] /\
  map (fun d => prop (JObj d) "email_sent") (docs_of r') = [JBool false] /\
  map (fun d => prop (JObj d) "email") (docs_of r) = [JStr "ada@example.org"].
Proof.
  cbv zeta.
  destruct (register_bookkeeping paid_world
              sample_registration [] eq_refl) as [H _].
  destruct (H (sample_world_up _ _ _) eq_refl) as [Hd [He [_ [Hs _]]]].
  destruct (register_bookkeeping rejecting_world
              sample_registration [] eq_refl) as [H' _].
  destruct (H' (sample_world_up _ _ _) eq_refl) as [Hd' [_ [_ [Hs' _]]]].
  rewrite Hd, Hd'.
  change (add_pos paid_world) with 0%nat.
  change (add_pos rejecting_world) with 0%nat.
  cbn [list_insert_at map]. rewrite Hs, Hs', He.
  split; [reflexivity|]. split; reflexivity.
Defined.

Lemma health_reports_forwarding_witness :
  let r := run (register_handler unconfigured_world
                  sample_registration) [] in
  let r' := run (register_handler paid_world
                   sample_registration) [] in
  health_flag unconfigured_world = JBool false /\
  count_dispatch (trace_of r) = 0%nat /\
  code (response_of r) = 500%nat /\
  health_flag paid_world = JBool true /\
  count_dispatch (trace_of r') = 1%nat.
Proof.
  cbv zeta.
  destruct (health_reports_forwarding unconfigured_world
              sample_registration [] eq_refl) as [_ [_ H0]].
  destruct (H0 eq_refl) as [Hc Hcode].
  destruct (health_reports_forwarding paid_world
              sample_registration [] eq_refl) as [_ [H1 _]].
  split; [reflexivity|]. split; [exact Hc|]. split; [exact Hcode|].
  split; [reflexivity|exact (H1 eq_refl)].
Defined.

